(** * CVS coupon mail scraper: the extraction pipeline, embedded and verified

    The development follows the layout of the repository:
    - [email-service.js]: [formatDate], [fetchCVSEmails], [extractEmailData],
      [getHeaderValue];
    - [utils.js]: [formatTimestamp], [saveEmailData], [printEmailSummary],
      and the module's earlier revision;
    - [auth.js], in its two variants (pasted code, local callback server);
    - [index.js]: [main].

    JavaScript code is embedded as Rocq functions in a small monad that
    carries the trace of a run (console, provider, file system, listener)
    and an exception completion.  The built-ins the code relies on
    ([parseInt], [Date], [JSON.stringify], [JSON.parse], property lookup)
    are modelled next to it, each with the limits of its model stated. *)

From Stdlib Require Import ZArith List String Ascii Bool Lia Permutation.
Import ListNotations.

Open Scope string_scope.
Open Scope Z_scope.

(* ===================================================================== *)
(** * Part I: definitions                                                 *)
(* ===================================================================== *)

(** ** Characters and decimal numerals *)

(** Strings are held as the bytes of their UTF-8 encoding; the characters
    the code inspects (digits, quotes, control characters) are ASCII, so a
    byte stands for itself there. *)

Definition code (c : ascii) : Z := Z.of_N (N_of_ascii c).
Definition chr (z : Z) : ascii := ascii_of_N (Z.to_N z).

Definition is_digit (c : ascii) : bool := (48 <=? code c) && (code c <=? 57).
Definition digit_val (c : ascii) : Z := code c - 48.
Definition digit_char (d : Z) : ascii := chr (48 + d).

(** Most significant digit first; [fuel] bounds the number of digits. *)
Fixpoint digits_aux (fuel : nat) (n : Z) (acc : string) : string :=
  match fuel with
  | O => acc
  | S f =>
      let acc' := String (digit_char (n mod 10)) acc in
      if n <? 10 then acc' else digits_aux f (n / 10) acc'
  end.

(** The decimal numeral of a natural number [n >= 0]. *)
Definition decimal (n : Z) : string :=
  digits_aux (S (Z.to_nat (Z.log2 n))) n "".

(** Value of a run of digits read after the value [acc]. *)
Fixpoint digits_value (s : string) (acc : Z) : Z :=
  match s with
  | EmptyString => acc
  | String c s' => digits_value s' (10 * acc + digit_val c)
  end.

Fixpoint all_digits (s : string) : bool :=
  match s with
  | EmptyString => true
  | String c s' => is_digit c && all_digits s'
  end.

Fixpoint repeat_char (c : ascii) (n : nat) : string :=
  match n with
  | O => ""
  | S k => String c (repeat_char c k)
  end.

(** [String.prototype.padStart(targetLength, padString)] for a one-character
    pad string. *)
Definition padStart (s : string) (targetLength : nat) (pad : ascii) : string :=
  repeat_char pad (targetLength - String.length s) ++ s.

Fixpoint starts_with (p s : string) : bool :=
  match p, s with
  | EmptyString, _ => true
  | String a p', String b s' => Ascii.eqb a b && starts_with p' s'
  | String _ _, EmptyString => false
  end.

Fixpoint drop (n : nat) (s : string) : string :=
  match n, s with
  | O, _ => s
  | S k, String _ s' => drop k s'
  | S _, EmptyString => ""
  end.

(** ** Numbers *)

(** The Number values the program meets: NaN, the integers, and, from JSON
    texts, decimal fractions [m * 10^e] with [e < 0] and [m] not a multiple
    of ten.  Integers are exact in a double up to [2^53 - 1]; the rounding
    of larger magnitudes is not modelled, and [-0] is identified with [0]. *)
Inductive JsNumber : Type :=
| NumNaN
| NumInt (z : Z)
| NumDec (m e : Z).

Definition MAX_SAFE_INTEGER : Z := 2 ^ 53 - 1.

Definition safe_integer (z : Z) : Prop :=
  - MAX_SAFE_INTEGER <= z <= MAX_SAFE_INTEGER.

(** Strips the trailing zeros of [m], counting them into the exponent. *)
Fixpoint strip_zeros (fuel : nat) (m e : Z) : Z * Z :=
  match fuel with
  | O => (m, e)
  | S f => if (m mod 10 =? 0) && negb (m =? 0)
           then strip_zeros f (m / 10) (e + 1) else (m, e)
  end.

(** [Number::toString] for a positive value [s * 10^(n-k)] whose digit
    string [ds] has [k] digits and no trailing zero. *)
Definition exponent_form (ds : string) (n : Z) : string :=
  let e := n - 1 in
  let mant :=
    match ds with
    | String d EmptyString => String d ""
    | String d rest => String d ("." ++ rest)
    | EmptyString => ""
    end in
  mant ++ "e" ++ (if e <? 0 then "-" else "+") ++ decimal (Z.abs e).

Definition positive_toString (s : Z) (e : Z) : string :=
  let ds := decimal s in
  let k := Z.of_nat (String.length ds) in
  let n := k + e in
  if (k <=? n) && (n <=? 21) then ds ++ repeat_char "0" (Z.to_nat (n - k))
  else if (0 <? n) && (n <=? 21)
       then substring 0 (Z.to_nat n) ds ++ "." ++ drop (Z.to_nat n) ds
  else if (-6 <? n) && (n <=? 0)
       then "0." ++ repeat_char "0" (Z.to_nat (- n)) ++ ds
  else exponent_form ds n.

Definition Number_toString (x : JsNumber) : string :=
  match x with
  | NumNaN => "NaN"
  | NumInt z =>
      if z =? 0 then "0"
      else
        let a := Z.abs z in
        let sign := if z <? 0 then "-" else "" in
        if a <? 10 ^ 21 then sign ++ decimal a
        else let '(s, e) := strip_zeros (S (Z.to_nat (Z.log2 a))) a 0 in
             sign ++ positive_toString s e
  | NumDec m e =>
      (if m <? 0 then "-" else "") ++ positive_toString (Z.abs m) e
  end.

(** ** [parseInt] *)

(** The white space [parseInt] skips (StrWhiteSpaceChar), as UTF-8. *)
Definition bytes (l : list Z) : string :=
  fold_right (fun z s => String (chr z) s) "" l.

Definition StrWhiteSpace : list string :=
  map bytes
    ([[9]; [10]; [11]; [12]; [13]; [32]; [194; 160]; [225; 154; 128]]
     ++ map (fun z => [226; 128; z])
            [128; 129; 130; 131; 132; 133; 134; 135; 136; 137; 138;
             168; 169; 175]
     ++ [[226; 129; 159]; [227; 128; 128]; [239; 187; 191]])%list.

Definition white_space_prefix (s : string) : option nat :=
  option_map String.length (find (fun w => starts_with w s) StrWhiteSpace).

Fixpoint trim_start (fuel : nat) (s : string) : string :=
  match fuel with
  | O => s
  | S f => match white_space_prefix s with
           | Some n => trim_start f (drop n s)
           | None => s
           end
  end.

Definition is_hex_digit (c : ascii) : bool :=
  is_digit c
  || ((97 <=? code c) && (code c <=? 102))
  || ((65 <=? code c) && (code c <=? 70)).

Definition hex_val (c : ascii) : Z :=
  if is_digit c then code c - 48
  else if 97 <=? code c then code c - 87
  else code c - 55.

(** Reads the longest prefix of digits in radix [R] (10 or 16); returns
    the number of digits read and their value. *)
Fixpoint radix_prefix (R : Z) (s : string) (count : nat) (acc : Z) : nat * Z :=
  match s with
  | String c s' =>
      if (if R =? 16 then is_hex_digit c else is_digit c)
      then radix_prefix R s' (S count)
             (R * acc + (if R =? 16 then hex_val c else digit_val c))
      else (count, acc)
  | EmptyString => (count, acc)
  end.

(** [parseInt(string)] with the radix left out. *)
Definition parseInt (input : string) : JsNumber :=
  let S0 := trim_start (String.length input) input in
  let '(sign, S1) :=
    match S0 with
    | String "-" r => (-1, r)
    | String "+" r => (1, r)
    | _ => (1, S0)
    end in
  let '(R, S2) :=
    if starts_with "0x" S1 || starts_with "0X" S1
    then (16, drop 2 S1) else (10, S1) in
  match radix_prefix R S2 0 0 with
  | (O, _) => NumNaN
  | (_, mathInt) => NumInt (sign * mathInt)
  end.

(** ** Values *)

(** The values that flow through [JSON.stringify] and [JSON.parse];
    an object keeps its properties in order. *)
#[warnings="-register-all"]
Inductive JsVal : Type :=
| VNull
| VBool (b : bool)
| VNum (n : JsNumber)
| VStr (s : string)
| VArr (elems : list JsVal)
| VObj (props : list (string * JsVal)).

(** A property of an object literal: left out, [null], or holding a value. *)
Inductive Field (A : Type) : Type :=
| Absent
| Null
| Has (a : A).
Arguments Absent {A}.
Arguments Null {A}.
Arguments Has {A} a.

(** ToBoolean. *)
Definition truthy_string (s : string) : bool :=
  match s with EmptyString => false | _ => true end.

Definition truthy_number (n : JsNumber) : bool :=
  match n with
  | NumNaN => false
  | NumInt z => negb (z =? 0)
  | NumDec m _ => negb (m =? 0)
  end.

Definition truthy (v : JsVal) : bool :=
  match v with
  | VNull => false
  | VBool b => b
  | VNum n => truthy_number n
  | VStr s => truthy_string s
  | VArr _ | VObj _ => true
  end.

(** ** Exceptions and effects *)

(** What is thrown: the client libraries and the runtime throw Error
    objects, of which the code reads the message. *)
Record JsError : Type := mkError { ctor : string; message : string }.

Definition TypeError (msg : string) : JsError := mkError "TypeError" msg.
Definition SyntaxError (msg : string) : JsError := mkError "SyntaxError" msg.
Definition Error (msg : string) : JsError := mkError "Error" msg.

Inductive Completion (A : Type) : Type :=
| Normal (a : A)
| Throw (e : JsError).
Arguments Normal {A} a.
Arguments Throw {A} e.

Definition Path : Type := string.

(** What a run leaves behind, in program order. *)
Inductive Event : Type :=
| ConsoleLog (text : string)
| ConsoleWarn (text : string)
| ConsoleError (text : string) (err : option JsError)
| MessagesList (userId q : string) (maxResults : Z)
| MessagesGet (userId id format : string) (metadataHeaders : list string)
| Mkdir (dir : Path)
| WriteFile (file : Path) (data : string)
| ReadFile (file : Path)
| SetCredentials (tokens : JsVal)
| Question (prompt : string)
| WriteHead (status : Z)
| ResEnd (body : string)
| ServerClose
| ServerListen (port : Z)
| OpenBrowser (url : string)
| Resolve (tokens : JsVal)
| Reject (err : JsError).

(** An effectful computation: its trace and how it completes.  The trace
    keeps the events of each asynchronous computation together, in program
    order; how the runtime interleaves computations that are in flight at
    the same time is not recorded. *)
Definition Eff (A : Type) : Type := list Event * Completion A.

Definition ret {A} (a : A) : Eff A := ([], Normal a).
Definition throw {A} (e : JsError) : Eff A := ([], Throw e).
Definition emit (ev : Event) : Eff unit := ([ev], Normal tt).
Definition lift {A} (c : Completion A) : Eff A := ([], c).

Definition bind {A B} (m : Eff A) (k : A -> Eff B) : Eff B :=
  match m with
  | (t, Normal a) => let '(t', r) := k a in ((t ++ t')%list, r)
  | (t, Throw e) => (t, Throw e)
  end.

(** [try { body } catch (error) { handler }]. *)
Definition try_catch {A} (body : Eff A) (handler : JsError -> Eff A) : Eff A :=
  match body with
  | (t, Normal a) => (t, Normal a)
  | (t, Throw e) => let '(t', r) := handler e in ((t ++ t')%list, r)
  end.

Notation "x <- m ;; k" := (bind m (fun x => k))
  (at level 61, m at next level, right associativity).
Notation "m ;;; k" := (bind m (fun _ => k))
  (at level 61, right associativity).

Definition trace {A} (m : Eff A) : list Event := fst m.
Definition outcome {A} (m : Eff A) : Completion A := snd m.

(** [Promise.all] over promises already started, one per element: every
    computation runs to its end; the result fulfils with the values in list
    order, or rejects when an element does (of several rejections the model
    keeps the first in list order, the runtime the first in time). *)
Fixpoint Promise_all {A} (ps : list (Eff A)) : Eff (list A) :=
  match ps with
  | [] => ret []
  | p :: rest =>
      let '(t, r) := p in
      let '(t', rs) := Promise_all rest in
      ((t ++ t')%list,
       match r, rs with
       | Normal a, Normal l => Normal (a :: l)
       | Throw e, _ => Throw e
       | Normal _, Throw e => Throw e
       end)
  end.

(** ** JSON *)

Module JSON.

Definition dquote : ascii := "034"%char.
Definition backslash : ascii := "092"%char.
Definition newline : string := String "010"%char "".

Definition hex_digit (n : Z) : ascii :=
  if n <? 10 then chr (48 + n) else chr (87 + n).

(** QuoteJSONString, character by character: the two-character escapes,
    [\u00xx] for the other control characters, anything else as it is. *)
Definition quote_char (c : ascii) : string :=
  let n := code c in
  if n =? 8 then "\b"
  else if n =? 9 then "\t"
  else if n =? 10 then "\n"
  else if n =? 12 then "\f"
  else if n =? 13 then "\r"
  else if n =? 34 then String backslash (String dquote "")
  else if n =? 92 then "\\"
  else if n <? 32
       then "\u00" ++ String (hex_digit (n / 16))
                        (String (hex_digit (n mod 16)) "")
  else String c "".

Fixpoint quote_body (s : string) : string :=
  match s with
  | EmptyString => ""
  | String c s' => quote_char c ++ quote_body s'
  end.

Definition QuoteJSONString (s : string) : string :=
  String dquote (quote_body s ++ String dquote "").

Fixpoint join (sep : string) (l : list string) : string :=
  match l with
  | [] => ""
  | [x] => x
  | x :: rest => x ++ sep ++ join sep rest
  end.

(** The brackets around the serialized members of an array or object. *)
Definition wrap (opening closing gap stepback indent : string)
    (partial : list string) : string :=
  match partial with
  | [] => opening ++ closing
  | _ :: _ =>
      match gap with
      | EmptyString => opening ++ join "," partial ++ closing
      | String _ _ =>
          opening ++ newline ++ indent
            ++ join ("," ++ newline ++ indent) partial
            ++ newline ++ stepback ++ closing
      end
  end.

Definition colon (gap : string) : string :=
  match gap with EmptyString => ":" | String _ _ => ": " end.

(** SerializeJSONProperty; a Number that is not finite is written [null]. *)
Fixpoint SerializeJSONProperty (gap indent : string) (v : JsVal) : string :=
  match v with
  | VNull => "null"
  | VBool true => "true"
  | VBool false => "false"
  | VNum NumNaN => "null"
  | VNum n => Number_toString n
  | VStr s => QuoteJSONString s
  | VArr elems =>
      wrap "[" "]" gap indent (indent ++ gap)
        (map (SerializeJSONProperty gap (indent ++ gap)) elems)
  | VObj props =>
      wrap "{" "}" gap indent (indent ++ gap)
        (map (fun kv =>
                let '(k, x) := kv in
                QuoteJSONString k ++ colon gap
                  ++ SerializeJSONProperty gap (indent ++ gap) x)
             props)
  end.

(** [JSON.stringify(value, null, space)] for a numeric [space];
    [JSON.stringify(value)] is [stringify value 0]. *)
Definition stringify (value : JsVal) (space : nat) : string :=
  SerializeJSONProperty (repeat_char " " (Nat.min space 10)) "" value.

(** *** Parsing *)

Definition is_ws (c : ascii) : bool :=
  let n := code c in (n =? 32) || (n =? 9) || (n =? 10) || (n =? 13).

Fixpoint all_ws (s : string) : bool :=
  match s with
  | EmptyString => true
  | String c s' => is_ws c && all_ws s'
  end.

Fixpoint skip_ws (s : string) : string :=
  match s with
  | String c s' => if is_ws c then skip_ws s' else s
  | EmptyString => ""
  end.

(** UTF-8 of a code point. *)
Definition utf8 (cp : Z) : string :=
  if cp <? 128 then bytes [cp]
  else if cp <? 2048 then bytes [192 + cp / 64; 128 + cp mod 64]
  else if cp <? 65536
       then bytes [224 + cp / 4096; 128 + (cp / 64) mod 64; 128 + cp mod 64]
  else bytes [240 + cp / 262144; 128 + (cp / 4096) mod 64;
              128 + (cp / 64) mod 64; 128 + cp mod 64].

Definition hex4 (h1 h2 h3 h4 : ascii) : option Z :=
  if is_hex_digit h1 && is_hex_digit h2 && is_hex_digit h3 && is_hex_digit h4
  then Some (4096 * hex_val h1 + 256 * hex_val h2 + 16 * hex_val h3 + hex_val h4)
  else None.

Definition simple_escape (e : ascii) : option ascii :=
  let n := code e in
  if n =? 34 then Some dquote
  else if n =? 92 then Some backslash
  else if n =? 47 then Some "/"%char
  else if n =? 98 then Some "008"%char
  else if n =? 102 then Some "012"%char
  else if n =? 110 then Some "010"%char
  else if n =? 114 then Some "013"%char
  else if n =? 116 then Some "009"%char
  else None.

(** A [\u] escape of a high surrogate waits for its low surrogate; left
    alone, a surrogate has no UTF-8 form and is held as U+FFFD. *)
Definition flush (pending : option Z) : string :=
  match pending with Some _ => utf8 65533 | None => "" end.

Definition prepend (p : string) (r : option (string * string))
  : option (string * string) :=
  match r with
  | Some (str, rest) => Some (p ++ str, rest)
  | None => None
  end.

(** The characters of a string literal after its opening quote, up to and
    including the closing quote; returns the string and the remaining text. *)
Fixpoint parse_chars (s : string) (pending : option Z)
  : option (string * string) :=
  match s with
  | EmptyString => None
  | String c r =>
      if code c =? 34 then Some (flush pending, r)
      else if code c =? 92 then
        match r with
        | String e r' =>
            if code e =? 117 then
              match r' with
              | String h1 (String h2 (String h3 (String h4 r''))) =>
                  match hex4 h1 h2 h3 h4 with
                  | Some u =>
                      if (55296 <=? u) && (u <? 56320)
                      then prepend (flush pending) (parse_chars r'' (Some u))
                      else if (56320 <=? u) && (u <? 57344)
                      then match pending with
                           | Some h =>
                               prepend
                                 (utf8 (65536 + (h - 55296) * 1024 + (u - 56320)))
                                 (parse_chars r'' None)
                           | None => prepend (utf8 65533) (parse_chars r'' None)
                           end
                      else prepend (flush pending ++ utf8 u) (parse_chars r'' None)
                  | None => None
                  end
              | _ => None
              end
            else
              match simple_escape e with
              | Some ch =>
                  prepend (flush pending ++ String ch "") (parse_chars r' None)
              | None => None
              end
        | EmptyString => None
        end
      else if code c <? 32 then None
      else prepend (flush pending ++ String c "") (parse_chars r None)
  end.

Fixpoint take_digits (s : string) : string * string :=
  match s with
  | String c r =>
      if is_digit c then let '(ds, rest) := take_digits r in (String c ds, rest)
      else ("", s)
  | EmptyString => ("", "")
  end.

(** The Number a literal denotes: [mantissa * 10^exponent], negated when
    [neg]. *)
Definition make_number (neg : bool) (mantissa exponent : Z) : JsNumber :=
  let sign := if neg then -1 else 1 in
  if mantissa =? 0 then NumInt 0
  else if 0 <=? exponent then NumInt (sign * (mantissa * 10 ^ exponent))
  else
    let '(m, e) := strip_zeros (Z.to_nat (- exponent)) mantissa exponent in
    if e =? 0 then NumInt (sign * m) else NumDec (sign * m) e.

Definition parse_fraction (s : string) : option (string * string) :=
  match s with
  | String c r =>
      if code c =? 46 then
        match take_digits r with
        | (EmptyString, _) => None
        | (ds, rest) => Some (ds, rest)
        end
      else Some ("", s)
  | EmptyString => Some ("", s)
  end.

Definition parse_exponent (s : string) : option (Z * string) :=
  match s with
  | String c r =>
      if (code c =? 101) || (code c =? 69) then
        let '(neg, r') :=
          match r with
          | String x t =>
              if code x =? 45 then (true, t)
              else if code x =? 43 then (false, t)
              else (false, r)
          | EmptyString => (false, r)
          end in
        match take_digits r' with
        | (EmptyString, _) => None
        | (ds, rest) =>
            Some ((if neg then -1 else 1) * digits_value ds 0, rest)
        end
      else Some (0, s)
  | EmptyString => Some (0, s)
  end.

(** The literal after its sign: a zero or a run of digits not starting with
    zero; an optional fraction; an optional exponent. *)
Definition parse_unsigned (neg : bool) (s : string)
  : option (JsNumber * string) :=
  match s with
  | String c r =>
      if is_digit c then
        let '(int_ds, s2) :=
          if code c =? 48 then ("0", r) else take_digits s in
        match parse_fraction s2 with
        | Some (frac_ds, s3) =>
            match parse_exponent s3 with
            | Some (e, s4) =>
                Some (make_number neg (digits_value (int_ds ++ frac_ds) 0)
                        (e - Z.of_nat (String.length frac_ds)),
                      s4)
            | None => None
            end
        | None => None
        end
      else None
  | EmptyString => None
  end.

(** A number literal, with its optional minus sign. *)
Definition parse_number (s : string) : option (JsNumber * string) :=
  match s with
  | String c r => if code c =? 45 then parse_unsigned true r
                  else parse_unsigned false s
  | EmptyString => None
  end.

(** An array index: the canonical numeral of an integer below [2^32 - 1]. *)
Definition is_array_index (k : string) : bool :=
  match k with
  | EmptyString => false
  | String c r =>
      all_digits k
      && (negb (code c =? 48) || match r with EmptyString => true | _ => false end)
      && (digits_value k 0 <=? 4294967294)
  end.

Fixpoint has_key (k : string) (props : list (string * JsVal)) : bool :=
  match props with
  | [] => false
  | (k', _) :: rest => String.eqb k k' || has_key k rest
  end.

Fixpoint replace_value (k : string) (v : JsVal) (props : list (string * JsVal))
  : list (string * JsVal) :=
  match props with
  | [] => []
  | (k', v') :: rest =>
      if String.eqb k k' then (k', v) :: rest
      else (k', v') :: replace_value k v rest
  end.

Fixpoint insert_index (k : string) (v : JsVal) (props : list (string * JsVal))
  : list (string * JsVal) :=
  match props with
  | [] => [(k, v)]
  | (k', v') :: rest =>
      if is_array_index k' && (digits_value k' 0 <? digits_value k 0)
      then (k', v') :: insert_index k v rest
      else (k, v) :: (k', v') :: rest
  end.

(** CreateDataProperty on an ordinary object: a key already there keeps its
    place and takes the new value; array indices come first, in ascending
    order; other keys follow in order of creation. *)
Definition define_property (props : list (string * JsVal)) (k : string)
    (v : JsVal) : list (string * JsVal) :=
  if has_key k props then replace_value k v props
  else if is_array_index k then insert_index k v props
  else (props ++ [(k, v)])%list.

Definition literal (word : string) (v : JsVal) (s : string)
  : option (JsVal * string) :=
  if starts_with word s then Some (v, drop (String.length word) s) else None.

(** Recursive descent; [fuel] bounds the depth of the calls. *)
Fixpoint parse_value (fuel : nat) (s : string) : option (JsVal * string) :=
  match fuel with
  | O => None
  | S f =>
      match skip_ws s with
      | EmptyString => None
      | String c r as t =>
          let n := code c in
          if n =? 110 then literal "null" VNull t
          else if n =? 116 then literal "true" (VBool true) t
          else if n =? 102 then literal "false" (VBool false) t
          else if n =? 34 then
            match parse_chars r None with
            | Some (str, rest) => Some (VStr str, rest)
            | None => None
            end
          else if n =? 91 then
            match skip_ws r with
            | String c' rest =>
                if code c' =? 93 then Some (VArr [], rest)
                else parse_elements f r []
            | EmptyString => None
            end
          else if n =? 123 then
            match skip_ws r with
            | String c' rest =>
                if code c' =? 125 then Some (VObj [], rest)
                else parse_members f r []
            | EmptyString => None
            end
          else
            match parse_number t with
            | Some (x, rest) => Some (VNum x, rest)
            | None => None
            end
      end
  end

with parse_elements (fuel : nat) (s : string) (acc : list JsVal)
  : option (JsVal * string) :=
  match fuel with
  | O => None
  | S f =>
      match parse_value f s with
      | Some (v, r) =>
          match skip_ws r with
          | String c rest =>
              if code c =? 44 then parse_elements f rest (v :: acc)
              else if code c =? 93 then Some (VArr (rev (v :: acc)), rest)
              else None
          | EmptyString => None
          end
      | None => None
      end
  end

with parse_members (fuel : nat) (s : string) (acc : list (string * JsVal))
  : option (JsVal * string) :=
  match fuel with
  | O => None
  | S f =>
      match skip_ws s with
      | String q r =>
          if code q =? 34 then
            match parse_chars r None with
            | Some (k, r1) =>
                match skip_ws r1 with
                | String c r2 =>
                    if code c =? 58 then
                      match parse_value f r2 with
                      | Some (v, r3) =>
                          match skip_ws r3 with
                          | String c' rest =>
                              if code c' =? 44
                              then parse_members f rest (define_property acc k v)
                              else if code c' =? 125
                              then Some (VObj (define_property acc k v), rest)
                              else None
                          | EmptyString => None
                          end
                      | None => None
                      end
                    else None
                | EmptyString => None
                end
            | None => None
            end
          else None
      | EmptyString => None
      end
  end.

(** [JSON.parse(text)]: one value, white space around it, nothing else.
    The wording of the SyntaxError is the engine's; one stands for all. *)
Definition parse (text : string) : Completion JsVal :=
  match parse_value (2 * String.length text + 2) text with
  | Some (v, rest) =>
      match skip_ws rest with
      | EmptyString => Normal v
      | String _ _ => Throw (SyntaxError "Unexpected token in JSON")
      end
  | None => Throw (SyntaxError "Unexpected token in JSON")
  end.

(** *** Values that [JSON.stringify] writes without loss *)

Definition safe_integerb (z : Z) : bool :=
  (- MAX_SAFE_INTEGER <=? z) && (z <=? MAX_SAFE_INTEGER).

Fixpoint keys_fresh (props : list (string * JsVal)) : bool :=
  match props with
  | [] => true
  | (k, _) :: rest =>
      negb (has_key k rest) && negb (is_array_index k) && keys_fresh rest
  end.

(** No NaN and no fraction among the numbers, integers within the safe
    range, and objects whose keys are distinct and are not array indices
    (so that the order of the properties is the order of creation). *)
Fixpoint stable (v : JsVal) : bool :=
  match v with
  | VNull | VBool _ | VStr _ => true
  | VNum (NumInt z) => safe_integerb z
  | VNum _ => false
  | VArr elems => forallb stable elems
  | VObj props =>
      keys_fresh props && forallb (fun kv => stable (snd kv)) props
  end.

(** The first character of a numeral is not zero, unless the numeral is. *)
Definition leading_nonzero (ds : string) : Prop :=
  match ds with
  | String c _ => code c <> 48
  | EmptyString => False
  end.

(** What a serialized value starts with. *)
Definition value_head (c : ascii) : Prop :=
  is_ws c = false /\ code c <> 93 /\ code c <> 125 /\ code c <> 44.

(** Text after a value that cannot be taken for more of a number. *)
Definition value_end (rest : string) : Prop :=
  match rest with
  | EmptyString => True
  | String c _ =>
      is_digit c = false /\ code c <> 46 /\ code c <> 69 /\ code c <> 101
  end.

(** One member of an object, as [SerializeJSONProperty] writes it. *)
Definition member (gap indent : string) (kv : string * JsVal) : string :=
  let '(k, x) := kv in
  QuoteJSONString k ++ colon gap ++ SerializeJSONProperty gap indent x.

(** A value that is read back from its serialization at any depth of
    indentation, whatever follows it, given enough fuel. *)
Definition reads_back (gap : string) (v : JsVal) : Prop :=
  stable v = true ->
  forall indent rest fuel,
    all_ws indent = true ->
    value_end rest ->
    (2 * String.length (SerializeJSONProperty gap indent v) <= fuel)%nat ->
    parse_value fuel (SerializeJSONProperty gap indent v ++ rest)
    = Some (v, rest).

End JSON.

(** ** [Date] *)

(** Time values are milliseconds since the epoch, and the calendar functions
    are those of ECMAScript (Day, YearFromTime, MonthFromTime, DateFromTime,
    MakeDay).  The host's offset from UTC is a constant [LocalTZA]: a change
    of offset between two dates (daylight saving) is not modelled. *)
Module Date.

Definition msPerDay : Z := 86400000.
Definition msPerHour : Z := 3600000.
Definition msPerMinute : Z := 60000.
Definition msPerSecond : Z := 1000.

Definition Day (t : Z) : Z := t / msPerDay.
Definition TimeWithinDay (t : Z) : Z := t mod msPerDay.

Definition is_leap (y : Z) : bool :=
  ((y mod 4 =? 0) && negb (y mod 100 =? 0)) || (y mod 400 =? 0).

Definition DaysInYear (y : Z) : Z := if is_leap y then 366 else 365.

Definition DayFromYear (y : Z) : Z :=
  365 * (y - 1970) + (y - 1969) / 4 - (y - 1901) / 100 + (y - 1601) / 400.

(** The year of day number [d]: the largest [y] with [DayFromYear y <= d]. *)
Definition YearFromDay (d : Z) : Z :=
  let y := 1970 + (400 * d) / 146097 in
  if d <? DayFromYear y then y - 1
  else if DayFromYear (y + 1) <=? d then y + 1
  else y.

Definition YearFromTime (t : Z) : Z := YearFromDay (Day t).
Definition InLeapYear (t : Z) : Z := if is_leap (YearFromTime t) then 1 else 0.
Definition DayWithinYear (t : Z) : Z := Day t - DayFromYear (YearFromTime t).

(** Day within the year on which month [m] (0 to 11) starts. *)
Definition month_start (leap m : Z) : Z :=
  match m with
  | 0 => 0
  | 1 => 31
  | 2 => 59 + leap
  | 3 => 90 + leap
  | 4 => 120 + leap
  | 5 => 151 + leap
  | 6 => 181 + leap
  | 7 => 212 + leap
  | 8 => 243 + leap
  | 9 => 273 + leap
  | 10 => 304 + leap
  | _ => 334 + leap
  end.

Definition MonthFromTime (t : Z) : Z :=
  let d := DayWithinYear t in
  let leap := InLeapYear t in
  if d <? 31 then 0
  else if d <? 59 + leap then 1
  else if d <? 90 + leap then 2
  else if d <? 120 + leap then 3
  else if d <? 151 + leap then 4
  else if d <? 181 + leap then 5
  else if d <? 212 + leap then 6
  else if d <? 243 + leap then 7
  else if d <? 273 + leap then 8
  else if d <? 304 + leap then 9
  else if d <? 334 + leap then 10
  else 11.

Definition DateFromTime (t : Z) : Z :=
  DayWithinYear t - month_start (InLeapYear t) (MonthFromTime t) + 1.

Definition HourFromTime (t : Z) : Z := (t / msPerHour) mod 24.
Definition MinFromTime (t : Z) : Z := (t / msPerMinute) mod 60.
Definition SecFromTime (t : Z) : Z := (t / msPerSecond) mod 60.

(** [MakeDay(year, month, date)]: the day number of the first of the month,
    moved by [date - 1] days. *)
Definition MakeDay (year month date : Z) : Z :=
  let ym := year + month / 12 in
  let mn := month mod 12 in
  DayFromYear ym + month_start (if is_leap ym then 1 else 0) mn + date - 1.

Definition MakeDate (day time : Z) : Z := day * msPerDay + time.

(** A [Date] object holds a time value; the host fixes the local offset. *)
Record t : Type := mk { LocalTZA : Z; tv : Z }.

Definition LocalTime (d : t) : Z := tv d + LocalTZA d.

Definition getFullYear (d : t) : Z := YearFromTime (LocalTime d).
Definition getMonth (d : t) : Z := MonthFromTime (LocalTime d).
Definition getDate (d : t) : Z := DateFromTime (LocalTime d).
Definition getHours (d : t) : Z := HourFromTime (LocalTime d).
Definition getMinutes (d : t) : Z := MinFromTime (LocalTime d).
Definition getSeconds (d : t) : Z := SecFromTime (LocalTime d).

(** [date.setDate(dt)]: the day of the month is replaced in local time and
    the result is converted back to a time value. *)
Definition setDate (d : t) (dt : Z) : t :=
  let lt := LocalTime d in
  let newDate :=
    MakeDate (MakeDay (YearFromTime lt) (MonthFromTime lt) dt)
             (TimeWithinDay lt) in
  mk (LocalTZA d) (newDate - LocalTZA d).

End Date.

(** [String(n)] for an integer Number. *)
Definition String_of_int (n : Z) : string := Number_toString (NumInt n).

(** ** The host *)

(** What the process reads from its surroundings. *)
Record Host : Type := mkHost {
  now : Z;            (* the time value [new Date()] returns *)
  LocalTZA : Z;       (* local time minus UTC, in milliseconds *)
  cwd : string        (* [process.cwd()] *)
}.

Definition new_Date (h : Host) : Date.t := Date.mk (LocalTZA h) (now h).

(** ** The provider's API surface *)

Module Gmail.

Record Header : Type := mkHeader { name : string; value : string }.

Record MessagePart : Type := mkPart { headers : option (list Header) }.

(** The Message resource; [users.messages.list] fills [id] and [threadId]
    only.  [None] stands for a property the response leaves out. *)
Record Message : Type := mkMessage {
  id : string;
  threadId : string;
  payload : option MessagePart;
  internalDate : option string
}.

Record ListData : Type := mkList { messages : option (list Message) }.

(** [gmail.users.messages]: each call either resolves with the [data] of
    the response or rejects. *)
Record Client : Type := mkClient {
  messages_list :
    forall (userId q : string) (maxResults : Z), Completion ListData;
  messages_get : forall (userId id format : string) (metadataHeaders : list string),
      Completion Message
}.

(** The calls, as the program makes them: the request is recorded, the
    provider answers. *)
Definition users_messages_list (gmail : Client) (userId q : string)
    (maxResults : Z) : Eff ListData :=
  emit (MessagesList userId q maxResults) ;;;
  lift (messages_list gmail userId q maxResults).

Definition users_messages_get (gmail : Client) (userId id format : string)
    (metadataHeaders : list string) : Eff Message :=
  emit (MessagesGet userId id format metadataHeaders) ;;;
  lift (messages_get gmail userId id format metadataHeaders).

End Gmail.

(** ** email-service.js *)

Module EmailService.

(** The objects [extractEmailData] builds, property by property. *)
Record EmailRecord : Type := mkEmail {
  id : string;
  error : Field string;
  subject : Field string;
  from : Field string;
  to : Field string;
  date : Field string;
  timestamp : Field JsNumber
}.

(** The properties a field contributes to the object literal. *)
Definition property {A} (key : string) (inj : A -> JsVal) (f : Field A)
  : list (string * JsVal) :=
  match f with
  | Absent => []
  | Null => [(key, VNull)]
  | Has a => [(key, inj a)]
  end.

(** The record as the object it is, its properties in the order in which
    both literals of [extractEmailData] list them. *)
Definition object_of (r : EmailRecord) : JsVal :=
  VObj ([("id", VStr (id r))]
          ++ property "error" VStr (error r)
          ++ property "subject" VStr (subject r)
          ++ property "from" VStr (from r)
          ++ property "to" VStr (to r)
          ++ property "date" VStr (date r)
          ++ property "timestamp" VNum (timestamp r))%list.

Definition formatDate (date : Date.t) : string :=
  let year := Date.getFullYear date in
  let month := padStart (String_of_int (Date.getMonth date + 1)) 2 "0" in
  let day := padStart (String_of_int (Date.getDate date)) 2 "0" in
  String_of_int year ++ "/" ++ month ++ "/" ++ day.

(** [headers.find(h => h.name === name)], then the value or [null];
    [headers.find] is a TypeError when [headers] is undefined. *)
Definition getHeaderValue (headers : option (list Gmail.Header))
    (name : string) : Eff (Field string) :=
  match headers with
  | None =>
      throw (TypeError "Cannot read properties of undefined (reading 'find')")
  | Some hs =>
      match find (fun h => String.eqb (Gmail.name h) name) hs with
      | Some header => ret (Has (Gmail.value header))
      | None => ret Null
      end
  end.

(** [const { headers } = response.data.payload]. *)
Definition destructure_headers (payload : option Gmail.MessagePart)
  : Eff (option (list Gmail.Header)) :=
  match payload with
  | None =>
      throw (TypeError
        "Cannot destructure property 'headers' of 'response.data.payload' as it is undefined.")
  | Some p => ret (Gmail.headers p)
  end.

Definition extractEmailData (gmail : Gmail.Client) (messageId : string)
  : Eff EmailRecord :=
  try_catch
    (response <- Gmail.users_messages_get gmail "me" messageId "metadata"
                   ["To"; "Date"] ;;
     headers <- destructure_headers (Gmail.payload response) ;;
     to_ <- getHeaderValue headers "To" ;;
     date_ <- getHeaderValue headers "Date" ;;
     let emailData :=
       {| id := messageId;
          error := Absent; subject := Absent; from := Absent;
          to := to_;
          date := date_;
          timestamp :=
            match Gmail.internalDate response with
            | Some s => if truthy_string s then Has (parseInt s) else Null
            | None => Null
            end |} in
     ret emailData)
    (fun error_ =>
       emit (ConsoleError
               ("Error extracting data from email " ++ messageId ++ ":")
               (Some error_)) ;;;
       ret {| id := messageId;
              error := Has (message error_);
              subject := Null;
              from := Null;
              to := Null;
              date := Null;
              timestamp := Null |}).

(** The query sent to the provider. *)
Definition query_of (formattedDate : string) : string :=
  "label:CVS subject:$4 Coupon! after:" ++ formattedDate.

Definition fetchCVSEmails (host : Host) (gmail : Gmail.Client)
  : Eff (list EmailRecord) :=
  try_catch
    (let sixDaysAgo := new_Date host in
     let sixDaysAgo := Date.setDate sixDaysAgo (Date.getDate sixDaysAgo - 6) in
     let formattedDate := formatDate sixDaysAgo in
     let query := query_of formattedDate in
     emit (ConsoleLog ("Fetching emails with query: " ++ query)) ;;;
     response <- Gmail.users_messages_list gmail "me" query 500 ;;
     let messages :=
       match Gmail.messages response with Some l => l | None => [] end in
     emit (ConsoleLog ("Found " ++ String_of_int (Z.of_nat (List.length messages))
                         ++ " emails matching the criteria")) ;;;
     if (List.length messages =? 0)%nat then ret []
     else
       let emailDataPromises :=
         map (fun message => extractEmailData gmail (Gmail.id message))
             messages in
       emit (ConsoleLog
               ("Processing all "
                  ++ String_of_int (Z.of_nat (List.length emailDataPromises))
                  ++ " emails simultaneously...")) ;;;
       emailData <- Promise_all emailDataPromises ;;
       emit (ConsoleLog
               ("Completed processing "
                  ++ String_of_int (Z.of_nat (List.length emailData))
                  ++ " emails")) ;;;
       ret emailData)
    (fun error_ =>
       emit (ConsoleError "Error fetching emails:" (Some error_)) ;;;
       throw error_).

(** The provider's answer to the list call of a run started on [host]. *)
Definition listed (host : Host) (gmail : Gmail.Client)
  : Completion Gmail.ListData :=
  let d := new_Date host in
  Gmail.messages_list gmail "me"
    (query_of (formatDate (Date.setDate d (Date.getDate d - 6)))) 500.

(** The message refs of a list response ([response.data.messages || []]). *)
Definition refs_of (data : Gmail.ListData) : list Gmail.Message :=
  match Gmail.messages data with Some l => l | None => [] end.

(** The metadata request [extractEmailData] sends for a message. *)
Definition fetched (gmail : Gmail.Client) (messageId : string)
  : Completion Gmail.Message :=
  Gmail.messages_get gmail "me" messageId "metadata" ["To"; "Date"].

(** The record the catch block of [extractEmailData] builds. *)
Definition failure_record (messageId : string) (e : JsError) : EmailRecord :=
  {| id := messageId; error := Has (message e); subject := Null; from := Null;
     to := Null; date := Null; timestamp := Null |}.

(** The record of a message: what [extractEmailData] resolves with. *)
Definition extracted (gmail : Gmail.Client) (messageId : string)
  : EmailRecord :=
  match outcome (extractEmailData gmail messageId) with
  | Normal r => r
  | Throw e => failure_record messageId e
  end.

(** A timestamp that is null or an integer a double holds exactly. *)
Definition plain_timestamp (r : EmailRecord) : bool :=
  match timestamp r with
  | Absent | Null => true
  | Has (NumInt z) => JSON.safe_integerb z
  | Has _ => false
  end.

End EmailService.

(** ** Property lookup *)

(** The names every ordinary object inherits from [Object.prototype]. *)
Definition Object_prototype : list string :=
  ["constructor"; "__defineGetter__"; "__defineSetter__"; "hasOwnProperty";
   "__lookupGetter__"; "__lookupSetter__"; "isPrototypeOf";
   "propertyIsEnumerable"; "toString"; "valueOf"; "__proto__";
   "toLocaleString"].

Definition inherited (k : string) : bool :=
  existsb (String.eqb k) Object_prototype.

(** What [object[key]] evaluates to when it is not undefined: an own
    property, or a member of [Object.prototype] (a function, or for
    [__proto__] the prototype itself; all of them truthy). *)
Inductive PropertyValue : Type :=
| Own (v : JsVal)
| Inherited (name : string).

Fixpoint own_property (k : string) (props : list (string * JsVal))
  : option JsVal :=
  match props with
  | [] => None
  | (k', v) :: rest => if String.eqb k k' then Some v else own_property k rest
  end.

(** [o[k]] for a string key; [None] is undefined.  Own properties are those
    of an object; an array, string, number or boolean in [o]'s place is
    treated as an object without own properties, which is all the model
    says about such a value. *)
Definition Get (o : JsVal) (k : string) : Completion (option PropertyValue) :=
  match o with
  | VNull =>
      Throw (TypeError ("Cannot read properties of null (reading '" ++ k ++ "')"))
  | VObj props =>
      Normal (match own_property k props with
              | Some v => Some (Own v)
              | None => if inherited k then Some (Inherited k) else None
              end)
  | _ => Normal (if inherited k then Some (Inherited k) else None)
  end.

Definition truthy_property (p : option PropertyValue) : bool :=
  match p with
  | Some (Own v) => truthy v
  | Some (Inherited _) => true
  | None => false
  end.

(** [Object.keys(o).length], under the same reading of [o]. *)
Definition Object_keys_length (o : JsVal) : Completion nat :=
  match o with
  | VNull => Throw (TypeError "Cannot convert undefined or null to object")
  | VObj props => Normal (List.length props)
  | _ => Normal 0%nat
  end.

(** ** The file system *)

(** How the disk answers each request of a run.  The files a run writes
    are not among those it reads. *)
Record FileSystem : Type := mkFS {
  mkdir_result : Path -> Completion unit;
  writeFile_result : Path -> string -> Completion unit;
  readFile_result : Path -> Completion string
}.

Module fs.

Definition mkdir (disk : FileSystem) (dir : Path) : Eff unit :=
  emit (Mkdir dir) ;;; lift (mkdir_result disk dir).

Definition writeFile (disk : FileSystem) (file : Path) (data : string)
  : Eff unit :=
  emit (WriteFile file data) ;;; lift (writeFile_result disk file data).

Definition readFile (disk : FileSystem) (file : Path) : Eff string :=
  emit (ReadFile file) ;;; lift (readFile_result disk file).

End fs.

(** [path.join] of segments that need no normalising, on a POSIX host. *)
Definition path_join (segments : list string) : Path := JSON.join "/" segments.

(** ** utils.js *)

Module Utils.

Import EmailService.

Definition formatTimestamp (date : Date.t) : string :=
  let year := Date.getFullYear date in
  let month := padStart (String_of_int (Date.getMonth date + 1)) 2 "0" in
  let day := padStart (String_of_int (Date.getDate date)) 2 "0" in
  let hours := padStart (String_of_int (Date.getHours date)) 2 "0" in
  let minutes := padStart (String_of_int (Date.getMinutes date)) 2 "0" in
  let seconds := padStart (String_of_int (Date.getSeconds date)) 2 "0" in
  String_of_int year ++ "-" ++ month ++ "-" ++ day ++ "_"
    ++ hours ++ "-" ++ minutes ++ "-" ++ seconds.

(** The default of the second parameter of [saveEmailData]. *)
Definition default_mapping_path (host : Host) : Path :=
  path_join [cwd host; "data"; "email-phone-map.json"].

(** The two warnings of the catch block around the loading of the mapping. *)
Definition warn_not_loaded (mappingFilePath : Path) (err : JsError) : Eff unit :=
  emit (ConsoleWarn ("Warning: Could not load email-to-phone mapping from "
                       ++ mappingFilePath ++ ": " ++ message err)) ;;;
  emit (ConsoleWarn "Continuing without mapping functionality").

(** [let emailToPhoneMap = {}; try { ... } catch (err) { ... }]: the value
    of [emailToPhoneMap] after the statement.  The variable is assigned as
    soon as [JSON.parse] returns, before [Object.keys] is evaluated, so an
    exception from [Object.keys] leaves the parsed value in it. *)
Definition load_mapping (disk : FileSystem) (mappingFilePath : Path)
  : Eff JsVal :=
  loaded <-
    try_catch
      (mappingData <- fs.readFile disk mappingFilePath ;;
       parsed <- lift (JSON.parse mappingData) ;;
       ret (Some parsed))
      (fun err => warn_not_loaded mappingFilePath err ;;; ret None) ;;
  match loaded with
  | None => ret (VObj [])
  | Some parsed =>
      try_catch
        (count <- lift (Object_keys_length parsed) ;;
         emit (ConsoleLog ("Loaded " ++ String_of_int (Z.of_nat count)
                             ++ " email-to-phone mappings")) ;;;
         ret parsed)
        (fun err => warn_not_loaded mappingFilePath err ;;; ret parsed)
  end.

(** [for (const email of emails) { ... phoneNumbers.push(...) }]. *)
Fixpoint collect_phone_numbers (emailToPhoneMap : JsVal)
    (emails : list EmailRecord) (phoneNumbers : list PropertyValue)
  : Eff (list PropertyValue) :=
  match emails with
  | [] => ret phoneNumbers
  | email :: rest =>
      let toAddress := to email in
      match toAddress with
      | Has address =>
          if truthy_string address then
            found <- lift (Get emailToPhoneMap address) ;;
            match found with
            | Some phone =>
                if truthy_property found
                then collect_phone_numbers emailToPhoneMap rest
                       (phoneNumbers ++ [phone])%list
                else collect_phone_numbers emailToPhoneMap rest phoneNumbers
            | None => collect_phone_numbers emailToPhoneMap rest phoneNumbers
            end
          else collect_phone_numbers emailToPhoneMap rest phoneNumbers
      | Null | Absent => collect_phone_numbers emailToPhoneMap rest phoneNumbers
      end
  end.

(** The second argument of a call, or the default when it is left out. *)
Definition mapping_path (host : Host) (mappingFilePath : option Path) : Path :=
  match mappingFilePath with
  | Some p => p
  | None => default_mapping_path host
  end.

Definition saveEmailData (host : Host) (disk : FileSystem)
    (emails : list EmailRecord) (mappingFilePath : option Path)
  : Eff (list PropertyValue) :=
  let mappingFilePath := mapping_path host mappingFilePath in
  try_catch
    (let outputDir := path_join [cwd host; "output"] in
     try_catch (fs.mkdir disk outputDir) (fun err => ret tt) ;;;
     let timestamp := formatTimestamp (new_Date host) in
     let filename := "emails_" ++ timestamp ++ ".json" in
     let filePath := path_join [outputDir; filename] in
     fs.writeFile disk filePath
       (JSON.stringify (VArr (map object_of emails)) 2) ;;;
     emit (ConsoleLog ("Saved " ++ String_of_int (Z.of_nat (List.length emails))
                         ++ " emails to " ++ filePath)) ;;;
     emailToPhoneMap <- load_mapping disk mappingFilePath ;;
     phoneNumbers <- collect_phone_numbers emailToPhoneMap emails [] ;;
     emit (ConsoleLog ("Found "
                         ++ String_of_int (Z.of_nat (List.length phoneNumbers))
                         ++ " matching phone numbers")) ;;;
     ret phoneNumbers)
    (fun error_ =>
       emit (ConsoleError "Error saving email data:" (Some error_)) ;;;
       throw error_).

Definition printEmailSummary (emails : list EmailRecord) : Eff unit :=
  emit (ConsoleLog (JSON.newline ++ "===== Email Summary =====")) ;;;
  emit (ConsoleLog ("Total emails: "
                      ++ String_of_int (Z.of_nat (List.length emails)))).

(** *** Reading the output file back *)

Definition as_string (v : JsVal) : option string :=
  match v with VStr s => Some s | _ => None end.

Definition as_number (v : JsVal) : option JsNumber :=
  match v with VNum n => Some n | _ => None end.

Definition field_of {A} (proj : JsVal -> option A) (key : string)
    (props : list (string * JsVal)) : option (Field A) :=
  match own_property key props with
  | None => Some Absent
  | Some VNull => Some Null
  | Some v => option_map Has (proj v)
  end.

Definition and_then {A B} (o : option A) (k : A -> option B) : option B :=
  match o with Some a => k a | None => None end.

(** The record a parsed object stands for, field for field. *)
Definition record_of_object (o : JsVal) : option EmailRecord :=
  match o with
  | VObj props =>
      and_then (and_then (own_property "id" props) as_string) (fun id_ =>
      and_then (field_of as_string "error" props) (fun error_ =>
      and_then (field_of as_string "subject" props) (fun subject_ =>
      and_then (field_of as_string "from" props) (fun from_ =>
      and_then (field_of as_string "to" props) (fun to_ =>
      and_then (field_of as_string "date" props) (fun date_ =>
      and_then (field_of as_number "timestamp" props) (fun timestamp_ =>
      Some (mkEmail id_ error_ subject_ from_ to_ date_ timestamp_))))))))
  | _ => None
  end.

(** The records of a parsed output file. *)
Fixpoint records_of (parsed : list JsVal) : option (list EmailRecord) :=
  match parsed with
  | [] => Some []
  | o :: rest =>
      and_then (record_of_object o) (fun r =>
      and_then (records_of rest) (fun rs => Some (r :: rs)))
  end.

Definition records_of_json (v : JsVal) : option (list EmailRecord) :=
  match v with
  | VArr parsed => records_of parsed
  | _ => None
  end.

(** *** The cross-reference, in the words of the specification *)

(** The mapped value of every record whose recipient address is a key of
    the mapping, in record order; an address or a mapped value that is
    falsy (the empty string, for strings) contributes nothing. *)
Definition mapped_phone_numbers (mapping : list (string * JsVal))
    (emails : list EmailRecord) : list JsVal :=
  flat_map
    (fun email =>
       match to email with
       | Has address =>
           match own_property address mapping with
           | Some phone =>
               if truthy_string address && truthy phone then [phone] else []
           | None => []
           end
       | Null | Absent => []
       end)
    emails.

(** A recipient address that is not a key of the mapping but names a
    member of [Object.prototype]. *)
Definition names_inherited (mapping : list (string * JsVal))
    (email : EmailRecord) : bool :=
  match to email with
  | Has address =>
      inherited address
      && match own_property address mapping with
         | Some _ => false
         | None => true
         end
  | Null | Absent => false
  end.

End Utils.

(** ** auth.js *)

(** What the two variants of the module share: the OAuth2 client, the
    provider's token endpoint and the location of the token file. *)
Module OAuth2.

(** A value of the parsed query string: a string, or the list of the
    values of a repeated parameter. *)
Inductive QueryValue : Type :=
| QString (s : string)
| QList (l : list string).

Definition truthy_query (v : option QueryValue) : bool :=
  match v with
  | Some (QString s) => truthy_string s
  | Some (QList _) => true
  | None => false
  end.

Record Client : Type := mkClient {
  client_id : option string;
  client_secret : option string;
  redirect_uri : option string
}.

(** The handle [gmail({ version, auth })] returns. *)
Record GmailApi : Type := mkApi { version : string; auth : Client }.

(** The provider, as the client library sees it. *)
Record Provider : Type := mkProvider {
  generateAuthUrl :
    forall (client : Client) (access_type : string) (scope : list string),
      string;
  getToken : Client -> QueryValue -> Completion JsVal
}.

Definition SCOPES : list string :=
  ["https://www.googleapis.com/auth/gmail.readonly"].

Definition TOKEN_PATH (host : Host) : Path := path_join [cwd host; "token.json"].

End OAuth2.

(** The variant that asks the operator to paste the code. *)
Module AuthManual.

Import OAuth2.

Record Environment : Type := mkEnv {
  CLIENT_ID : option string;
  CLIENT_SECRET : option string;
  REDIRECT_URI : option string;
  provider : Provider;
  answer : string          (* what the operator types at the prompt *)
}.

Definition getNewToken (host : Host) (env : Environment) (disk : FileSystem)
    (oAuth2Client : Client) : Eff unit :=
  let authUrl := generateAuthUrl (provider env) oAuth2Client "offline" SCOPES in
  emit (ConsoleLog ("Authorize this app by visiting this URL: " ++ authUrl)) ;;;
  emit (ConsoleLog
          "After authorization, copy the code from the redirect URL and enter it below:") ;;;
  emit (Question "Enter the code: ") ;;;
  let code_ := answer env in
  tokens <- lift (getToken (provider env) oAuth2Client (QString code_)) ;;
  emit (SetCredentials tokens) ;;;
  fs.writeFile disk (TOKEN_PATH host) (JSON.stringify tokens 0) ;;;
  emit (ConsoleLog ("Token stored to: " ++ TOKEN_PATH host)).

Definition getAuthenticatedGmail (host : Host) (env : Environment)
    (disk : FileSystem) : Eff GmailApi :=
  try_catch
    (let oAuth2Client :=
       mkClient (CLIENT_ID env) (CLIENT_SECRET env) (REDIRECT_URI env) in
     try_catch
       (token <- fs.readFile disk (TOKEN_PATH host) ;;
        credentials <- lift (JSON.parse token) ;;
        emit (SetCredentials credentials))
       (fun err => getNewToken host env disk oAuth2Client) ;;;
     ret (mkApi "v1" oAuth2Client))
    (fun error_ =>
       emit (ConsoleError "Error during authentication:" (Some error_)) ;;;
       throw error_).

End AuthManual.

(** The variant that captures the code with a local callback server. *)
Module AuthLocal.

Import OAuth2.

Definition PORT : Z := 3000.

(** A redirect request, as the handler sees it: what
    [url.parse(req.url, true).query] evaluates to. *)
Record Request : Type := mkRequest {
  url : string;
  query : Completion (list (string * QueryValue))
}.

(** What follows [server.listen]: the port cannot be bound, or the server
    listens and the browser's redirect arrives.  The run is followed up
    to the first request. *)
Inductive Arrival : Type :=
| BindError (e : JsError)
| Redirect (req : Request).

Record Environment : Type := mkEnv {
  CLIENT_ID : option string;
  CLIENT_SECRET : option string;
  provider : Provider;
  open_browser : Completion unit;
  arrival : Arrival
}.

Definition success_page : string :=
"
              <html>
                <body>
                  <h1>Authentication Successful</h1>
                  <p>You can close this window and return to the application.</p>
                </body>
              </html>
            ".

Definition failure_page : string :=
"
              <html>
                <body>
                  <h1>Authentication Failed</h1>
                  <p>No authorization code was received. Please try again.</p>
                </body>
              </html>
            ".

Fixpoint lookup (k : string) (q : list (string * QueryValue))
  : option QueryValue :=
  match q with
  | [] => None
  | (k', v) :: rest => if String.eqb k k' then Some v else lookup k rest
  end.

(** [resolve(x)] and [reject(e)] on the pending promise: the call is
    recorded, and the settlement is what the handler hands back. *)
Definition resolve (tokens : JsVal) : Eff (Completion JsVal) :=
  emit (Resolve tokens) ;;; ret (Normal tokens).

Definition reject (e : JsError) : Eff (Completion JsVal) :=
  emit (Reject e) ;;; ret (Throw e).

(** The request listener given to [http.createServer]. *)
Definition handler (host : Host) (env : Environment) (disk : FileSystem)
    (oAuth2Client : Client) (req : Request) : Eff (Completion JsVal) :=
  try_catch
    (queryParams <- lift (query req) ;;
     let no_code :=
       emit (WriteHead 400) ;;;
       emit (ResEnd failure_page) ;;;
       emit ServerClose ;;;
       reject (Error "No authorization code received") in
     match lookup "code" queryParams with
     | Some code_ =>
         if truthy_query (Some code_) then
           emit (WriteHead 200) ;;;
           emit (ResEnd success_page) ;;;
           emit ServerClose ;;;
           try_catch
             (tokens <- lift (getToken (provider env) oAuth2Client code_) ;;
              fs.writeFile disk (TOKEN_PATH host) (JSON.stringify tokens 0) ;;;
              emit (ConsoleLog ("Token stored to: " ++ TOKEN_PATH host)) ;;;
              resolve tokens)
             (fun error_ =>
                emit (ConsoleError "Error retrieving access token:"
                        (Some error_)) ;;;
                reject error_)
         else no_code
     | None => no_code
     end)
    (fun error_ =>
       emit (ConsoleError "Error handling redirect:" (Some error_)) ;;;
       emit (WriteHead 500) ;;;
       emit (ResEnd "Internal Server Error") ;;;
       emit ServerClose ;;;
       reject error_).

Definition getNewToken (host : Host) (env : Environment) (disk : FileSystem)
    (oAuth2Client : Client) : Eff JsVal :=
  let authUrl := generateAuthUrl (provider env) oAuth2Client "offline" SCOPES in
  emit (ServerListen PORT) ;;;
  settlement <-
    match arrival env with
    | BindError e =>
        emit (ConsoleError ("Server error: " ++ message e) None) ;;;
        reject e
    | Redirect req =>
        emit (ConsoleLog ("Listening for OAuth2 callback on port "
                            ++ String_of_int PORT)) ;;;
        emit (ConsoleLog ("Opening browser for authentication: " ++ authUrl)) ;;;
        try_catch
          (emit (OpenBrowser authUrl) ;;; lift (open_browser env))
          (fun err =>
             emit (ConsoleLog
                     ("Unable to open browser automatically. Please open this URL manually:"
                        ++ JSON.newline ++ authUrl))) ;;;
        handler host env disk oAuth2Client req
    end ;;
  lift settlement.

Definition getAuthenticatedGmail (host : Host) (env : Environment)
    (disk : FileSystem) : Eff GmailApi :=
  try_catch
    (let oAuth2Client :=
       mkClient (CLIENT_ID env) (CLIENT_SECRET env)
         (Some ("http://localhost:" ++ String_of_int PORT ++ "/oauth2callback")) in
     try_catch
       (token <- fs.readFile disk (TOKEN_PATH host) ;;
        credentials <- lift (JSON.parse token) ;;
        emit (SetCredentials credentials))
       (fun err =>
          token <- getNewToken host env disk oAuth2Client ;;
          emit (SetCredentials token)) ;;;
     ret (mkApi "v1" oAuth2Client))
    (fun error_ =>
       emit (ConsoleError "Error during authentication:" (Some error_)) ;;;
       throw error_).

(** How many times the listener is stopped in a trace. *)
Definition closes (t : list Event) : nat :=
  List.length
    (filter (fun ev => match ev with ServerClose => true | _ => false end) t).

End AuthLocal.

(** ** utils.js, the earlier revision *)

(** The module as it stood before the phone-number mapping was added:
    [saveEmailData] returns the path of the file, and [printEmailSummary]
    lists the records. *)
Module UtilsV1.

Import EmailService.

Definition formatTimestamp (date : Date.t) : string :=
  let year := Date.getFullYear date in
  let month := padStart (String_of_int (Date.getMonth date + 1)) 2 "0" in
  let day := padStart (String_of_int (Date.getDate date)) 2 "0" in
  let hours := padStart (String_of_int (Date.getHours date)) 2 "0" in
  let minutes := padStart (String_of_int (Date.getMinutes date)) 2 "0" in
  let seconds := padStart (String_of_int (Date.getSeconds date)) 2 "0" in
  String_of_int year ++ "-" ++ month ++ "-" ++ day ++ "_"
    ++ hours ++ "-" ++ minutes ++ "-" ++ seconds.

Definition saveEmailData (host : Host) (disk : FileSystem)
    (emails : list EmailRecord) : Eff Path :=
  try_catch
    (let outputDir := path_join [cwd host; "output"] in
     try_catch (fs.mkdir disk outputDir) (fun err => ret tt) ;;;
     let timestamp := formatTimestamp (new_Date host) in
     let filename := "emails_" ++ timestamp ++ ".json" in
     let filePath := path_join [outputDir; filename] in
     fs.writeFile disk filePath
       (JSON.stringify (VArr (map object_of emails)) 2) ;;;
     emit (ConsoleLog ("Saved " ++ String_of_int (Z.of_nat (List.length emails))
                         ++ " emails to " ++ filePath)) ;;;
     ret filePath)
    (fun error_ =>
       emit (ConsoleError "Error saving email data:" (Some error_)) ;;;
       throw error_).

(** [field || 'N/A'] inside a template literal. *)
Definition or_NA (field : Field string) : string :=
  match field with
  | Has s => if truthy_string s then s else "N/A"
  | Null | Absent => "N/A"
  end.

(** [emails.forEach((email, index) => ...)], from [index] on. *)
Fixpoint forEach (callback : EmailRecord -> nat -> Eff unit)
    (emails : list EmailRecord) (index : nat) : Eff unit :=
  match emails with
  | [] => ret tt
  | email :: rest => callback email index ;;; forEach callback rest (S index)
  end.

Definition printEmailSummary (emails : list EmailRecord) : Eff unit :=
  emit (ConsoleLog (JSON.newline ++ "===== Email Summary =====")) ;;;
  emit (ConsoleLog ("Total emails: "
                      ++ String_of_int (Z.of_nat (List.length emails)))) ;;;
  if (List.length emails =? 0)%nat then ret tt
  else
    forEach
      (fun email index =>
         emit (ConsoleLog (JSON.newline ++ "--- Email "
                             ++ String_of_int (Z.of_nat index + 1) ++ " ---")) ;;;
         emit (ConsoleLog ("Subject: " ++ or_NA (subject email))) ;;;
         emit (ConsoleLog ("From: " ++ or_NA (from email))) ;;;
         emit (ConsoleLog ("To: " ++ or_NA (to email))) ;;;
         emit (ConsoleLog ("Date: " ++ or_NA (date email))))
      emails 0.

End UtilsV1.

(** ** index.js *)

Module Index.

Import EmailService.

(** How the process ends: [main] runs to its end, or calls
    [process.exit(code)]. *)
Inductive Exit : Type :=
| Completed
| ProcessExit (code : Z).

(** [main], given what [require('./auth')] exports, run in its
    surroundings, and the provider's answers to the calls made through the
    handle that export returns. *)
Definition main (host : Host) (disk : FileSystem)
    (getAuthenticatedGmail : Eff OAuth2.GmailApi)
    (service : OAuth2.GmailApi -> Gmail.Client) : Eff Exit :=
  try_catch
    (emit (ConsoleLog "Starting Gmail processing...") ;;;
     emit (ConsoleLog "Authenticating with Gmail API...") ;;;
     gmail <- getAuthenticatedGmail ;;
     emit (ConsoleLog "Fetching emails with CVS label from the last 6 days...") ;;;
     emails <- fetchCVSEmails host (service gmail) ;;
     (if (0 <? List.length emails)%nat then
        Utils.saveEmailData host disk emails None ;;;
        Utils.printEmailSummary emails
      else emit (ConsoleLog "No emails found matching the criteria.")) ;;;
     emit (ConsoleLog
             (JSON.newline ++ "Gmail processing completed successfully.")) ;;;
     ret Completed)
    (fun error_ =>
       emit (ConsoleError "Error in main process:" (Some error_)) ;;;
       ret (ProcessExit 1)).

End Index.

(** ** Reading a trace *)

Module Observe.

Definition is_list (ev : Event) : bool :=
  match ev with MessagesList _ _ _ => true | _ => false end.

Definition is_get (ev : Event) : bool :=
  match ev with MessagesGet _ _ _ _ => true | _ => false end.

Definition is_request (ev : Event) : bool := is_list ev || is_get ev.

(** An event that changes the disk. *)
Definition is_disk_write (ev : Event) : bool :=
  match ev with Mkdir _ | WriteFile _ _ => true | _ => false end.

Definition is_log (ev : Event) : bool :=
  match ev with ConsoleLog _ => true | _ => false end.

(** [Object.keys(o)] of an object. *)
Definition keys (o : JsVal) : list string :=
  match o with VObj props => map fst props | _ => [] end.

End Observe.

(** ** The calendar, in the words of the specification *)

(** A calendar date, the days of the Gregorian months, the day before a
    date, and the [YYYY/MM/DD] rendering: the terms in which the query's
    lower bound is specified.  Nothing here goes through time values. *)
Module Calendar.

Record date : Type := mk { year : Z; month : Z; day : Z }.

Definition leap_year (y : Z) : bool :=
  if y mod 400 =? 0 then true
  else if y mod 100 =? 0 then false
  else y mod 4 =? 0.

Definition days_in_month (y m : Z) : Z :=
  match m with
  | 2 => if leap_year y then 29 else 28
  | 4 | 6 | 9 | 11 => 30
  | _ => 31
  end.

Definition previous_day (c : date) : date :=
  if 1 <? day c then mk (year c) (month c) (day c - 1)
  else if 1 <? month c
       then mk (year c) (month c - 1) (days_in_month (year c) (month c - 1))
       else mk (year c - 1) 12 31.

Fixpoint days_before (n : nat) (c : date) : date :=
  match n with
  | O => c
  | S k => previous_day (days_before k c)
  end.

Definition two_digits (n : Z) : string :=
  String (digit_char (n / 10)) (String (digit_char (n mod 10)) "").

Definition YYYY_MM_DD (c : date) : string :=
  String_of_int (year c) ++ "/" ++ two_digits (month c) ++ "/"
    ++ two_digits (day c).

(** The calendar date of a time value, as the [Date] getters report it. *)
Definition of_time (t : Z) : date :=
  mk (Date.YearFromTime t) (Date.MonthFromTime t + 1) (Date.DateFromTime t).

(** The calendar date a host's clock shows, in local time and in UTC. *)
Definition local_date (h : Host) : date := of_time (now h + LocalTZA h).
Definition utc_date (h : Host) : date := of_time (now h).

End Calendar.

(** ** Sample runs *)

Module Samples.

(** Noon of 10 March 2024 in a zone five hours behind UTC. *)
Definition host : Host := mkHost 1710090000000 (-18000000) "/home/app".

Definition refs : list Gmail.Message :=
  [Gmail.mkMessage "m1" "t1" None None;
   Gmail.mkMessage "m2" "t2" None None;
   Gmail.mkMessage "m3" "t3" None None].

(** A provider that lists three messages; the fetch of [m2] is rejected,
    [m1] comes back whole and [m3] with a timestamp that is not a number. *)
Definition gmail : Gmail.Client :=
  Gmail.mkClient
    (fun _ _ _ => Normal (Gmail.mkList (Some refs)))
    (fun _ id _ _ =>
       if String.eqb id "m1" then
         Normal (Gmail.mkMessage "m1" "t1"
                   (Some (Gmail.mkPart
                            (Some [Gmail.mkHeader "Date" "Sat, 9 Mar 2024 10:00:00 -0500";
                                   Gmail.mkHeader "To" "a@x.com"])))
                   (Some "1709996400000"))
       else if String.eqb id "m2" then Throw (Error "Requested entity was not found.")
       else
         Normal (Gmail.mkMessage id "t3"
                   (Some (Gmail.mkPart (Some [Gmail.mkHeader "To" "b@x.com"])))
                   (Some "abc"))).

(** The same provider with the fetch of [m2] repaired. *)
Definition gmail_repaired : Gmail.Client :=
  Gmail.mkClient
    (Gmail.messages_list gmail)
    (fun u id f hs =>
       if String.eqb id "m2" then
         Normal (Gmail.mkMessage "m2" "t2" (Some (Gmail.mkPart (Some []))) None)
       else Gmail.messages_get gmail u id f hs).

(** Records as [extractEmailData] builds them. *)
Definition received (id_ to_ : string) : EmailService.EmailRecord :=
  EmailService.mkEmail id_ Absent Absent Absent (Has to_) Null Null.

Definition two_records : list EmailService.EmailRecord :=
  [received "m1" "a@x.com"; received "m2" "b@x.com"].

(** The record of a message whose timestamp does not parse, and the same
    record with a null timestamp. *)
Definition record_NaN : EmailService.EmailRecord :=
  EmailService.mkEmail "m3" Absent Absent Absent (Has "b@x.com") Null
    (Has NumNaN).

Definition record_null : EmailService.EmailRecord :=
  EmailService.mkEmail "m3" Absent Absent Absent (Has "b@x.com") Null Null.

(** A record with an integer timestamp and the record of a failed fetch. *)
Definition plain_records : list EmailService.EmailRecord :=
  [EmailService.mkEmail "m1" Absent Absent Absent (Has "a@x.com")
     (Has "Sat, 9 Mar 2024 10:00:00 -0500") (Has (NumInt 1709996400000));
   EmailService.failure_record "m2" (Error "Requested entity was not found.")].

(** A record addressed to the name of a member of [Object.prototype]. *)
Definition to_constructor : list EmailService.EmailRecord :=
  [received "m1" "constructor"].

(** A disk on which every directory can be made and every file written,
    and whose mapping file holds the given text, or is missing. *)
Definition disk_holding (mapping : string) : FileSystem :=
  mkFS (fun _ => Normal tt) (fun _ _ => Normal tt) (fun _ => Normal mapping).

Definition disk_without_mapping : FileSystem :=
  mkFS (fun _ => Normal tt) (fun _ _ => Normal tt)
       (fun p => Throw (Error ("ENOENT: no such file or directory, open '"
                                 ++ p ++ "'"))).

Definition one_phone : string :=
  JSON.stringify (VObj [("a@x.com", VStr "555-0100")]) 2.

Definition blank_phone : string :=
  JSON.stringify (VObj [("a@x.com", VStr "")]) 2.

(** An OAuth2 provider that exchanges the code [ABC] for tokens. *)
Definition tokens : JsVal :=
  VObj [("access_token", VStr "ya29.a0"); ("refresh_token", VStr "1//0g");
        ("scope", VStr "https://www.googleapis.com/auth/gmail.readonly");
        ("token_type", VStr "Bearer"); ("expiry_date", VNum (NumInt 1710093600000))].

Definition provider : OAuth2.Provider :=
  OAuth2.mkProvider
    (fun _ _ _ => "https://accounts.google.com/o/oauth2/v2/auth?access_type=offline")
    (fun _ code_ =>
       match code_ with
       | OAuth2.QString "ABC" => Normal tokens
       | _ => Throw (Error "invalid_grant")
       end).

Definition request_with_code : AuthLocal.Request :=
  AuthLocal.mkRequest "/oauth2callback?code=ABC"
    (Normal [("code", OAuth2.QString "ABC")]).

Definition request_without_code : AuthLocal.Request :=
  AuthLocal.mkRequest "/oauth2callback?error=access_denied"
    (Normal [("error", OAuth2.QString "access_denied")]).

Definition local_env (req : AuthLocal.Request) : AuthLocal.Environment :=
  AuthLocal.mkEnv (Some "client-id") (Some "client-secret") provider
    (Normal tt) (AuthLocal.Redirect req).

Definition manual_env : AuthManual.Environment :=
  AuthManual.mkEnv (Some "client-id") (Some "client-secret")
    (Some "urn:ietf:wg:oauth:2.0:oob") provider "ABC".

Definition client : OAuth2.Client :=
  OAuth2.mkClient (Some "client-id") (Some "client-secret")
    (Some "http://localhost:3000/oauth2callback").

(** Disks whose token file is cut short, and is missing. *)
Definition disk_with_broken_token : FileSystem :=
  mkFS (fun _ => Normal tt) (fun _ _ => Normal tt)
       (fun _ => Normal "{ access_token: ").

Definition disk_without_token : FileSystem := disk_without_mapping.

(** A provider with nothing to list: the response has no [messages]. *)
Definition gmail_empty : Gmail.Client :=
  Gmail.mkClient
    (fun _ _ _ => Normal (Gmail.mkList None))
    (fun _ _ _ _ => Throw (Error "Requested entity was not found.")).

End Samples.

(** ** The names [saveEmailData] computes *)

Module Output.

Definition outputDir (host : Host) : Path := path_join [cwd host; "output"].

Definition filePath (host : Host) : Path :=
  path_join [outputDir host;
             "emails_" ++ Utils.formatTimestamp (new_Date host) ++ ".json"].

(** [JSON.stringify(emails, null, 2)]. *)
Definition text (emails : list EmailService.EmailRecord) : string :=
  JSON.stringify (VArr (map EmailService.object_of emails)) 2.

(** A record whose [to] is truthy. *)
Definition addressed (email : EmailService.EmailRecord) : bool :=
  match EmailService.to email with
  | Has address => truthy_string address
  | Null | Absent => false
  end.

Definition is_warning (ev : Event) : bool :=
  match ev with ConsoleWarn _ => true | _ => false end.

(** A run of decimal digits of a given length. *)
Definition digits_of_length (n : nat) (s : string) : Prop :=
  String.length s = n /\ all_digits s = true.

(** The block the earlier [printEmailSummary] prints for a record. *)
Definition summary_block (index : nat) (email : EmailService.EmailRecord)
  : list Event :=
  [ConsoleLog (JSON.newline ++ "--- Email "
                 ++ String_of_int (Z.of_nat index + 1) ++ " ---");
   ConsoleLog ("Subject: " ++ UtilsV1.or_NA (EmailService.subject email));
   ConsoleLog ("From: " ++ UtilsV1.or_NA (EmailService.from email));
   ConsoleLog ("To: " ++ UtilsV1.or_NA (EmailService.to email));
   ConsoleLog ("Date: " ++ UtilsV1.or_NA (EmailService.date email))].

(** The segments of a path, between its separators. *)
Fixpoint segments (path current : string) : list string :=
  match path with
  | EmptyString => [current]
  | String c rest =>
      if code c =? 47 then current :: segments rest ""
      else segments rest (current ++ String c "")
  end.

Definition plain_segment (segment : string) : bool :=
  negb (String.eqb segment "") && negb (String.eqb segment ".")
  && negb (String.eqb segment "..").

(** A working directory as [process.cwd()] reports it on a POSIX host, the
    root directory apart: an absolute path that does not end in a separator
    and has no empty, [.] or [..] segment.  To such a directory [path.join]
    adds a separator and the names joined to it, and has nothing to
    normalise, which is what [path_join] does for every path. *)
Definition plain_directory (path : Path) : bool :=
  match segments path "" with
  | first :: ((_ :: _) as rest) =>
      String.eqb first "" && forallb plain_segment rest
  | _ => false
  end.

End Output.

(** ** What the variants of auth.js have in common *)

Module AuthRuns.

Import OAuth2.

(** The client each variant builds. *)
Definition manual_client (env : AuthManual.Environment) : Client :=
  mkClient (AuthManual.CLIENT_ID env) (AuthManual.CLIENT_SECRET env)
    (AuthManual.REDIRECT_URI env).

Definition local_client (env : AuthLocal.Environment) : Client :=
  mkClient (AuthLocal.CLIENT_ID env) (AuthLocal.CLIENT_SECRET env)
    (Some "http://localhost:3000/oauth2callback").

(** The token file cannot be read, or does not parse. *)
Definition no_cached_token (host : Host) (disk : FileSystem) : bool :=
  match readFile_result disk (TOKEN_PATH host) with
  | Throw _ => true
  | Normal text =>
      match JSON.parse text with Throw _ => true | Normal _ => false end
  end.

(** The surroundings of the local variant, with the browser opening or
    failing to open. *)
Definition with_browser (env : AuthLocal.Environment)
    (opened : Completion unit) : AuthLocal.Environment :=
  AuthLocal.mkEnv (AuthLocal.CLIENT_ID env) (AuthLocal.CLIENT_SECRET env)
    (AuthLocal.provider env) opened (AuthLocal.arrival env).

End AuthRuns.

(** ** More sample runs *)

Module Scenarios.

(** A provider whose list call is rejected. *)
Definition gmail_offline : Gmail.Client :=
  Gmail.mkClient
    (fun _ _ _ => Throw (Error "getaddrinfo ENOTFOUND gmail.googleapis.com"))
    (fun _ _ _ _ => Throw (Error "getaddrinfo ENOTFOUND gmail.googleapis.com")).

(** A provider whose messages come back without a payload. *)
Definition gmail_bare : Gmail.Client :=
  Gmail.mkClient
    (fun _ _ _ => Normal (Gmail.mkList (Some Samples.refs)))
    (fun _ id _ _ =>
       Normal (Gmail.mkMessage id "t1" None (Some "1709996400000"))).

(** A message with two [To] headers after its [Date] header. *)
Definition gmail_two_recipients : Gmail.Client :=
  Gmail.mkClient
    (fun _ _ _ => Normal (Gmail.mkList (Some Samples.refs)))
    (fun _ id _ _ =>
       Normal (Gmail.mkMessage id "t1"
                 (Some (Gmail.mkPart
                          (Some [Gmail.mkHeader "Date" "Sat, 9 Mar 2024 10:00:00 -0500";
                                 Gmail.mkHeader "To" "a@x.com";
                                 Gmail.mkHeader "To" "b@x.com"])))
                 None)).

(** A disk on which the output directory cannot be made; files can be
    written, and there is no mapping file. *)
Definition disk_mkdir_denied : FileSystem :=
  mkFS (fun _ => Throw (Error "EACCES: permission denied, mkdir"))
       (fun _ _ => Normal tt)
       (readFile_result Samples.disk_without_mapping).

(** A disk that is full. *)
Definition disk_full : FileSystem :=
  mkFS (fun _ => Normal tt)
       (fun _ _ => Throw (Error "ENOSPC: no space left on device, write"))
       (readFile_result Samples.disk_without_mapping).

(** A mapping file that holds [null], and one that is cut short. *)
Definition disk_null_mapping : FileSystem := Samples.disk_holding "null".

Definition disk_broken_mapping : FileSystem :=
  Samples.disk_holding "{ a@x.com: ".

(** A disk that holds the token file the authorization flow stores. *)
Definition disk_with_token : FileSystem :=
  mkFS (fun _ => Normal tt) (fun _ _ => Normal tt)
       (fun _ => Normal (JSON.stringify Samples.tokens 0)).

(** A disk without a token file, on which nothing can be written. *)
Definition disk_read_only : FileSystem :=
  mkFS (fun _ => Normal tt)
       (fun _ _ => Throw (Error "EROFS: read-only file system, open"))
       (readFile_result Samples.disk_without_mapping).

(** The operator pastes a code the provider does not accept. *)
Definition manual_env_wrong_code : AuthManual.Environment :=
  AuthManual.mkEnv (Some "client-id") (Some "client-secret")
    (Some "urn:ietf:wg:oauth:2.0:oob") Samples.provider "XYZ".

(** Redirects with a code the provider rejects, and with an empty code. *)
Definition request_with_wrong_code : AuthLocal.Request :=
  AuthLocal.mkRequest "/oauth2callback?code=XYZ"
    (Normal [("code", OAuth2.QString "XYZ")]).

Definition request_with_empty_code : AuthLocal.Request :=
  AuthLocal.mkRequest "/oauth2callback?code="
    (Normal [("code", OAuth2.QString "")]).

(** The browser cannot be started. *)
Definition no_browser : Completion unit := Throw (Error "spawn xdg-open ENOENT").

(** One second after [Samples.host], and half a second after. *)
Definition host_next_second : Host :=
  mkHost 1710090001000 (-18000000) "/home/app".

Definition host_same_second : Host :=
  mkHost 1710090000500 (-18000000) "/home/app".

(** Port 3000 is taken. *)
Definition local_env_port_taken : AuthLocal.Environment :=
  AuthLocal.mkEnv (Some "client-id") (Some "client-secret") Samples.provider
    (Normal tt)
    (AuthLocal.BindError (Error "listen EADDRINUSE: address already in use :::3000")).

End Scenarios.

(* ===================================================================== *)
(** * Part II: theorems                                                   *)
(* ===================================================================== *)

Example decimal_1700 : decimal 1700000000000 = "1700000000000".
Proof. vm_compute. reflexivity. Qed.

Example parseInt_samples :
  parseInt "1700000000000" = NumInt 1700000000000 /\
  parseInt "  -42abc" = NumInt (-42) /\
  parseInt "0x1F" = NumInt 31 /\
  parseInt "abc" = NumNaN /\
  parseInt "" = NumNaN.
Proof. vm_compute. repeat split. Qed.

Example Number_toString_samples :
  Number_toString (NumInt (-1200)) = "-1200" /\
  Number_toString (NumInt (10 ^ 21)) = "1e+21" /\
  Number_toString (NumInt (123 * 10 ^ 20)) = "1.23e+22" /\
  Number_toString (NumDec 15 (-1)) = "1.5" /\
  Number_toString (NumDec (-5) (-3)) = "-0.005" /\
  Number_toString (NumDec 12 (-8)) = "1.2e-7".
Proof. vm_compute. repeat split. Qed.

(** ** Strings *)

Lemma length_append (s1 s2 : string) :
  String.length (s1 ++ s2) = (String.length s1 + String.length s2)%nat.
Proof. induction s1 as [ | c s1 IH]; simpl; [ | rewrite IH]; reflexivity. Qed.

Lemma append_assoc (s1 s2 s3 : string) : (s1 ++ s2) ++ s3 = s1 ++ (s2 ++ s3).
Proof. induction s1 as [ | c s1 IH]; simpl; [ | rewrite IH]; reflexivity. Qed.

Lemma append_nil_r (s : string) : s ++ "" = s.
Proof. induction s as [ | c s IH]; simpl; [ | rewrite IH]; reflexivity. Qed.

(** ** The effect monad *)

Section EffLaws.
Context {A B : Type}.

Lemma outcome_bind (m : Eff A) (k : A -> Eff B) :
  outcome (bind m k) =
  match outcome m with
  | Normal a => outcome (k a)
  | Throw e => Throw e
  end.
Proof.
  destruct m as [t [a | e]]; simpl; [destruct (k a) | ]; reflexivity.
Qed.

Lemma outcome_try_catch (body : Eff A) (handler : JsError -> Eff A) :
  outcome (try_catch body handler) =
  match outcome body with
  | Normal a => Normal a
  | Throw e => outcome (handler e)
  end.
Proof.
  destruct body as [t [a | e]]; simpl; [ | destruct (handler e)]; reflexivity.
Qed.

Lemma trace_bind (m : Eff A) (k : A -> Eff B) :
  trace (bind m k) =
  match outcome m with
  | Normal a => (trace m ++ trace (k a))%list
  | Throw e => trace m
  end.
Proof.
  destruct m as [t [a | e]]; simpl; [destruct (k a) | ]; reflexivity.
Qed.

Lemma trace_try_catch (body : Eff A) (handler : JsError -> Eff A) :
  trace (try_catch body handler) =
  match outcome body with
  | Normal a => trace body
  | Throw e => (trace body ++ trace (handler e))%list
  end.
Proof.
  destruct body as [t [a | e]]; simpl; [ | destruct (handler e)]; reflexivity.
Qed.
Lemma outcome_ret (a : A) : outcome (ret a) = Normal a.
Proof. reflexivity. Qed.

Lemma outcome_throw (e : JsError) : outcome (@throw A e) = Throw e.
Proof. reflexivity. Qed.

Lemma outcome_lift (c : Completion A) : outcome (lift c) = c.
Proof. reflexivity. Qed.
End EffLaws.

Lemma outcome_emit (ev : Event) : outcome (emit ev) = Normal tt.
Proof. reflexivity. Qed.

Create Rewrite HintDb eff.
#[global] Hint Rewrite @outcome_bind @outcome_try_catch @outcome_ret
  @outcome_throw @outcome_lift outcome_emit : eff.

Lemma Promise_all_fulfils {A} (ps : list (Eff A)) :
  Forall (fun p => exists a, outcome p = Normal a) ps ->
  exists l, outcome (Promise_all ps) = Normal l
            /\ Forall2 (fun p a => outcome p = Normal a) ps l.
Proof.
  induction 1 as [ | p ps [a Ha] _ [l [Hl HF]]].
  - exists []. split; [reflexivity | constructor].
  - exists (a :: l). destruct p as [t r]. simpl in *. subst r.
    destruct (Promise_all ps) as [t' rs]. simpl in *. subst rs.
    split; [reflexivity | constructor; [reflexivity | assumption]].
Qed.

(** ** email-service.js: extraction *)

Import EmailService.

Lemma extractEmailData_rejected gmail messageId e :
  fetched gmail messageId = Throw e ->
  outcome (extractEmailData gmail messageId) = Normal (failure_record messageId e).
Proof.
  unfold fetched, extractEmailData, Gmail.users_messages_get.
  intros ->. reflexivity.
Qed.

(** Every path of [extractEmailData] ends in a record with the id asked for:
    the whole body sits inside the [try]. *)
Lemma extractEmailData_returns gmail messageId :
  exists r, outcome (extractEmailData gmail messageId) = Normal r
            /\ id r = messageId.
Proof.
  unfold extractEmailData, Gmail.users_messages_get.
  destruct (Gmail.messages_get gmail "me" messageId "metadata" ["To"; "Date"])
    as [[mid th [[[hs | ]] | ] idate] | e]; simpl;
    try (eexists; split; reflexivity).
  destruct (find _ hs); destruct (find _ hs); simpl;
    eexists; split; reflexivity.
Qed.

(** The record depends on nothing but the provider's answer for that id. *)
Lemma extractEmailData_local gmail gmail' messageId :
  fetched gmail' messageId = fetched gmail messageId ->
  extractEmailData gmail' messageId = extractEmailData gmail messageId.
Proof.
  unfold fetched, extractEmailData, Gmail.users_messages_get.
  intros ->. reflexivity.
Qed.

Lemma extractions_fulfil gmail (refs : list Gmail.Message) :
  exists records,
    outcome (Promise_all
               (map (fun message => extractEmailData gmail (Gmail.id message))
                    refs)) = Normal records
    /\ Forall2 (fun message r =>
                  outcome (extractEmailData gmail (Gmail.id message)) = Normal r)
               refs records.
Proof.
  destruct (Promise_all_fulfils
              (map (fun message => extractEmailData gmail (Gmail.id message))
                   refs)) as [l [Hl HF]].
  - apply Forall_forall. intros p Hp. apply in_map_iff in Hp.
    destruct Hp as [m [<- _]].
    destruct (extractEmailData_returns gmail (Gmail.id m)) as [r [Hr _]].
    exists r. exact Hr.
  - exists l. split; [exact Hl | ].
    clear Hl. revert l HF. induction refs as [ | m refs IH]; intros l HF;
      inversion HF; subst; constructor; auto.
Qed.

Lemma Forall2_ids gmail refs records :
  Forall2 (fun message r =>
             outcome (extractEmailData gmail (Gmail.id message)) = Normal r)
          refs records ->
  map id records = map Gmail.id refs.
Proof.
  induction 1 as [ | m r refs records Hr _ IH]; simpl; [reflexivity | ].
  destruct (extractEmailData_returns gmail (Gmail.id m)) as [r' [Hr' Hid]].
  rewrite Hr in Hr'. injection Hr' as <-. rewrite Hid, IH. reflexivity.
Qed.

(** What [fetchCVSEmails] returns once the list call has answered. *)
Lemma fetchCVSEmails_listed host gmail data :
  listed host gmail = Normal data ->
  exists records,
    outcome (fetchCVSEmails host gmail) = Normal records
    /\ Forall2 (fun message r =>
                  outcome (extractEmailData gmail (Gmail.id message)) = Normal r)
               (refs_of data) records.
Proof.
  unfold listed, fetchCVSEmails, refs_of, Gmail.users_messages_list.
  intros Hlist. autorewrite with eff. rewrite Hlist.
  destruct (match Gmail.messages data with Some l => l | None => [] end)
    as [ | m refs] eqn:Hrefs.
  - exists []. split; [reflexivity | constructor].
  - change (List.length (m :: refs) =? 0)%nat with false. cbv iota.
    destruct (extractions_fulfil gmail (m :: refs)) as [records [Hall HF]].
    exists records. split; [ | exact HF].
    autorewrite with eff. rewrite Hall. reflexivity.
Qed.

Lemma extractEmailData_extracted gmail messageId :
  outcome (extractEmailData gmail messageId)
  = Normal (extracted gmail messageId).
Proof.
  unfold extracted.
  destruct (extractEmailData_returns gmail messageId) as [r [-> _]].
  reflexivity.
Qed.

(** The records are the records of the refs, in the order of the refs. *)
Lemma fetchCVSEmails_records host gmail data :
  listed host gmail = Normal data ->
  outcome (fetchCVSEmails host gmail)
  = Normal (map (fun message => extracted gmail (Gmail.id message))
                (refs_of data)).
Proof.
  intros Hlist.
  destruct (fetchCVSEmails_listed host gmail data Hlist) as [records [-> HF]].
  f_equal. induction HF as [ | m r refs records Hr _ IH]; [reflexivity | ].
  cbn [map]. rewrite extractEmailData_extracted in Hr.
  injection Hr as <-. rewrite IH. reflexivity.
Qed.

(** Listing the same messages in another order gives the same records in
    that other order: no record depends on its neighbours. *)
Lemma shuffled_refs_same_records host gmail gmail' data data' :
  listed host gmail = Normal data ->
  listed host gmail' = Normal data' ->
  (forall messageId, fetched gmail' messageId = fetched gmail messageId) ->
  Permutation (refs_of data) (refs_of data') ->
  exists records records',
    outcome (fetchCVSEmails host gmail) = Normal records
    /\ outcome (fetchCVSEmails host gmail') = Normal records'
    /\ Permutation records records'.
Proof.
  intros Hlist Hlist' Hsame Hperm.
  rewrite (fetchCVSEmails_records _ _ _ Hlist),
    (fetchCVSEmails_records _ _ _ Hlist').
  eexists. eexists. split; [reflexivity | ]. split; [reflexivity | ].
  rewrite (map_ext (fun message => extracted gmail' (Gmail.id message))
                   (fun message => extracted gmail (Gmail.id message))).
  - apply Permutation_map, Hperm.
  - intros m. unfold extracted.
    rewrite (extractEmailData_local gmail gmail' (Gmail.id m) (Hsame _)).
    reflexivity.
Qed.

(** C1: whatever sequence of message refs the list call returns,
    [fetchCVSEmails] returns one record per ref, in the same order, each with
    the id of its ref, and each being what [extractEmailData] yields for that
    ref, including the refs whose extraction failed. *)
Theorem fetchCVSEmails_one_record_per_ref :
  forall host gmail data,
    listed host gmail = Normal data ->
    exists records,
      outcome (fetchCVSEmails host gmail) = Normal records
      /\ List.length records = List.length (refs_of data)
      /\ map id records = map Gmail.id (refs_of data)
      /\ Forall2 (fun message r =>
                    outcome (extractEmailData gmail (Gmail.id message))
                    = Normal r)
                 (refs_of data) records.
Proof.
  intros host gmail data Hlist.
  destruct (fetchCVSEmails_listed host gmail data Hlist) as [records [Hout HF]].
  exists records. repeat split; try assumption.
  - symmetry. eapply Forall2_length; eassumption.
  - eapply Forall2_ids; eassumption.
Qed.

Lemma fetchCVSEmails_one_record_per_ref_witness :
  listed Samples.host Samples.gmail = Normal (Gmail.mkList (Some Samples.refs))
  /\ exists records,
      outcome (fetchCVSEmails Samples.host Samples.gmail) = Normal records
      /\ List.length records = 3%nat
      /\ map id records = ["m1"; "m2"; "m3"]
      /\ Forall2 (fun message r =>
                    outcome (extractEmailData Samples.gmail (Gmail.id message))
                    = Normal r)
                 Samples.refs records.
Proof.
  split; [reflexivity | ].
  apply (fetchCVSEmails_one_record_per_ref Samples.host Samples.gmail
           (Gmail.mkList (Some Samples.refs))).
  reflexivity.
Defined.

(** C2: [extractEmailData] never throws.  When the metadata fetch of a
    message is rejected with [e], the record returned carries the id, has
    [error] set to the message of [e] and [to], [date] and [timestamp] null;
    every other ref still gets a record, and that record is the one it gets
    from any provider that answers alike for it, whatever happens to the
    failing ref. *)
Theorem extractEmailData_never_propagates :
  forall gmail messageId e,
    fetched gmail messageId = Throw e ->
    (exists r,
        outcome (extractEmailData gmail messageId) = Normal r
        /\ id r = messageId
        /\ error r = Has (message e)
        /\ to r = Null /\ date r = Null /\ timestamp r = Null)
    /\ (forall other,
           exists r, outcome (extractEmailData gmail other) = Normal r)
    /\ (forall gmail' other,
           fetched gmail' other = fetched gmail other ->
           extractEmailData gmail' other = extractEmailData gmail other).
Proof.
  intros gmail messageId e Hget. split; [ | split].
  - exists (failure_record messageId e).
    rewrite (extractEmailData_rejected _ _ _ Hget). repeat split.
  - intros other.
    destruct (extractEmailData_returns gmail other) as [r [Hr _]].
    exists r. exact Hr.
  - intros gmail' other. apply extractEmailData_local.
Qed.

Lemma extractEmailData_never_propagates_witness :
  fetched Samples.gmail "m2" = Throw (Error "Requested entity was not found.")
  /\ (exists r,
         outcome (extractEmailData Samples.gmail "m2") = Normal r
         /\ id r = "m2"
         /\ error r = Has "Requested entity was not found."
         /\ to r = Null /\ date r = Null /\ timestamp r = Null)
  /\ (forall other,
         exists r, outcome (extractEmailData Samples.gmail other) = Normal r)
  /\ (forall gmail' other,
         fetched gmail' other = fetched Samples.gmail other ->
         extractEmailData gmail' other = extractEmailData Samples.gmail other).
Proof.
  split; [reflexivity | ].
  apply (extractEmailData_never_propagates Samples.gmail "m2"
           (Error "Requested entity was not found.")).
  reflexivity.
Defined.

(** The records of the other messages are the same with the failing fetch
    and with the repaired one. *)
Example failure_is_isolated :
  map (fun m => outcome (extractEmailData Samples.gmail m)) ["m1"; "m3"]
  = map (fun m => outcome (extractEmailData Samples.gmail_repaired m))
        ["m1"; "m3"].
Proof. reflexivity. Qed.

(** C5: when the list call reports no message, [fetchCVSEmails] returns the
    empty sequence; when it returns [N <= 500] refs, the result has [N]
    records, in the provider's order. *)
Theorem fetchCVSEmails_counts :
  forall host gmail data,
    listed host gmail = Normal data ->
    (List.length (refs_of data) = 0%nat ->
     outcome (fetchCVSEmails host gmail) = Normal [])
    /\ ((List.length (refs_of data) <= 500)%nat ->
        exists records,
          outcome (fetchCVSEmails host gmail) = Normal records
          /\ List.length records = List.length (refs_of data)
          /\ map id records = map Gmail.id (refs_of data)).
Proof.
  intros host gmail data Hlist.
  destruct (fetchCVSEmails_listed host gmail data Hlist) as [records [Hout HF]].
  split.
  - intros Hzero. rewrite Hout.
    destruct (refs_of data); [ | discriminate Hzero].
    inversion HF. reflexivity.
  - intros _. exists records. repeat split; try assumption.
    + symmetry. eapply Forall2_length; eassumption.
    + eapply Forall2_ids; eassumption.
Qed.

Lemma fetchCVSEmails_counts_witness :
  (listed Samples.host Samples.gmail_empty = Normal (Gmail.mkList None)
   /\ outcome (fetchCVSEmails Samples.host Samples.gmail_empty) = Normal [])
  /\ (listed Samples.host Samples.gmail = Normal (Gmail.mkList (Some Samples.refs))
      /\ (List.length Samples.refs <= 500)%nat
      /\ exists records,
          outcome (fetchCVSEmails Samples.host Samples.gmail) = Normal records
          /\ List.length records = 3%nat
          /\ map id records = ["m1"; "m2"; "m3"]).
Proof.
  split.
  - split; [reflexivity | ].
    apply (fetchCVSEmails_counts Samples.host Samples.gmail_empty
             (Gmail.mkList None)); reflexivity.
  - split; [reflexivity | ]. split; [simpl; lia | ].
    apply (fetchCVSEmails_counts Samples.host Samples.gmail
             (Gmail.mkList (Some Samples.refs))); [reflexivity | simpl; lia].
Defined.

(** ** [parseInt] on digit strings *)

Lemma is_digit_cases (c : ascii) :
  is_digit c = true ->
  In c ["0"; "1"; "2"; "3"; "4"; "5"; "6"; "7"; "8"; "9"]%char.
Proof.
  destruct c as [[|] [|] [|] [|] [|] [|] [|] [|]]; vm_compute;
    intros H; try discriminate H; tauto.
Qed.

Ltac digit_cases H :=
  apply is_digit_cases in H; simpl in H;
  repeat (destruct H as [H | H]; [subst | ]); [ .. | contradiction].

Lemma trim_start_digit fuel c s :
  is_digit c = true -> trim_start fuel (String c s) = String c s.
Proof.
  intros H. destruct fuel; [reflexivity | ].
  digit_cases H; reflexivity.
Qed.

Lemma radix_prefix_digits s : forall count acc,
  all_digits s = true ->
  radix_prefix 10 s count acc
  = ((count + String.length s)%nat, digits_value s acc).
Proof.
  induction s as [ | c s IH]; intros count acc H; simpl in *.
  - rewrite Nat.add_0_r. reflexivity.
  - apply andb_prop in H. destruct H as [Hc Hs].
    rewrite Hc, (IH _ _ Hs). f_equal. lia.
Qed.

(** A non-empty string of decimal digits parses to its value. *)
Lemma parseInt_digits s :
  s <> "" -> all_digits s = true -> parseInt s = NumInt (digits_value s 0).
Proof.
  intros Hne Hall. destruct s as [ | c s]; [congruence | ].
  pose proof Hall as Hall'. simpl in Hall'.
  apply andb_prop in Hall'. destruct Hall' as [Hc Hs].
  unfold parseInt. rewrite (trim_start_digit _ c s Hc).
  assert (Hsign :
    match String c s with
    | String "-" r => (-1, r)
    | String "+" r => (1, r)
    | _ => (1, String c s)
    end = (1, String c s)).
  { digit_cases Hc; reflexivity. }
  rewrite Hsign.
  assert (Hx : starts_with "0x" (String c s) || starts_with "0X" (String c s)
               = false).
  { destruct s as [ | c2 s]; [digit_cases Hc; reflexivity | ].
    simpl in Hs. apply andb_prop in Hs. destruct Hs as [Hc2 _].
    digit_cases Hc; try reflexivity; digit_cases Hc2; reflexivity. }
  rewrite Hx, (radix_prefix_digits _ 0%nat 0 Hall).
  simpl Nat.add. cbv iota beta.
  destruct (digits_value (String c s) 0); reflexivity.
Qed.

(** C4, as stated, fails: a timestamp field that does not parse gives the
    record the timestamp NaN, not null. *)
Lemma unparsable_timestamp_is_NaN :
  fetched Samples.gmail "m3"
  = Normal (Gmail.mkMessage "m3" "t3"
              (Some (Gmail.mkPart (Some [Gmail.mkHeader "To" "b@x.com"])))
              (Some "abc"))
  /\ parseInt "abc" = NumNaN
  /\ exists r,
      outcome (extractEmailData Samples.gmail "m3") = Normal r
      /\ error r = Absent
      /\ timestamp r = Has NumNaN
      /\ timestamp r <> Null.
Proof.
  split; [reflexivity | ]. split; [reflexivity | ].
  eexists. split; [reflexivity | ]. simpl.
  repeat split. discriminate.
Qed.

(** The record of a fetched message, by what its response carries: with a
    payload that has headers the body of the [try] runs to its end; without
    them it throws before the timestamp is read. *)
Lemma extractEmailData_fetched gmail messageId msg r :
  fetched gmail messageId = Normal msg ->
  outcome (extractEmailData gmail messageId) = Normal r ->
  match Gmail.payload msg with
  | Some (Gmail.mkPart (Some _)) =>
      error r = Absent
      /\ timestamp r =
         match Gmail.internalDate msg with
         | Some s => if truthy_string s then Has (parseInt s) else Null
         | None => Null
         end
  | Some (Gmail.mkPart None) | None =>
      timestamp r = Null /\ exists e, error r = Has (message e)
  end.
Proof.
  unfold fetched, extractEmailData, Gmail.users_messages_get. intros ->.
  destruct msg as [mid th [[[hs | ]] | ] idate]; simpl;
    try (intros [= <-]; split;
         [reflexivity | eexists (TypeError _); reflexivity]).
  destruct (find _ hs); destruct (find _ hs); simpl;
    intros [= <-]; split; reflexivity.
Qed.

(** C4, amended: for a fetched message whose response carries a payload
    with headers, the record has no error and its timestamp is null when the
    provider's field is absent or empty; otherwise it is what [parseInt]
    makes of the field: the integer it finds there, when that integer is
    within the safe-integer range (so, for a string of decimal digits in
    that range, the integer it spells), and NaN, not null, when [parseInt]
    finds no number in it.  For a fetched message whose response has no
    payload, or a payload without headers, the extraction fails before the
    field is read: the record carries an error and its timestamp is null
    whatever the field holds. *)
Theorem timestamp_is_parseInt_or_null :
  forall gmail messageId msg r,
    fetched gmail messageId = Normal msg ->
    outcome (extractEmailData gmail messageId) = Normal r ->
    (forall headers,
        Gmail.payload msg = Some (Gmail.mkPart (Some headers)) ->
        error r = Absent
        /\ (Gmail.internalDate msg = None \/ Gmail.internalDate msg = Some "" ->
            timestamp r = Null)
        /\ (forall s z, Gmail.internalDate msg = Some s -> s <> "" ->
                        parseInt s = NumInt z ->
                        safe_integer z ->
                        timestamp r = Has (NumInt z))
        /\ (forall s, Gmail.internalDate msg = Some s -> s <> "" ->
                      all_digits s = true ->
                      safe_integer (digits_value s 0) ->
                      timestamp r = Has (NumInt (digits_value s 0)))
        /\ (forall s, Gmail.internalDate msg = Some s -> s <> "" ->
                      parseInt s = NumNaN ->
                      timestamp r = Has NumNaN))
    /\ (Gmail.payload msg = None \/ Gmail.payload msg = Some (Gmail.mkPart None) ->
        timestamp r = Null /\ exists e, error r = Has (message e)).
Proof.
  intros gmail messageId msg r Hget Hout.
  pose proof (extractEmailData_fetched gmail messageId msg r Hget Hout) as H.
  assert (Hnonempty : forall s, s <> "" -> truthy_string s = true).
  { intros [ | c s] Hs; [congruence | reflexivity]. }
  split.
  - intros headers Hpayload. rewrite Hpayload in H. destruct H as [Herr ->].
    split; [exact Herr | ]. repeat split.
    + intros [-> | ->]; reflexivity.
    + intros s z -> Hs Hint _. rewrite (Hnonempty s Hs), Hint. reflexivity.
    + intros s -> Hs Hall _.
      rewrite (Hnonempty s Hs), (parseInt_digits s Hs Hall). reflexivity.
    + intros s -> Hs HNaN. rewrite (Hnonempty s Hs), HNaN. reflexivity.
  - intros [Hpayload | Hpayload]; rewrite Hpayload in H; exact H.
Qed.

Lemma timestamp_is_parseInt_or_null_witness :
  (exists msg r headers,
      fetched Samples.gmail "m1" = Normal msg
      /\ outcome (extractEmailData Samples.gmail "m1") = Normal r
      /\ Gmail.payload msg = Some (Gmail.mkPart (Some headers))
      /\ Gmail.internalDate msg = Some "1709996400000"
      /\ all_digits "1709996400000" = true
      /\ safe_integer (digits_value "1709996400000" 0)
      /\ timestamp r = Has (NumInt 1709996400000))
  /\ (exists msg r,
         fetched Scenarios.gmail_bare "m1" = Normal msg
         /\ outcome (extractEmailData Scenarios.gmail_bare "m1") = Normal r
         /\ Gmail.payload msg = None
         /\ Gmail.internalDate msg = Some "1709996400000"
         /\ timestamp r = Null).
Proof.
  assert (Hsafe : safe_integer (digits_value "1709996400000" 0))
    by (unfold safe_integer, MAX_SAFE_INTEGER; vm_compute; split; discriminate).
  split.
  - eexists. eexists. eexists.
    split; [reflexivity | ]. split; [reflexivity | ]. split; [reflexivity | ].
    split; [reflexivity | ]. split; [reflexivity | ]. split; [exact Hsafe | ].
    refine (proj1 (proj2 (proj2 (proj2
      (proj1 (timestamp_is_parseInt_or_null Samples.gmail "m1" _ _
                eq_refl eq_refl) _ eq_refl))))
      "1709996400000" eq_refl _ eq_refl Hsafe).
    discriminate.
  - eexists. eexists.
    split; [reflexivity | ]. split; [reflexivity | ]. split; [reflexivity | ].
    split; [reflexivity | ].
    exact (proj1 (proj2 (timestamp_is_parseInt_or_null Scenarios.gmail_bare
                           "m1" _ _ eq_refl eq_refl)
                    (or_introl eq_refl))).
Defined.

(** ** [Date]: the calendar functions against the calendar *)

Ltac zdiv := Z.div_mod_to_equations; lia.

Lemma is_leap_spec y :
  Date.is_leap y = true <->
  ((y mod 4 = 0 /\ y mod 100 <> 0) \/ y mod 400 = 0).
Proof.
  unfold Date.is_leap.
  rewrite orb_true_iff, andb_true_iff, negb_true_iff, !Z.eqb_eq, Z.eqb_neq.
  tauto.
Qed.

Lemma leap_year_is_leap y : Calendar.leap_year y = Date.is_leap y.
Proof.
  unfold Calendar.leap_year, Date.is_leap.
  destruct (Z.eqb_spec (y mod 400) 0), (Z.eqb_spec (y mod 100) 0),
    (Z.eqb_spec (y mod 4) 0); simpl; try reflexivity; zdiv.
Qed.

Lemma DayFromYear_succ y :
  Date.DayFromYear (y + 1) = Date.DayFromYear y + Date.DaysInYear y.
Proof.
  unfold Date.DayFromYear, Date.DaysInYear.
  destruct (Date.is_leap y) eqn:E.
  - apply is_leap_spec in E. zdiv.
  - assert (~ ((y mod 4 = 0 /\ y mod 100 <> 0) \/ y mod 400 = 0))
      by (rewrite <- is_leap_spec; congruence).
    zdiv.
Qed.

Lemma DayFromYear_mono y1 y2 :
  y1 <= y2 -> Date.DayFromYear y1 <= Date.DayFromYear y2.
Proof. unfold Date.DayFromYear. intros. zdiv. Qed.

(** [YearFromDay] is the year whose days include [d]. *)
Lemma YearFromDay_bounds d :
  Date.DayFromYear (Date.YearFromDay d) <= d
  < Date.DayFromYear (Date.YearFromDay d + 1).
Proof.
  unfold Date.YearFromDay.
  destruct (Z.ltb_spec d (Date.DayFromYear (1970 + 400 * d / 146097))).
  - unfold Date.DayFromYear in *. zdiv.
  - destruct (Z.leb_spec (Date.DayFromYear (1970 + 400 * d / 146097 + 1)) d).
    + unfold Date.DayFromYear in *. zdiv.
    + lia.
Qed.

Lemma YearFromDay_unique d y :
  Date.DayFromYear y <= d < Date.DayFromYear (y + 1) ->
  Date.YearFromDay d = y.
Proof.
  intros H. pose proof (YearFromDay_bounds d) as B.
  destruct (Z.lt_trichotomy (Date.YearFromDay d) y) as [L | [E | G]];
    [ | exact E | ].
  - pose proof (DayFromYear_mono (Date.YearFromDay d + 1) y). lia.
  - pose proof (DayFromYear_mono (y + 1) (Date.YearFromDay d)). lia.
Qed.

Ltac split_ifs :=
  repeat match goal with
         | |- context [if ?c <? ?d then _ else _] =>
             destruct (Z.ltb_spec c d)
         | |- context [if ?c =? ?d then _ else _] =>
             destruct (Z.eqb_spec c d)
         end.

(** One day earlier on the time line is the previous day of the calendar. *)
Lemma of_time_previous_day t t' :
  Date.Day t' = Date.Day t - 1 ->
  Calendar.of_time t' = Calendar.previous_day (Calendar.of_time t).
Proof.
  intros Hday.
  pose proof (YearFromDay_bounds (Date.Day t)) as B.
  rewrite DayFromYear_succ in B.
  set (Y := Date.YearFromDay (Date.Day t)) in *.
  destruct (Z.eq_dec (Date.Day t) (Date.DayFromYear Y)) as [Hfirst | Hlater].
  - (* the first of January *)
    assert (HY' : Date.YearFromDay (Date.Day t') = Y - 1).
    { apply YearFromDay_unique. replace (Y - 1 + 1) with Y by lia.
      pose proof (DayFromYear_succ (Y - 1)) as Hs.
      replace (Y - 1 + 1) with Y in Hs by lia.
      unfold Date.DaysInYear in Hs. destruct (Date.is_leap (Y - 1)); lia. }
    pose proof (DayFromYear_succ (Y - 1)) as Hs.
    replace (Y - 1 + 1) with Y in Hs by lia.
    unfold Calendar.of_time, Calendar.previous_day, Date.DateFromTime, Date.MonthFromTime,
      Date.DayWithinYear, Date.InLeapYear, Date.YearFromTime.
    rewrite HY', Hday. fold Y. rewrite Hfirst.
    unfold Date.DaysInYear in Hs.
    replace (Date.DayFromYear Y - Date.DayFromYear Y) with 0 by lia.
    destruct (Date.is_leap Y), (Date.is_leap (Y - 1)); simpl;
      [ replace (Date.DayFromYear Y - 1 - Date.DayFromYear (Y - 1)) with 365 by lia
      | replace (Date.DayFromYear Y - 1 - Date.DayFromYear (Y - 1)) with 364 by lia
      | replace (Date.DayFromYear Y - 1 - Date.DayFromYear (Y - 1)) with 365 by lia
      | replace (Date.DayFromYear Y - 1 - Date.DayFromYear (Y - 1)) with 364 by lia ];
      reflexivity.
  - (* later in the year *)
    assert (HY' : Date.YearFromDay (Date.Day t') = Y).
    { apply YearFromDay_unique. rewrite DayFromYear_succ. lia. }
    unfold Calendar.of_time, Calendar.previous_day, Calendar.days_in_month,
      Date.DateFromTime, Date.MonthFromTime,
      Date.DayWithinYear, Date.InLeapYear, Date.YearFromTime.
    rewrite HY', Hday. fold Y. cbn [Calendar.year Calendar.month Calendar.day].
    rewrite leap_year_is_leap.
    unfold Date.DaysInYear in B.
    set (w := Date.Day t - Date.DayFromYear Y) in *.
    replace (Date.Day t - 1 - Date.DayFromYear Y) with (w - 1) by (unfold w; lia).
    assert (Hw : 1 <= w) by (unfold w; lia).
    assert (Hw' : w < (if Date.is_leap Y then 366 else 365)) by (unfold w; lia).
    clearbody w. clear - Hw Hw'.
    destruct (Date.is_leap Y); cbn;
      repeat match goal with
             | |- context [if ?c <? Zpos ?d then _ else _] =>
                 destruct (Z.ltb_spec c (Zpos d))
             end; try lia; cbn; split_ifs; try lia; f_equal; lia.
Qed.

Lemma of_time_days_before n t :
  Calendar.of_time (t - Z.of_nat n * Date.msPerDay)
  = Calendar.days_before n (Calendar.of_time t).
Proof.
  induction n as [ | n IH].
  - simpl. f_equal. lia.
  - cbn [Calendar.days_before]. rewrite <- IH.
    apply of_time_previous_day. unfold Date.Day, Date.msPerDay. zdiv.
Qed.

Lemma MonthFromTime_range t : 0 <= Date.MonthFromTime t <= 11.
Proof. unfold Date.MonthFromTime. split_ifs; lia. Qed.

Lemma DateFromTime_range t : 1 <= Date.DateFromTime t <= 31.
Proof.
  pose proof (YearFromDay_bounds (Date.Day t)) as B.
  rewrite DayFromYear_succ in B.
  unfold Date.DateFromTime, Date.MonthFromTime, Date.DayWithinYear,
    Date.InLeapYear, Date.YearFromTime, Date.DaysInYear in *.
  set (w := Date.Day t - Date.DayFromYear (Date.YearFromDay (Date.Day t))).
  assert (Hw : 0 <= w < (if Date.is_leap (Date.YearFromDay (Date.Day t))
                         then 366 else 365)) by (unfold w; lia).
  clearbody w. clear B.
  destruct (Date.is_leap _); cbn;
    repeat match goal with
           | |- context [if ?c <? Zpos ?d then _ else _] =>
               destruct (Z.ltb_spec c (Zpos d))
           end; cbn; lia.
Qed.

(** [setDate(getDate() - n)] moves the local time back by [n] whole days. *)
Lemma setDate_back d n :
  Date.LocalTime (Date.setDate d (Date.getDate d - n))
  = Date.LocalTime d - n * Date.msPerDay.
Proof.
  unfold Date.setDate, Date.getDate, Date.LocalTime. cbn [Date.tv Date.LocalTZA].
  set (lt := Date.tv d + Date.LocalTZA d).
  assert (Hday :
    Date.MakeDay (Date.YearFromTime lt) (Date.MonthFromTime lt)
                 (Date.DateFromTime lt - n) = Date.Day lt - n).
  { pose proof (MonthFromTime_range lt) as Hm.
    unfold Date.MakeDay.
    replace (Date.MonthFromTime lt / 12) with 0 by zdiv.
    replace (Date.MonthFromTime lt mod 12) with (Date.MonthFromTime lt) by zdiv.
    rewrite Z.add_0_r.
    unfold Date.DateFromTime, Date.DayWithinYear, Date.InLeapYear. lia. }
  rewrite Hday. unfold Date.MakeDate, Date.Day, Date.TimeWithinDay, Date.msPerDay.
  zdiv.
Qed.

Lemma padStart_two_digits n :
  0 <= n < 100 -> padStart (String_of_int n) 2 "0" = Calendar.two_digits n.
Proof.
  intros H. rewrite <- (Z2Nat.id n) by lia.
  assert (Hk : (Z.to_nat n < 100)%nat) by lia.
  generalize dependent (Z.to_nat n). clear H. intros k Hk.
  do 100 (destruct k as [ | k]; [reflexivity | ]). lia.
Qed.

(** [formatDate] writes the calendar date of the local time. *)
Lemma formatDate_YYYY_MM_DD d :
  formatDate d = Calendar.YYYY_MM_DD (Calendar.of_time (Date.LocalTime d)).
Proof.
  unfold formatDate, Calendar.YYYY_MM_DD, Calendar.of_time,
    Date.getFullYear, Date.getMonth, Date.getDate.
  cbn [Calendar.year Calendar.month Calendar.day].
  pose proof (MonthFromTime_range (Date.LocalTime d)).
  pose proof (DateFromTime_range (Date.LocalTime d)).
  rewrite !padStart_two_digits by lia. reflexivity.
Qed.

(** The date the query carries. *)
Lemma formatted_lower_bound host :
  formatDate (Date.setDate (new_Date host) (Date.getDate (new_Date host) - 6))
  = Calendar.YYYY_MM_DD (Calendar.days_before 6 (Calendar.local_date host)).
Proof.
  rewrite formatDate_YYYY_MM_DD, setDate_back.
  unfold Calendar.local_date.
  rewrite <- (of_time_days_before 6). reflexivity.
Qed.

(** A four-digit year makes the date ten characters long. *)
Lemma decimal_four_digits y :
  1000 <= y <= 9999 -> String.length (String_of_int y) = 4%nat.
Proof.
  intros H. unfold String_of_int, Number_toString.
  destruct (Z.eqb_spec y 0); [lia | ].
  destruct (Z.ltb_spec y 0); [lia | ].
  rewrite Z.abs_eq by lia.
  destruct (Z.ltb_spec y (10 ^ 21)); [ | lia].
  unfold decimal.
  assert (Hlog : 9 <= Z.log2 y).
  { apply Z.log2_le_pow2; lia. }
  destruct (Z.to_nat (Z.log2 y)) as [ | [ | [ | k]]] eqn:Hk; try lia.
  cbn [digits_aux].
  destruct (Z.ltb_spec y 10); [lia | ].
  destruct (Z.ltb_spec (y / 10) 10); [zdiv | ].
  destruct (Z.ltb_spec (y / 10 / 10) 10); [zdiv | ].
  destruct (Z.ltb_spec (y / 10 / 10 / 10) 10); [reflexivity | zdiv].
Qed.

Lemma trace_try_catch_prefix {A} (body : Eff A) handler :
  exists rest, trace (try_catch body handler) = (trace body ++ rest)%list.
Proof.
  rewrite trace_try_catch. destruct (outcome body).
  - exists []. rewrite app_nil_r. reflexivity.
  - eexists. reflexivity.
Qed.

Lemma trace_emit_bind {A} ev (k : unit -> Eff A) :
  trace (bind (emit ev) k) = ev :: trace (k tt).
Proof. unfold bind, emit. destruct (k tt). reflexivity. Qed.

Lemma trace_bind_prefix {A B} (m : Eff A) (k : A -> Eff B) :
  exists rest, trace (bind m k) = (trace m ++ rest)%list.
Proof.
  rewrite trace_bind. destruct (outcome m).
  - eexists. reflexivity.
  - exists []. rewrite app_nil_r. reflexivity.
Qed.

(** The first two events of a run: the query is announced and sent. *)
Lemma fetchCVSEmails_sends host gmail :
  exists rest,
    trace (fetchCVSEmails host gmail)
    = ConsoleLog
        ("Fetching emails with query: "
           ++ query_of (Calendar.YYYY_MM_DD
                          (Calendar.days_before 6 (Calendar.local_date host))))
        :: MessagesList "me"
             (query_of (Calendar.YYYY_MM_DD
                          (Calendar.days_before 6 (Calendar.local_date host))))
             500
        :: rest.
Proof.
  unfold fetchCVSEmails.
  match goal with
  | |- context [trace (try_catch ?body ?handler)] =>
      destruct (trace_try_catch_prefix body handler) as [rest1 ->]
  end.
  cbv zeta. rewrite trace_emit_bind.
  match goal with
  | |- context [trace (bind ?m ?k)] =>
      destruct (trace_bind_prefix m k) as [rest2 ->]
  end.
  unfold Gmail.users_messages_list at 1. rewrite trace_emit_bind.
  rewrite formatted_lower_bound.
  generalize (Calendar.YYYY_MM_DD
                (Calendar.days_before 6 (Calendar.local_date host))).
  intros bound. eexists. simpl app. reflexivity.
Qed.

Lemma query_of_clauses bound :
  query_of bound
  = "label:CVS" ++ " " ++ "subject:$4 Coupon!" ++ " " ++ "after:" ++ bound.
Proof. reflexivity. Qed.

(** C3: whatever the clock shows, the run announces and sends one list
    request whose query is the label clause, the subject clause and an
    [after:] clause, joined by spaces; the date of the [after:] clause is the
    sixth calendar day before the host's local date, written [YYYY/MM/DD]
    (ten characters when that year has four digits). *)
Theorem query_lower_bound :
  forall host gmail,
    let lowerBound :=
      Calendar.YYYY_MM_DD (Calendar.days_before 6 (Calendar.local_date host)) in
    let query :=
      "label:CVS" ++ " " ++ "subject:$4 Coupon!" ++ " " ++ "after:" ++ lowerBound in
    (exists rest,
        trace (fetchCVSEmails host gmail)
        = ConsoleLog ("Fetching emails with query: " ++ query)
            :: MessagesList "me" query 500 :: rest)
    /\ (1000 <= Calendar.year (Calendar.days_before 6 (Calendar.local_date host))
        <= 9999 ->
        String.length lowerBound = 10%nat).
Proof.
  intros host gmail lowerBound query. split.
  - destruct (fetchCVSEmails_sends host gmail) as [rest Hrest].
    exists rest. rewrite Hrest, query_of_clauses. reflexivity.
  - intros Hyear. unfold lowerBound, Calendar.YYYY_MM_DD, Calendar.two_digits.
    rewrite !length_append, (decimal_four_digits _ Hyear). reflexivity.
Qed.

Lemma query_lower_bound_witness :
  (exists rest,
      trace (fetchCVSEmails Samples.host Samples.gmail)
      = ConsoleLog
          "Fetching emails with query: label:CVS subject:$4 Coupon! after:2024/03/04"
          :: MessagesList "me" "label:CVS subject:$4 Coupon! after:2024/03/04" 500
          :: rest)
  /\ 1000 <= 2024 <= 9999
  /\ String.length "2024/03/04" = 10%nat.
Proof.
  destruct (query_lower_bound Samples.host Samples.gmail) as [Hq Hlen].
  split; [exact Hq | ]. split; [lia | ].
  apply Hlen. vm_compute. split; discriminate.
Defined.

(** The spec's example: on 10 March 2024 the lower bound is 4 March 2024. *)
Example lower_bound_2024_03_10 :
  Calendar.local_date Samples.host = Calendar.mk 2024 3 10
  /\ Calendar.YYYY_MM_DD (Calendar.days_before 6 (Calendar.local_date Samples.host))
     = "2024/03/04".
Proof. split; reflexivity. Qed.

(** The date is the local one: at 02:00 UTC on 10 March, five hours behind
    UTC, it is still 9 March, and the bound is 3 March. *)
Example lower_bound_is_local :
  let host := mkHost 1710036000000 (-18000000) "/home/app" in
  Calendar.utc_date host = Calendar.mk 2024 3 10
  /\ Calendar.local_date host = Calendar.mk 2024 3 9
  /\ exists rest,
      trace (fetchCVSEmails host Samples.gmail_empty)
      = ConsoleLog
          "Fetching emails with query: label:CVS subject:$4 Coupon! after:2024/03/03"
          :: MessagesList "me" "label:CVS subject:$4 Coupon! after:2024/03/03" 500
          :: rest.
Proof.
  intros host. split; [reflexivity | ]. split; [reflexivity | ].
  exact (fetchCVSEmails_sends host Samples.gmail_empty).
Qed.

(** Month and year ends are crossed by the calendar, not by the clock. *)
Example lower_bound_across_leap_february :
  Calendar.days_before 6 (Calendar.mk 2024 3 3) = Calendar.mk 2024 2 26
  /\ Calendar.days_before 6 (Calendar.mk 2023 3 3) = Calendar.mk 2023 2 25
  /\ Calendar.days_before 6 (Calendar.mk 2024 1 3) = Calendar.mk 2023 12 28.
Proof. repeat split. Qed.


(** ** JSON: strings *)

Lemma parse_chars_quote_char c tail :
  JSON.parse_chars (JSON.quote_char c ++ tail) None
  = JSON.prepend (String c "") (JSON.parse_chars tail None).
Proof.
  destruct c as [[|] [|] [|] [|] [|] [|] [|] [|]]; reflexivity.
Qed.

Lemma parse_chars_quote_body s rest :
  JSON.parse_chars (JSON.quote_body s ++ String JSON.dquote rest) None
  = Some (s, rest).
Proof.
  induction s as [ | c s IH]; [reflexivity | ].
  cbn [JSON.quote_body]. rewrite append_assoc, parse_chars_quote_char, IH.
  reflexivity.
Qed.


(** ** Decimal numerals *)

Lemma digit_char_is_digit d :
  0 <= d <= 9 ->
  is_digit (digit_char d) = true /\ digit_val (digit_char d) = d.
Proof.
  intros H.
  assert (Hd : d = 0 \/ d = 1 \/ d = 2 \/ d = 3 \/ d = 4 \/ d = 5 \/ d = 6
               \/ d = 7 \/ d = 8 \/ d = 9) by lia.
  repeat (destruct Hd as [-> | Hd]; [split; reflexivity | ]).
  subst. split; reflexivity.
Qed.

Lemma digits_value_app ds c acc :
  digits_value (ds ++ String c "") acc = 10 * digits_value ds acc + digit_val c.
Proof.
  revert acc. induction ds as [ | x ds IH]; intros acc; simpl; [ | rewrite IH];
    reflexivity.
Qed.

Lemma all_digits_app s1 s2 :
  all_digits (s1 ++ s2) = all_digits s1 && all_digits s2.
Proof.
  induction s1 as [ | c s1 IH]; simpl; [reflexivity | ].
  rewrite IH, andb_assoc. reflexivity.
Qed.

Lemma nonzero_lead_app ds c :
  JSON.leading_nonzero ds -> JSON.leading_nonzero (ds ++ String c "").
Proof. destruct ds; simpl; tauto. Qed.

Lemma digits_aux_spec f : forall n acc,
  0 <= n < 2 ^ Z.of_nat (S f) ->
  exists ds,
    digits_aux (S f) n acc = ds ++ acc
    /\ all_digits ds = true
    /\ digits_value ds 0 = n
    /\ (0 < n -> JSON.leading_nonzero ds)
    /\ ds <> "".
Proof.
  induction f as [ | f IH]; intros n acc Hn; cbn [digits_aux];
    destruct (Z.ltb_spec n 10) as [Hsmall | Hbig].
  1, 3: exists (String (digit_char n) "");
    destruct (digit_char_is_digit n ltac:(lia)) as [Hd Hv];
    rewrite Z.mod_small by lia;
    repeat split;
    [ simpl; rewrite Hd; reflexivity
    | simpl; rewrite Hv; lia
    | intros Hpos; simpl; unfold digit_val in Hv; lia
    | discriminate ].
  - simpl in Hn. lia.
  - assert (Hq : 0 <= n / 10 < 2 ^ Z.of_nat (S f)).
    { rewrite (Nat2Z.inj_succ (S f)), Z.pow_succ_r in Hn by lia. zdiv. }
    destruct (IH (n / 10) (String (digit_char (n mod 10)) acc) Hq)
      as [ds [Heq [Hall [Hval [Hlead Hne]]]]].
    destruct (digit_char_is_digit (n mod 10) ltac:(zdiv)) as [Hd Hv].
    exists (ds ++ String (digit_char (n mod 10)) "").
    cbn [digits_aux] in Heq.
    repeat split.
    + rewrite Heq, append_assoc. reflexivity.
    + rewrite all_digits_app, Hall. simpl. rewrite Hd. reflexivity.
    + rewrite digits_value_app, Hval, Hv. zdiv.
    + intros _. apply nonzero_lead_app, Hlead. zdiv.
    + destruct ds; [congruence | discriminate].
Qed.

Lemma decimal_spec n :
  0 <= n ->
  all_digits (decimal n) = true
  /\ digits_value (decimal n) 0 = n
  /\ (0 < n -> JSON.leading_nonzero (decimal n))
  /\ decimal n <> "".
Proof.
  intros Hn. unfold decimal.
  destruct (digits_aux_spec (Z.to_nat (Z.log2 n)) n "") as [ds [Heq H]].
  - split; [lia | ].
    rewrite Nat2Z.inj_succ, Z2Nat.id by apply Z.log2_nonneg.
    destruct (Z.eq_dec n 0) as [-> | Hnz]; [reflexivity | ].
    apply Z.log2_spec. lia.
  - rewrite Heq, append_nil_r. exact H.
Qed.

Lemma take_digits_all ds rest :
  all_digits ds = true ->
  match rest with String c _ => is_digit c = false | EmptyString => True end ->
  JSON.take_digits (ds ++ rest) = (ds, rest).
Proof.
  intros Hall Hrest. induction ds as [ | c ds IH]; simpl in *.
  - destruct rest as [ | c r]; [reflexivity | ]. simpl. rewrite Hrest. reflexivity.
  - apply andb_prop in Hall. destruct Hall as [Hc Hds].
    rewrite Hc, (IH Hds). reflexivity.
Qed.

(** ** JSON: integers *)

Lemma parse_unsigned_digits neg ds rest :
  all_digits ds = true ->
  JSON.leading_nonzero ds ->
  JSON.value_end rest ->
  JSON.parse_unsigned neg (ds ++ rest)
  = Some (JSON.make_number neg (digits_value ds 0) 0, rest).
Proof.
  intros Hall Hlead Hend.
  assert (Hrest : match rest with
                  | String c _ => is_digit c = false
                  | EmptyString => True
                  end).
  { destruct rest; [exact I | apply Hend]. }
  destruct ds as [ | c ds]; [contradiction | ].
  pose proof Hall as Hall'. simpl in Hall'.
  apply andb_prop in Hall'. destruct Hall' as [Hc _].
  simpl in Hlead. unfold JSON.parse_unsigned. cbn [append]. rewrite Hc.
  destruct (Z.eqb_spec (code c) 48) as [E | _]; [contradiction | ].
  change (String c (ds ++ rest)) with (String c ds ++ rest).
  rewrite (take_digits_all _ _ Hall Hrest).
  assert (Hfrac : JSON.parse_fraction rest = Some ("", rest)).
  { destruct rest as [ | x r]; [reflexivity | ].
    destruct Hend as [_ [Hdot _]]. unfold JSON.parse_fraction.
    destruct (Z.eqb_spec (code x) 46); [contradiction | reflexivity]. }
  rewrite Hfrac.
  assert (Hexp : JSON.parse_exponent rest = Some (0, rest)).
  { destruct rest as [ | x r]; [reflexivity | ].
    destruct Hend as [_ [_ [HE He]]]. unfold JSON.parse_exponent.
    destruct (Z.eqb_spec (code x) 101); [contradiction | ].
    destruct (Z.eqb_spec (code x) 69); [contradiction | ]. reflexivity. }
  rewrite Hexp, append_nil_r. reflexivity.
Qed.

Lemma make_number_int neg m :
  0 < m -> JSON.make_number neg m 0 = NumInt ((if neg then -1 else 1) * m).
Proof.
  intros Hm. unfold JSON.make_number.
  destruct (Z.eqb_spec m 0); [lia | ].
  cbn [Z.leb Z.compare]. rewrite Z.pow_0_r, Z.mul_1_r. reflexivity.
Qed.

(** A non-zero integer below [10^21] is written as its digits and read
    back as itself. *)
Lemma parse_number_toString z rest :
  Z.abs z < 10 ^ 21 ->
  JSON.value_end rest ->
  JSON.parse_number (Number_toString (NumInt z) ++ rest)
  = Some (NumInt z, rest).
Proof.
  intros Hz Hend. unfold Number_toString.
  destruct (Z.eqb_spec z 0) as [-> | Hnz].
  - cbn [append]. unfold JSON.parse_number.
    change (code "0" =? 45) with false. cbv iota.
    unfold JSON.parse_unsigned. change (is_digit "0") with true.
    change (code "0" =? 48) with true. cbv iota.
    assert (Hfrac : JSON.parse_fraction rest = Some ("", rest)).
    { destruct rest as [ | x r]; [reflexivity | ].
      destruct Hend as [_ [Hdot _]]. unfold JSON.parse_fraction.
      destruct (Z.eqb_spec (code x) 46); [contradiction | reflexivity]. }
    rewrite Hfrac.
    assert (Hexp : JSON.parse_exponent rest = Some (0, rest)).
    { destruct rest as [ | x r]; [reflexivity | ].
      destruct Hend as [_ [_ [HE He]]]. unfold JSON.parse_exponent.
      destruct (Z.eqb_spec (code x) 101); [contradiction | ].
      destruct (Z.eqb_spec (code x) 69); [contradiction | ]. reflexivity. }
    rewrite Hexp. reflexivity.
  - destruct (Z.ltb_spec (Z.abs z) (10 ^ 21)) as [_ | Hbig]; [ | lia].
    destruct (decimal_spec (Z.abs z) ltac:(lia)) as [Hall [Hval [Hlead Hne]]].
    specialize (Hlead ltac:(lia)).
    destruct (Z.ltb_spec z 0) as [Hneg | Hpos].
    + cbn [append]. unfold JSON.parse_number.
      change (code "-" =? 45) with true. cbv iota.
      rewrite (parse_unsigned_digits true _ _ Hall Hlead Hend), Hval.
      rewrite make_number_int by lia. repeat f_equal. lia.
    + cbn [append]. unfold JSON.parse_number.
      destruct (decimal (Z.abs z)) as [ | c ds] eqn:Hdec; [congruence | ].
      cbn [append].
      assert (Hc : code c <> 45).
      { simpl in Hall. apply andb_prop in Hall. destruct Hall as [Hc _].
        digit_cases Hc; discriminate. }
      destruct (Z.eqb_spec (code c) 45); [contradiction | ].
      change (String c (ds ++ rest)) with (String c ds ++ rest).
      rewrite (parse_unsigned_digits false _ _ Hall Hlead Hend), Hval.
      rewrite make_number_int by lia. repeat f_equal. lia.
Qed.


(** ** JSON: values *)

Lemma JsVal_nested_ind (P : JsVal -> Prop) :
  P VNull ->
  (forall b, P (VBool b)) ->
  (forall n, P (VNum n)) ->
  (forall s, P (VStr s)) ->
  (forall elems, Forall P elems -> P (VArr elems)) ->
  (forall props, Forall (fun kv => P (snd kv)) props -> P (VObj props)) ->
  forall v, P v.
Proof.
  intros Hnull Hbool Hnum Hstr Harr Hobj.
  fix IH 1. intros [ | b | n | s | elems | props].
  - exact Hnull.
  - apply Hbool.
  - apply Hnum.
  - apply Hstr.
  - apply Harr. induction elems as [ | e elems IHl]; constructor.
    + apply IH.
    + exact IHl.
  - apply Hobj. induction props as [ | [k x] props IHl]; constructor.
    + apply IH.
    + exact IHl.
Qed.

Lemma all_ws_app s1 s2 :
  JSON.all_ws (s1 ++ s2) = JSON.all_ws s1 && JSON.all_ws s2.
Proof.
  induction s1 as [ | c s1 IH]; simpl; [reflexivity | ].
  rewrite IH, andb_assoc. reflexivity.
Qed.

Lemma skip_ws_all_ws ws rest :
  JSON.all_ws ws = true -> JSON.skip_ws (ws ++ rest) = JSON.skip_ws rest.
Proof.
  induction ws as [ | c ws IH]; simpl; [reflexivity | ].
  intros H. apply andb_prop in H. destruct H as [Hc Hws].
  rewrite Hc. exact (IH Hws).
Qed.

Lemma skip_ws_head c r :
  JSON.is_ws c = false -> JSON.skip_ws (String c r) = String c r.
Proof. intros H. simpl. rewrite H. reflexivity. Qed.

Lemma parse_value_skip_ws fuel ws s :
  JSON.all_ws ws = true ->
  JSON.parse_value fuel (ws ++ s) = JSON.parse_value fuel s.
Proof.
  intros H. destruct fuel; [reflexivity | ].
  cbn [JSON.parse_value]. rewrite (skip_ws_all_ws _ _ H). reflexivity.
Qed.

Lemma parse_value_skip_space fuel s :
  JSON.parse_value fuel (String " " s) = JSON.parse_value fuel s.
Proof. exact (parse_value_skip_ws fuel " " s eq_refl). Qed.

Lemma parse_members_skip_ws fuel ws s acc :
  JSON.all_ws ws = true ->
  JSON.parse_members fuel (ws ++ s) acc = JSON.parse_members fuel s acc.
Proof.
  intros H. destruct fuel; [reflexivity | ].
  cbn [JSON.parse_members]. rewrite (skip_ws_all_ws _ _ H). reflexivity.
Qed.

Lemma Number_toString_head z :
  Z.abs z < 10 ^ 21 ->
  exists c r, Number_toString (NumInt z) = String c r
              /\ (code c = 45 \/ is_digit c = true).
Proof.
  intros Hsmall. unfold Number_toString.
  destruct (Z.eqb_spec z 0) as [-> | Hz].
  - exists "0"%char, "". split; [reflexivity | right; reflexivity].
  - destruct (Z.ltb_spec (Z.abs z) (10 ^ 21)) as [_ | Hbig]; [ | lia].
    destruct (Z.ltb_spec z 0) as [Hneg | Hpos].
    + cbn [append]. eexists. eexists. split; [reflexivity | left; reflexivity].
    + destruct (decimal_spec (Z.abs z) ltac:(lia)) as [Hall [_ [_ Hne]]].
      destruct (decimal (Z.abs z)) as [ | c ds]; [congruence | ].
      simpl in Hall. apply andb_prop in Hall. destruct Hall as [Hc _].
      exists c, ds. cbn [append]. split; [reflexivity | right; exact Hc].
Qed.

Lemma safe_integerb_small z :
  JSON.safe_integerb z = true -> Z.abs z < 10 ^ 21.
Proof.
  unfold JSON.safe_integerb, MAX_SAFE_INTEGER. intros H.
  apply andb_prop in H. destruct H as [H1 H2].
  apply Z.leb_le in H1, H2.
  change (2 ^ 53 - 1) with 9007199254740991 in *.
  change (10 ^ 21) with 1000000000000000000000. lia.
Qed.

Lemma has_key_app k acc props :
  JSON.has_key k (acc ++ props)%list
  = JSON.has_key k acc || JSON.has_key k props.
Proof.
  induction acc as [ | [k' x] acc IH]; simpl; [reflexivity | ].
  rewrite IH, orb_assoc. reflexivity.
Qed.

Lemma code_inj c c' : code c = code c' -> c = c'.
Proof.
  unfold code. intros H. apply N2Z.inj in H.
  rewrite <- (ascii_N_embedding c), <- (ascii_N_embedding c'), H. reflexivity.
Qed.

(** The branches of [parse_value], one equation each. *)
Lemma parse_value_string f r :
  JSON.parse_value (S f) (String JSON.dquote r)
  = match JSON.parse_chars r None with
    | Some (str, rest) => Some (VStr str, rest)
    | None => None
    end.
Proof. reflexivity. Qed.

Lemma parse_value_array f r :
  JSON.parse_value (S f) (String "[" r)
  = match JSON.skip_ws r with
    | String c' rest => if code c' =? 93 then Some (VArr [], rest)
                        else JSON.parse_elements f r []
    | EmptyString => None
    end.
Proof. reflexivity. Qed.

Lemma parse_value_object f r :
  JSON.parse_value (S f) (String "{" r)
  = match JSON.skip_ws r with
    | String c' rest => if code c' =? 125 then Some (VObj [], rest)
                        else JSON.parse_members f r []
    | EmptyString => None
    end.
Proof. reflexivity. Qed.

Lemma parse_value_number f c r :
  code c = 45 \/ is_digit c = true ->
  JSON.parse_value (S f) (String c r)
  = match JSON.parse_number (String c r) with
    | Some (x, rest) => Some (VNum x, rest)
    | None => None
    end.
Proof.
  intros [Hc | Hc].
  - apply (code_inj c "-"%char) in Hc. subst c. reflexivity.
  - digit_cases Hc; reflexivity.
Qed.

Lemma parse_elements_step f s acc :
  JSON.parse_elements (S f) s acc
  = match JSON.parse_value f s with
    | Some (v, r) =>
        match JSON.skip_ws r with
        | String c rest =>
            if code c =? 44 then JSON.parse_elements f rest (v :: acc)
            else if code c =? 93 then Some (VArr (rev (v :: acc)), rest)
            else None
        | EmptyString => None
        end
    | None => None
    end.
Proof. reflexivity. Qed.

Lemma parse_members_step f r acc :
  JSON.parse_members (S f) (String JSON.dquote r) acc
  = match JSON.parse_chars r None with
    | Some (k, r1) =>
        match JSON.skip_ws r1 with
        | String c r2 =>
            if code c =? 58 then
              match JSON.parse_value f r2 with
              | Some (v, r3) =>
                  match JSON.skip_ws r3 with
                  | String c' rest =>
                      if code c' =? 44
                      then JSON.parse_members f rest
                             (JSON.define_property acc k v)
                      else if code c' =? 125
                      then Some (VObj (JSON.define_property acc k v), rest)
                      else None
                  | EmptyString => None
                  end
              | None => None
              end
            else None
        | EmptyString => None
        end
    | None => None
    end.
Proof. reflexivity. Qed.

Lemma define_property_fresh acc k v :
  JSON.has_key k acc = false ->
  JSON.is_array_index k = false ->
  JSON.define_property acc k v = (acc ++ [(k, v)])%list.
Proof. unfold JSON.define_property. intros -> ->. reflexivity. Qed.

Lemma join_cons sep x y l :
  JSON.join sep (x :: y :: l) = x ++ sep ++ JSON.join sep (y :: l).
Proof. reflexivity. Qed.

Lemma colon_nonempty gap : gap <> "" -> JSON.colon gap = ": ".
Proof. destruct gap; [congruence | reflexivity]. Qed.

Lemma wrap_nonempty opening closing gap stepback indent x l :
  gap <> "" ->
  JSON.wrap opening closing gap stepback indent (x :: l)
  = opening ++ JSON.newline ++ indent
      ++ JSON.join ("," ++ JSON.newline ++ indent) (x :: l)
      ++ JSON.newline ++ stepback ++ closing.
Proof. destruct gap; [congruence | reflexivity]. Qed.

Lemma has_key_In k props k' x :
  JSON.has_key k props = false -> In (k', x) props -> String.eqb k' k = false.
Proof.
  induction props as [ | [k0 x0] props IH]; simpl; [tauto | ].
  intros H [E | Hin].
  - injection E as -> ->. apply orb_false_elim in H. destruct H as [H _].
    rewrite String.eqb_sym. exact H.
  - apply orb_false_elim in H. destruct H as [_ H]. exact (IH H Hin).
Qed.

Lemma append_char c s : String c "" ++ s = String c s.
Proof. reflexivity. Qed.

Lemma append_cons c s1 s2 : String c s1 ++ s2 = String c (s1 ++ s2).
Proof. reflexivity. Qed.

Lemma join_head sep x l c r :
  x = String c r -> exists r', JSON.join sep (x :: l) = String c r'.
Proof.
  intros ->. destruct l; cbn [JSON.join append]; eexists; reflexivity.
Qed.

Section RoundTrip.

Variable gap : string.
Hypothesis gap_blank : JSON.all_ws gap = true.
Hypothesis gap_nonempty : gap <> "".

Local Abbreviation ser := (JSON.SerializeJSONProperty gap).
Local Abbreviation reads_back := (JSON.reads_back gap).
Local Abbreviation member := (JSON.member gap).

Lemma ser_head indent v :
  JSON.stable v = true ->
  exists c r, ser indent v = String c r /\ JSON.value_head c.
Proof.
  unfold ser, JSON.value_head.
  destruct v as [ | [ | ] | [ | z | m e] | s | elems | props];
    cbn [JSON.SerializeJSONProperty JSON.stable JSON.QuoteJSONString];
    intros Hst; try discriminate Hst;
    try (eexists; eexists; split; [reflexivity | ];
         repeat split; discriminate).
  - destruct (Number_toString_head z (safe_integerb_small z Hst))
      as [c [r [Heq Hc]]].
    exists c, r. split; [exact Heq | ].
    destruct Hc as [Hc | Hc].
    + unfold JSON.is_ws. rewrite Hc. repeat split; discriminate.
    + digit_cases Hc; repeat split; discriminate.
  - unfold JSON.wrap. destruct (map _ elems); [ | destruct gap];
      cbn [append]; eexists; eexists; (split; [reflexivity | ]);
      repeat split; discriminate.
  - unfold JSON.wrap. destruct (map _ props); [ | destruct gap];
      cbn [append]; eexists; eexists; (split; [reflexivity | ]);
      repeat split; discriminate.
Qed.

Lemma reads_back_null : reads_back VNull.
Proof.
  intros _ indent rest fuel _ _ Hfuel.
  destruct fuel; [simpl in Hfuel; lia | reflexivity].
Qed.

Lemma reads_back_bool b : reads_back (VBool b).
Proof.
  intros _ indent rest fuel _ _ Hfuel.
  destruct fuel; [destruct b; simpl in Hfuel; lia | ].
  destruct b; reflexivity.
Qed.

Lemma reads_back_string s : reads_back (VStr s).
Proof.
  intros _ indent rest fuel _ _ Hfuel.
  destruct fuel; [simpl in Hfuel; lia | ].
  unfold ser. cbn [JSON.SerializeJSONProperty JSON.QuoteJSONString append].
  rewrite parse_value_string, append_assoc. cbn [append].
  rewrite parse_chars_quote_body. reflexivity.
Qed.

Lemma reads_back_number n : reads_back (VNum n).
Proof.
  intros Hst indent rest fuel _ Hend Hfuel.
  destruct n as [ | z | m e]; try discriminate Hst.
  cbn [JSON.stable] in Hst. apply safe_integerb_small in Hst.
  unfold ser in *. cbn [JSON.SerializeJSONProperty] in *.
  destruct (Number_toString_head z Hst) as [c [r [Heq Hc]]].
  destruct fuel; [rewrite Heq in Hfuel; simpl in Hfuel; lia | ].
  pose proof (parse_number_toString z rest Hst Hend) as Hnum.
  rewrite Heq in *. cbn [append] in *.
  rewrite (parse_value_number _ _ _ Hc), Hnum. reflexivity.
Qed.

(** The elements of an array, from any point on. *)
Lemma parse_elements_join indent' closing rest :
  JSON.all_ws indent' = true ->
  JSON.all_ws closing = true ->
  forall elems,
    Forall reads_back elems ->
    forallb JSON.stable elems = true ->
    elems <> [] ->
    forall pre acc fuel,
      JSON.all_ws pre = true ->
      (2 * String.length
             (JSON.join ("," ++ JSON.newline ++ indent')
                (map (ser indent') elems)) + 1 <= fuel)%nat ->
      JSON.parse_elements fuel
        (pre ++ JSON.join ("," ++ JSON.newline ++ indent')
                  (map (ser indent') elems)
             ++ closing ++ String "]" rest) acc
      = Some (VArr (rev acc ++ elems), rest).
Proof.
  intros Hindent Hclosing.
  induction elems as [ | e es IH]; intros HP Hst Hne pre acc fuel Hpre Hfuel;
    [congruence | ].
  inversion HP as [ | ? ? He Hes]; subst.
  cbn [forallb] in Hst. apply andb_prop in Hst. destruct Hst as [Hste Hstes].
  destruct fuel as [ | f]; [lia | ].
  rewrite parse_elements_step, (parse_value_skip_ws _ _ _ Hpre).
  destruct es as [ | e2 es'].
  - (* the last element *)
    cbn [map JSON.join] in *.
    rewrite (He Hste indent' (closing ++ String "]" rest) f Hindent).
    + rewrite (skip_ws_all_ws _ _ Hclosing), skip_ws_head by reflexivity.
      reflexivity.
    + destruct closing as [ | c cl]; [simpl; repeat split; discriminate | ].
      simpl in Hclosing. apply andb_prop in Hclosing.
      destruct Hclosing as [Hc _]. unfold JSON.is_ws in Hc.
      unfold JSON.value_end. cbn [append].
      destruct c as [[|] [|] [|] [|] [|] [|] [|] [|]]; try discriminate Hc;
        repeat split; discriminate.
    + lia.
  - (* an element followed by others *)
    change (map (ser indent') (e :: e2 :: es'))
      with (ser indent' e :: ser indent' e2 :: map (ser indent') es') in *.
    rewrite join_cons in *.
    change (ser indent' e2 :: map (ser indent') es')
      with (map (ser indent') (e2 :: es')) in *.
    rewrite !length_append in Hfuel.
    rewrite !append_assoc.
    rewrite (He Hste indent' _ f Hindent).
    + cbn [append]. rewrite skip_ws_head by reflexivity.
      change (code "," =? 44) with true. cbv iota.
      specialize (IH Hes Hstes ltac:(discriminate)
                    (JSON.newline ++ indent') (e :: acc) f).
      rewrite !append_assoc in IH. cbn [append] in IH.
      rewrite IH.
      * cbn [rev]. rewrite <- app_assoc. reflexivity.
      * rewrite all_ws_app, Hindent. reflexivity.
      * change (String.length ",") with 1%nat in Hfuel.
        change (String.length JSON.newline) with 1%nat in Hfuel.
        change (String "," (JSON.newline ++ indent'))
          with ("," ++ JSON.newline ++ indent'). lia.
    + cbn [append]. repeat split; discriminate.
    + lia.
Qed.

(** The members of an object, from any point on. *)
Lemma parse_members_join indent' closing rest :
  JSON.all_ws indent' = true ->
  JSON.all_ws closing = true ->
  forall props,
    Forall (fun kv => reads_back (snd kv)) props ->
    forallb (fun kv => JSON.stable (snd kv)) props = true ->
    JSON.keys_fresh props = true ->
    props <> [] ->
    forall pre acc fuel,
      JSON.all_ws pre = true ->
      (forall k x, In (k, x) props -> JSON.has_key k acc = false) ->
      (2 * String.length
             (JSON.join ("," ++ JSON.newline ++ indent')
                (map (member indent') props)) + 1 <= fuel)%nat ->
      JSON.parse_members fuel
        (pre ++ JSON.join ("," ++ JSON.newline ++ indent')
                  (map (member indent') props)
             ++ closing ++ String "}" rest) acc
      = Some (VObj (acc ++ props), rest).
Proof.
  intros Hindent Hclosing.
  induction props as [ | [k x] ps IH];
    intros HP Hst Hfresh Hne pre acc fuel Hpre Hacc Hfuel; [congruence | ].
  inversion HP as [ | ? ? Hx Hps]; subst. cbn [snd] in Hx.
  cbn [forallb snd] in Hst. apply andb_prop in Hst.
  destruct Hst as [Hstx Hstps].
  cbn [JSON.keys_fresh] in Hfresh.
  apply andb_prop in Hfresh. destruct Hfresh as [Hfresh Hfreshps].
  apply andb_prop in Hfresh. destruct Hfresh as [Hk Hidx].
  apply negb_true_iff in Hk, Hidx.
  assert (Hdef : JSON.define_property acc k x = (acc ++ [(k, x)])%list).
  { apply define_property_fresh; [ | exact Hidx].
    apply (Hacc k x). left. reflexivity. }
  destruct fuel as [ | f]; [lia | ].
  rewrite (parse_members_skip_ws _ _ _ _ Hpre).
  assert (Hend : forall tail,
             JSON.value_end (closing ++ String "}" tail)).
  { intros tail. destruct closing as [ | c cl];
      [simpl; repeat split; discriminate | ].
    simpl in Hclosing. apply andb_prop in Hclosing.
    destruct Hclosing as [Hc _]. unfold JSON.is_ws in Hc.
    unfold JSON.value_end. cbn [append].
    destruct c as [[|] [|] [|] [|] [|] [|] [|] [|]]; try discriminate Hc;
      repeat split; discriminate. }
  destruct ps as [ | [k2 x2] ps'].
  - (* the last member *)
    cbn [map JSON.join member] in *.
    rewrite (colon_nonempty _ gap_nonempty) in *.
    unfold JSON.QuoteJSONString in *.
    rewrite !length_append in Hfuel. cbn [String.length] in Hfuel.
    rewrite !length_append in Hfuel.
    cbn [append]. rewrite !append_assoc. cbn [append].
    rewrite parse_members_step, parse_chars_quote_body.
    rewrite skip_ws_head by reflexivity.
    change (code ":" =? 58) with true. cbv iota.
    rewrite parse_value_skip_space.
    rewrite (Hx Hstx indent' _ f Hindent (Hend rest)) by lia.
    rewrite (skip_ws_all_ws _ _ Hclosing), skip_ws_head by reflexivity.
    change (code "}" =? 44) with false. change (code "}" =? 125) with true.
    cbv iota. rewrite Hdef. reflexivity.
  - (* a member followed by others *)
    change (map (member indent') ((k, x) :: (k2, x2) :: ps'))
      with (member indent' (k, x)
              :: map (member indent') ((k2, x2) :: ps')) in *.
    cbn [map] in Hfuel |- *. rewrite join_cons in *.
    change (member indent' (k2, x2) :: map (member indent') ps')
      with (map (member indent') ((k2, x2) :: ps')) in *.
    cbn [member] in Hfuel |- *.
    rewrite (colon_nonempty _ gap_nonempty) in *.
    unfold JSON.QuoteJSONString in *.
    rewrite !length_append in Hfuel. cbn [String.length] in Hfuel.
    rewrite !length_append in Hfuel.
    change (String.length ",") with 1%nat in Hfuel.
    change (String.length JSON.newline) with 1%nat in Hfuel.
    cbn [append]. rewrite !append_assoc. cbn [append].
    rewrite parse_members_step, parse_chars_quote_body.
    rewrite skip_ws_head by reflexivity.
    change (code ":" =? 58) with true. cbv iota.
    rewrite parse_value_skip_space.
    rewrite (Hx Hstx indent' _ f Hindent);
      [ | repeat split; discriminate | lia].
    rewrite skip_ws_head by reflexivity.
    change (code "," =? 44) with true. cbv iota. rewrite Hdef.
    specialize (IH Hps Hstps Hfreshps ltac:(discriminate)
                  (JSON.newline ++ indent') (acc ++ [(k, x)])%list f).
    rewrite ?append_assoc in IH.
    change (String "," (JSON.newline ++ indent'))
      with ("," ++ JSON.newline ++ indent').
    rewrite ?append_assoc. rewrite IH.
    + rewrite <- app_assoc. reflexivity.
    + rewrite all_ws_app, Hindent. reflexivity.
    + intros k' x' Hin. rewrite has_key_app, (Hacc k' x') by (right; exact Hin).
      cbn [JSON.has_key orb]. rewrite orb_false_r.
      exact (has_key_In _ _ _ _ Hk Hin).
    + lia.
Qed.

Theorem reads_back_all v : reads_back v.
Proof.
  induction v as [ | b | n | s | elems IH | props IH] using JsVal_nested_ind.
  - apply reads_back_null.
  - apply reads_back_bool.
  - apply reads_back_number.
  - apply reads_back_string.
  - intros Hst indent rest fuel Hindent Hend Hfuel.
    cbn [JSON.stable] in Hst. unfold ser in Hfuel |- *.
    cbn [JSON.SerializeJSONProperty] in Hfuel |- *.
    destruct elems as [ | e es].
    + destruct fuel; [simpl in Hfuel; lia | reflexivity].
    + cbn [map] in Hfuel |- *.
      rewrite (wrap_nonempty _ _ _ _ _ _ _ gap_nonempty) in Hfuel |- *.
      fold ser in Hfuel |- *.
      change (ser (indent ++ gap) e :: map (ser (indent ++ gap)) es)
        with (map (ser (indent ++ gap)) (e :: es)) in Hfuel |- *.
      rewrite !length_append in Hfuel.
      change (String.length "[") with 1%nat in Hfuel.
      change (String.length JSON.newline) with 1%nat in Hfuel.
      destruct fuel as [ | f]; [lia | ].
      assert (Hst' := Hst). cbn [forallb] in Hst'.
      apply andb_prop in Hst'. destruct Hst' as [Hste _].
      destruct (ser_head (indent ++ gap) e Hste) as [c [r [Hc Hhead]]].
      destruct (join_head ("," ++ JSON.newline ++ indent ++ gap)
                  (ser (indent ++ gap) e)
                  (map (ser (indent ++ gap)) es) c r Hc) as [r' Hj].
      assert (Hindent' : JSON.all_ws (indent ++ gap) = true)
        by (rewrite all_ws_app, Hindent, gap_blank; reflexivity).
      rewrite !append_assoc, (append_char "["), (append_char "]").
      rewrite parse_value_array.
      rewrite (skip_ws_all_ws JSON.newline _ eq_refl).
      rewrite (skip_ws_all_ws _ _ Hindent), (skip_ws_all_ws _ _ gap_blank).
      change (map (ser (indent ++ gap)) (e :: es))
        with (ser (indent ++ gap) e :: map (ser (indent ++ gap)) es) at 1.
      rewrite Hj, (append_cons c r').
      change (ser (indent ++ gap) e :: map (ser (indent ++ gap)) es)
        with (map (ser (indent ++ gap)) (e :: es)).
      destruct Hhead as [Hws [H93 _]].
      rewrite (skip_ws_head _ _ Hws).
      destruct (Z.eqb_spec (code c) 93); [contradiction | ].
      pose proof (parse_elements_join (indent ++ gap) (JSON.newline ++ indent)
                    rest Hindent'
                    ltac:(rewrite all_ws_app, Hindent; reflexivity)
                    (e :: es) IH Hst ltac:(discriminate)
                    (JSON.newline ++ indent ++ gap) [] f
                    ltac:(rewrite all_ws_app, Hindent'; reflexivity)) as Hpe.
      rewrite !append_assoc in Hpe. apply Hpe. lia.
  - intros Hst indent rest fuel Hindent Hend Hfuel.
    cbn [JSON.stable] in Hst. apply andb_prop in Hst.
    destruct Hst as [Hfresh Hst].
    unfold ser in Hfuel |- *.
    cbn [JSON.SerializeJSONProperty] in Hfuel |- *.
    destruct props as [ | [k x] ps].
    + destruct fuel; [simpl in Hfuel; lia | reflexivity].
    + fold ser in Hfuel |- *.
      change (fun kv : string * JsVal =>
                let '(k0, x0) := kv in
                JSON.QuoteJSONString k0 ++ JSON.colon gap
                  ++ ser (indent ++ gap) x0)
        with (member (indent ++ gap)) in Hfuel |- *.
      cbn [map] in Hfuel |- *.
      rewrite (wrap_nonempty _ _ _ _ _ _ _ gap_nonempty) in Hfuel |- *.
      change (member (indent ++ gap) (k, x) :: map (member (indent ++ gap)) ps)
        with (map (member (indent ++ gap)) ((k, x) :: ps)) in Hfuel |- *.
      rewrite !length_append in Hfuel.
      change (String.length "{") with 1%nat in Hfuel.
      change (String.length JSON.newline) with 1%nat in Hfuel.
      destruct fuel as [ | f]; [lia | ].
      assert (Hindent' : JSON.all_ws (indent ++ gap) = true)
        by (rewrite all_ws_app, Hindent, gap_blank; reflexivity).
      destruct (join_head ("," ++ JSON.newline ++ indent ++ gap)
                  (member (indent ++ gap) (k, x))
                  (map (member (indent ++ gap)) ps) JSON.dquote
                  (JSON.quote_body k ++ String JSON.dquote ""
                     ++ JSON.colon gap ++ ser (indent ++ gap) x))
        as [r' Hj].
      { cbn [member]. unfold JSON.QuoteJSONString. cbn [append].
        rewrite append_assoc. reflexivity. }
      rewrite !append_assoc, (append_char "{"), (append_char "}").
      rewrite parse_value_object.
      rewrite (skip_ws_all_ws JSON.newline _ eq_refl).
      rewrite (skip_ws_all_ws _ _ Hindent), (skip_ws_all_ws _ _ gap_blank).
      change (map (member (indent ++ gap)) ((k, x) :: ps))
        with (member (indent ++ gap) (k, x)
                :: map (member (indent ++ gap)) ps) at 1.
      rewrite Hj, (append_cons JSON.dquote r').
      change (member (indent ++ gap) (k, x) :: map (member (indent ++ gap)) ps)
        with (map (member (indent ++ gap)) ((k, x) :: ps)).
      rewrite skip_ws_head by reflexivity.
      change (code JSON.dquote =? 125) with false. cbv iota.
      pose proof (parse_members_join (indent ++ gap) (JSON.newline ++ indent)
                    rest Hindent'
                    ltac:(rewrite all_ws_app, Hindent; reflexivity)
                    ((k, x) :: ps) IH Hst Hfresh ltac:(discriminate)
                    (JSON.newline ++ indent ++ gap) [] f
                    ltac:(rewrite all_ws_app, Hindent'; reflexivity)
                    ltac:(reflexivity)) as Hpm.
      rewrite !append_assoc in Hpm. apply Hpm. lia.
Qed.

End RoundTrip.

(** [JSON.stringify] with a positive indentation writes a stable value so
    that [JSON.parse] reads the same value back. *)
Theorem parse_stringify v n :
  JSON.stable v = true -> JSON.parse (JSON.stringify v (S n)) = Normal v.
Proof.
  intros Hst. unfold JSON.parse, JSON.stringify.
  set (gap := repeat_char " " (Nat.min (S n) 10)).
  assert (Hblank : JSON.all_ws gap = true).
  { unfold gap. induction (Nat.min (S n) 10) as [ | k IH];
      [reflexivity | exact IH]. }
  assert (Hne : gap <> "").
  { unfold gap. destruct n; discriminate. }
  set (text := JSON.SerializeJSONProperty gap "" v).
  pose proof (reads_back_all gap Hblank Hne v Hst "" ""
                (2 * String.length text + 2)%nat eq_refl I) as H.
  fold text in H. rewrite append_nil_r in H. rewrite H by lia. reflexivity.
Qed.

(** ** utils.js *)

Import Utils.

Lemma outcome_rethrow {A} (body : Eff A) (before : JsError -> Eff unit) :
  (forall e, outcome (before e) = Normal tt) ->
  outcome (try_catch body (fun e => before e ;;; throw e)) = outcome body.
Proof.
  intros Hb. rewrite outcome_try_catch. destruct (outcome body) as [a | e];
    [reflexivity | ].
  rewrite outcome_bind, Hb. reflexivity.
Qed.

(** The value of [emailToPhoneMap] after the loading block: the parsed
    text, or the empty object when the file cannot be read or parsed. *)
Lemma load_mapping_outcome disk p :
  outcome (load_mapping disk p)
  = Normal match readFile_result disk p with
           | Throw _ => VObj []
           | Normal text =>
               match JSON.parse text with
               | Throw _ => VObj []
               | Normal v => v
               end
           end.
Proof.
  unfold load_mapping, fs.readFile, warn_not_loaded.
  autorewrite with eff.
  destruct (readFile_result disk p) as [text | e]; autorewrite with eff;
    [ | reflexivity].
  destruct (JSON.parse text) as [v | e]; autorewrite with eff; [ | reflexivity].
  destruct (Object_keys_length v); autorewrite with eff; reflexivity.
Qed.

(** The loop over the records, when the mapping is an object and no
    recipient reaches [Object.prototype]. *)
Lemma collect_mapped mapping emails : forall phoneNumbers,
  forallb (fun email => negb (names_inherited mapping email)) emails = true ->
  outcome (collect_phone_numbers (VObj mapping) emails phoneNumbers)
  = Normal (phoneNumbers ++ map Own (mapped_phone_numbers mapping emails))%list.
Proof.
  induction emails as [ | email emails IH]; intros phoneNumbers Hno.
  - simpl. rewrite app_nil_r. reflexivity.
  - cbn [forallb] in Hno. apply andb_prop in Hno. destruct Hno as [Hhere Hno].
    unfold names_inherited in Hhere.
    cbn [collect_phone_numbers mapped_phone_numbers flat_map].
    fold (mapped_phone_numbers mapping emails).
    destruct (to email) as [ | | address]; try exact (IH _ Hno).
    destruct (truthy_string address) eqn:Haddr; cbn [andb];
      [ | destruct (own_property address mapping); exact (IH _ Hno)].
    rewrite outcome_bind. cbn [Get lift outcome snd].
    destruct (own_property address mapping) as [phone | ] eqn:Hown.
    + cbn [truthy_property]. destruct (truthy phone).
      * rewrite (IH _ Hno), map_app, <- app_assoc. reflexivity.
      * exact (IH _ Hno).
    + rewrite andb_true_r in Hhere. apply negb_true_iff in Hhere.
      rewrite Hhere. exact (IH _ Hno).
Qed.

(** What [saveEmailData] returns when the output file can be written. *)
Lemma saveEmailData_outcome host disk emails path :
  (forall file data, writeFile_result disk file data = Normal tt) ->
  outcome (saveEmailData host disk emails path)
  = match outcome (load_mapping disk (mapping_path host path)) with
    | Normal emailToPhoneMap =>
        outcome (collect_phone_numbers emailToPhoneMap emails [])
    | Throw e => Throw e
    end.
Proof.
  intros Hwrite. unfold saveEmailData.
  rewrite outcome_rethrow by reflexivity.
  unfold fs.mkdir, fs.writeFile. autorewrite with eff.
  destruct (mkdir_result disk _); autorewrite with eff; rewrite Hwrite;
    autorewrite with eff;
    (destruct (outcome (load_mapping disk (mapping_path host path)));
     [ | reflexivity]);
    autorewrite with eff;
    destruct (outcome (collect_phone_numbers _ emails []));
    autorewrite with eff; reflexivity.
Qed.

(** The output file is written first, whatever happens afterwards. *)
Lemma saveEmailData_writes host disk emails path :
  exists dir file rest,
    trace (saveEmailData host disk emails path)
    = Mkdir dir
        :: WriteFile file (JSON.stringify (VArr (map object_of emails)) 2)
        :: rest.
Proof.
  unfold saveEmailData.
  match goal with
  | |- context [trace (try_catch ?body ?handler)] =>
      destruct (trace_try_catch_prefix body handler) as [rest1 ->]
  end.
  cbv zeta.
  match goal with
  | |- context [trace (bind ?m ?k)] =>
      rewrite (trace_bind m k)
  end.
  assert (Hmk : forall dir,
             trace (try_catch (fs.mkdir disk dir) (fun _ => ret tt)) = [Mkdir dir]
             /\ outcome (try_catch (fs.mkdir disk dir) (fun _ => ret tt))
                = Normal tt).
  { intros dir. unfold fs.mkdir, try_catch, bind, emit, lift, ret.
    destruct (mkdir_result disk dir) as [[] | e]; split; reflexivity. }
  destruct (Hmk (path_join [cwd host; "output"])) as [-> ->].
  unfold fs.writeFile.
  match goal with
  | |- context [trace (bind ?m ?k)] =>
      destruct (trace_bind_prefix m k) as [rest2 ->]
  end.
  rewrite trace_emit_bind.
  eexists. eexists. eexists. cbn [app]. reflexivity.
Qed.

Lemma stable_object_of r :
  plain_timestamp r = true -> JSON.stable (object_of r) = true.
Proof.
  unfold plain_timestamp, object_of.
  destruct r as [i [ | | e] [ | | s] [ | | f] [ | | t] [ | | d]
                   [ | | [ | z | m x]]];
    cbn [timestamp]; intros H; try discriminate H;
    cbn; try reflexivity; rewrite H; reflexivity.
Qed.

Lemma stable_objects emails :
  forallb plain_timestamp emails = true ->
  JSON.stable (VArr (map object_of emails)) = true.
Proof.
  cbn [JSON.stable]. induction emails as [ | r emails IH]; [reflexivity | ].
  cbn [forallb map]. intros H. apply andb_prop in H. destruct H as [Hr Hrest].
  rewrite (stable_object_of r Hr), (IH Hrest). reflexivity.
Qed.

(** An object is read back as the record it was built from. *)
Lemma record_of_object_of r : record_of_object (object_of r) = Some r.
Proof.
  destruct r as [i [ | | e] [ | | s] [ | | f] [ | | t] [ | | d] [ | | n]];
    reflexivity.
Qed.

Lemma records_of_objects emails :
  records_of (map object_of emails) = Some emails.
Proof.
  induction emails as [ | r emails IH]; [reflexivity | ].
  cbn [map records_of]. rewrite record_of_object_of, IH. reflexivity.
Qed.

(** C9, as stated, fails: the record [extractEmailData] builds for a message
    whose timestamp does not parse has the timestamp NaN; [JSON.stringify]
    writes NaN as [null], and the record read back has a null timestamp. *)
Lemma NaN_timestamp_is_not_read_back :
  outcome (extractEmailData Samples.gmail "m3") = Normal Samples.record_NaN
  /\ exists dir file text rest parsed,
      trace (saveEmailData Samples.host Samples.disk_without_mapping
               [Samples.record_NaN] None)
      = Mkdir dir :: WriteFile file text :: rest
      /\ JSON.parse text = Normal parsed
      /\ records_of_json parsed = Some [Samples.record_null]
      /\ records_of_json parsed <> Some [Samples.record_NaN].
Proof.
  split; [reflexivity | ].
  do 5 eexists. split; [reflexivity | ]. split; [vm_compute; reflexivity | ].
  split; [reflexivity | discriminate].
Qed.

(** C9, amended: for every sequence of records whose timestamps are null or
    integers (within the safe-integer range, so not NaN), the text that
    [saveEmailData] writes to the output file parses, and the records read
    back from it are the input records, field for field. *)
Theorem saved_records_read_back :
  forall host disk emails path,
    forallb plain_timestamp emails = true ->
    exists dir file text rest,
      trace (saveEmailData host disk emails path)
      = Mkdir dir :: WriteFile file text :: rest
      /\ text = JSON.stringify (VArr (map object_of emails)) 2
      /\ exists parsed,
          JSON.parse text = Normal parsed
          /\ records_of_json parsed = Some emails.
Proof.
  intros host disk emails path Hplain.
  destruct (saveEmailData_writes host disk emails path)
    as [dir [file [rest Htrace]]].
  exists dir, file, (JSON.stringify (VArr (map object_of emails)) 2), rest.
  split; [exact Htrace | ]. split; [reflexivity | ].
  exists (VArr (map object_of emails)). split.
  - apply parse_stringify, stable_objects, Hplain.
  - apply records_of_objects.
Qed.

Lemma saved_records_read_back_witness :
  forallb plain_timestamp Samples.plain_records = true
  /\ exists dir file text rest,
      trace (saveEmailData Samples.host Samples.disk_without_mapping
               Samples.plain_records None)
      = Mkdir dir :: WriteFile file text :: rest
      /\ text = JSON.stringify (VArr (map object_of Samples.plain_records)) 2
      /\ exists parsed,
          JSON.parse text = Normal parsed
          /\ records_of_json parsed = Some Samples.plain_records.
Proof.
  split; [reflexivity | ].
  apply (saved_records_read_back Samples.host Samples.disk_without_mapping
           Samples.plain_records None).
  reflexivity.
Defined.

(** C6, as stated, fails: a recipient that is a key of the mapping is left
    out when the phone number mapped to it is the empty string. *)
Lemma blank_phone_number_is_dropped :
  JSON.parse Samples.blank_phone = Normal (VObj [("a@x.com", VStr "")])
  /\ map to Samples.two_records = [Has "a@x.com"; Has "b@x.com"]
  /\ own_property "a@x.com" [("a@x.com", VStr "")] = Some (VStr "")
  /\ outcome (saveEmailData Samples.host
                (Samples.disk_holding Samples.blank_phone)
                Samples.two_records None) = Normal []
  /\ outcome (saveEmailData Samples.host
                (Samples.disk_holding Samples.blank_phone)
                Samples.two_records None) <> Normal [Own (VStr "")].
Proof.
  split; [vm_compute; reflexivity | ]. split; [reflexivity | ].
  split; [reflexivity | ].
  assert (H : outcome (saveEmailData Samples.host
                         (Samples.disk_holding Samples.blank_phone)
                         Samples.two_records None) = Normal [])
    by (vm_compute; reflexivity).
  split; [exact H | rewrite H; discriminate].
Qed.

(** C6, amended: when the output file can be written and the mapping file
    holds a JSON object, and no recipient address that is missing from the
    mapping names a member of [Object.prototype], [saveEmailData] returns
    the mapped value of every record whose recipient address is non-empty
    and is a key of the mapping with a truthy (for a string: non-empty)
    value, in record order, duplicates included. *)
Theorem saveEmailData_phone_numbers :
  forall host disk emails path text mapping,
    (forall file data, writeFile_result disk file data = Normal tt) ->
    readFile_result disk (mapping_path host path) = Normal text ->
    JSON.parse text = Normal (VObj mapping) ->
    forallb (fun email => negb (names_inherited mapping email)) emails = true ->
    outcome (saveEmailData host disk emails path)
    = Normal (map Own (mapped_phone_numbers mapping emails)).
Proof.
  intros host disk emails path text mapping Hwrite Hread Hparse Hno.
  rewrite (saveEmailData_outcome _ _ _ _ Hwrite), load_mapping_outcome.
  rewrite Hread, Hparse. exact (collect_mapped mapping emails [] Hno).
Qed.

(** The example of the specification. *)
Lemma saveEmailData_phone_numbers_witness :
  JSON.parse Samples.one_phone = Normal (VObj [("a@x.com", VStr "555-0100")])
  /\ map to Samples.two_records = [Has "a@x.com"; Has "b@x.com"]
  /\ outcome (saveEmailData Samples.host
                (Samples.disk_holding Samples.one_phone)
                Samples.two_records None)
     = Normal [Own (VStr "555-0100")].
Proof.
  split; [vm_compute; reflexivity | ]. split; [reflexivity | ].
  apply (saveEmailData_phone_numbers Samples.host
           (Samples.disk_holding Samples.one_phone) Samples.two_records None
           Samples.one_phone [("a@x.com", VStr "555-0100")]).
  - reflexivity.
  - reflexivity.
  - vm_compute; reflexivity.
  - reflexivity.
Defined.

(** Without a readable mapping file the run goes on: the output file is
    written, the failure is logged as a warning, and nothing is looked up
    but the members of [Object.prototype]. *)
Lemma saveEmailData_without_mapping host disk emails path e :
  (forall file data, writeFile_result disk file data = Normal tt) ->
  readFile_result disk (mapping_path host path) = Throw e ->
  forallb (fun email => negb (names_inherited [] email)) emails = true ->
  outcome (saveEmailData host disk emails path) = Normal []
  /\ In (ConsoleWarn "Continuing without mapping functionality")
        (trace (load_mapping disk (mapping_path host path))).
Proof.
  intros Hwrite Hread Hno. split.
  - rewrite (saveEmailData_outcome _ _ _ _ Hwrite), load_mapping_outcome, Hread.
    rewrite (collect_mapped [] emails [] Hno).
    unfold mapped_phone_numbers.
    induction emails as [ | r emails IH]; [reflexivity | ].
    cbn [forallb] in Hno. apply andb_prop in Hno. destruct Hno as [_ Hno].
    cbn [flat_map]. destruct (to r); cbn [own_property app]; exact (IH Hno).
  - unfold load_mapping, fs.readFile, warn_not_loaded, try_catch, bind, emit,
      lift, ret. rewrite Hread. cbn. tauto.
Qed.

(** C7 at the failing input: the mapping file is missing and one record is
    addressed to [constructor]; the run does not fail and writes the
    output file, but the sequence it returns is not empty: it holds the
    [constructor] member that the empty object inherits. *)
Theorem missing_mapping_inherited_member :
  readFile_result Samples.disk_without_mapping
    (mapping_path Samples.host None)
  = Throw (Error "ENOENT: no such file or directory, open '/home/app/data/email-phone-map.json'")
  /\ map to Samples.to_constructor = [Has "constructor"]
  /\ (exists dir file rest,
         trace (saveEmailData Samples.host Samples.disk_without_mapping
                  Samples.to_constructor None)
         = Mkdir dir
             :: WriteFile file
                  (JSON.stringify (VArr (map object_of Samples.to_constructor)) 2)
             :: rest)
  /\ outcome (saveEmailData Samples.host Samples.disk_without_mapping
                Samples.to_constructor None)
     = Normal [Inherited "constructor"]
  /\ outcome (saveEmailData Samples.host Samples.disk_without_mapping
                Samples.to_constructor None)
     <> Normal [].
Proof.
  split; [reflexivity | ]. split; [reflexivity | ].
  split; [apply saveEmailData_writes | ].
  assert (H : outcome (saveEmailData Samples.host Samples.disk_without_mapping
                         Samples.to_constructor None)
              = Normal [Inherited "constructor"])
    by (vm_compute; reflexivity).
  split; [exact H | rewrite H; discriminate].
Qed.

(** ** auth.js: the callback listener *)

(** The listener and the settlement on the path without a usable code. *)
Lemma handler_no_code host env disk client req q :
  AuthLocal.query req = Normal q ->
  OAuth2.truthy_query (AuthLocal.lookup "code" q) = false ->
  AuthLocal.handler host env disk client req
  = ([WriteHead 400; ResEnd AuthLocal.failure_page; ServerClose;
      Reject (Error "No authorization code received")],
     Normal (Throw (Error "No authorization code received"))).
Proof.
  intros Hq Hcode. unfold AuthLocal.handler. rewrite Hq.
  cbn [lift bind try_catch].
  destruct (AuthLocal.lookup "code" q) as [c | ]; [ | reflexivity].
  rewrite Hcode. reflexivity.
Qed.

(** Every path through the handler stops the listener once. *)
Lemma handler_closes_once host env disk client req :
  AuthLocal.closes (trace (AuthLocal.handler host env disk client req)) = 1%nat.
Proof.
  unfold AuthLocal.handler, fs.writeFile.
  destruct (AuthLocal.query req) as [q | e]; [ | reflexivity].
  cbn [lift bind try_catch].
  destruct (AuthLocal.lookup "code" q) as [c | ]; [ | reflexivity].
  destruct (OAuth2.truthy_query (Some c)); [ | reflexivity].
  destruct (OAuth2.getToken (AuthLocal.provider env) client c) as [tokens | e];
    [ | reflexivity].
  destruct (writeFile_result disk (OAuth2.TOKEN_PATH host)
              (JSON.stringify tokens 0)) as [[] | e] eqn:Hw;
    cbn [lift bind emit try_catch ret app]; rewrite ?Hw; reflexivity.
Qed.

(** Every path through the handler settles the promise, once. *)
Lemma handler_settles_once host env disk client req :
  exists settlement,
    outcome (AuthLocal.handler host env disk client req) = Normal settlement
    /\ List.length
         (filter (fun ev => match ev with
                            | Resolve _ | Reject _ => true
                            | _ => false
                            end)
                 (trace (AuthLocal.handler host env disk client req)))
       = 1%nat.
Proof.
  unfold AuthLocal.handler, fs.writeFile.
  destruct (AuthLocal.query req) as [q | e];
    [ | eexists; split; reflexivity].
  cbn [lift bind try_catch].
  destruct (AuthLocal.lookup "code" q) as [c | ];
    [ | eexists; split; reflexivity].
  destruct (OAuth2.truthy_query (Some c)); [ | eexists; split; reflexivity].
  destruct (OAuth2.getToken (AuthLocal.provider env) client c) as [tokens | e];
    [ | eexists; split; reflexivity].
  destruct (writeFile_result disk (OAuth2.TOKEN_PATH host)
              (JSON.stringify tokens 0)) as [[] | e] eqn:Hw;
    cbn [lift bind emit try_catch ret app]; rewrite ?Hw;
    eexists; split; reflexivity.
Qed.

(** C8: in the local-callback flow, a redirect request without the [code]
    parameter is answered with status 400, the listener is stopped, and the
    pending authorization is rejected with an error, which is the outcome
    of [getNewToken]; and on every path through the handler, whatever the
    request and whatever fails, the listener is stopped exactly once. *)
Theorem missing_code_is_terminal :
  forall host env disk client req q,
    AuthLocal.query req = Normal q ->
    AuthLocal.lookup "code" q = None ->
    AuthLocal.handler host env disk client req
    = ([WriteHead 400; ResEnd AuthLocal.failure_page; ServerClose;
        Reject (Error "No authorization code received")],
       Normal (Throw (Error "No authorization code received")))
    /\ (AuthLocal.arrival env = AuthLocal.Redirect req ->
        outcome (AuthLocal.getNewToken host env disk client)
        = Throw (Error "No authorization code received"))
    /\ (forall env' disk' req',
           AuthLocal.closes
             (trace (AuthLocal.handler host env' disk' client req')) = 1%nat).
Proof.
  intros host env disk client req q Hq Hcode.
  assert (Hh := handler_no_code host env disk client req q Hq
                  ltac:(rewrite Hcode; reflexivity)).
  split; [exact Hh | ]. split.
  - intros Harr. unfold AuthLocal.getNewToken. rewrite Harr, Hh.
    destruct (AuthLocal.open_browser env); reflexivity.
  - intros env' disk' req'. apply handler_closes_once.
Qed.

Lemma missing_code_is_terminal_witness :
  AuthLocal.query Samples.request_without_code
  = Normal [("error", OAuth2.QString "access_denied")]
  /\ AuthLocal.lookup "code" [("error", OAuth2.QString "access_denied")] = None
  /\ AuthLocal.handler Samples.host
       (Samples.local_env Samples.request_without_code)
       Samples.disk_without_token Samples.client Samples.request_without_code
     = ([WriteHead 400; ResEnd AuthLocal.failure_page; ServerClose;
         Reject (Error "No authorization code received")],
        Normal (Throw (Error "No authorization code received")))
  /\ outcome (AuthLocal.getNewToken Samples.host
                (Samples.local_env Samples.request_without_code)
                Samples.disk_without_token Samples.client)
     = Throw (Error "No authorization code received").
Proof.
  split; [reflexivity | ]. split; [reflexivity | ].
  destruct (missing_code_is_terminal Samples.host
              (Samples.local_env Samples.request_without_code)
              Samples.disk_without_token Samples.client
              Samples.request_without_code
              [("error", OAuth2.QString "access_denied")] eq_refl eq_refl)
    as [Hh [Hp _]].
  split; [exact Hh | exact (Hp eq_refl)].
Defined.

(** With the code [ABC] the promise is resolved with the tokens exchanged
    for it, and the listener is stopped once, before the exchange. *)
Example redirect_with_code :
  AuthLocal.handler Samples.host (Samples.local_env Samples.request_with_code)
    Samples.disk_without_token Samples.client Samples.request_with_code
  = ([WriteHead 200; ResEnd AuthLocal.success_page; ServerClose;
      WriteFile "/home/app/token.json" (JSON.stringify Samples.tokens 0);
      ConsoleLog "Token stored to: /home/app/token.json";
      Resolve Samples.tokens],
     Normal (Normal Samples.tokens)).
Proof. reflexivity. Qed.

(** ** auth.js: the cached token *)

Lemma manual_getNewToken_disk host env disk disk' client :
  (forall file data,
      writeFile_result disk file data = writeFile_result disk' file data) ->
  AuthManual.getNewToken host env disk client
  = AuthManual.getNewToken host env disk' client.
Proof.
  intros Hw. unfold AuthManual.getNewToken, fs.writeFile.
  destruct (OAuth2.getToken (AuthManual.provider env) client
              (OAuth2.QString (AuthManual.answer env))) as [tokens | e];
    [ | reflexivity].
  cbn [lift bind emit]. rewrite Hw. reflexivity.
Qed.

Lemma local_getNewToken_disk host env disk disk' client :
  (forall file data,
      writeFile_result disk file data = writeFile_result disk' file data) ->
  AuthLocal.getNewToken host env disk client
  = AuthLocal.getNewToken host env disk' client.
Proof.
  intros Hw. unfold AuthLocal.getNewToken.
  destruct (AuthLocal.arrival env) as [e | req]; [reflexivity | ].
  assert (Hh : AuthLocal.handler host env disk client req
               = AuthLocal.handler host env disk' client req).
  { unfold AuthLocal.handler, fs.writeFile.
    destruct (AuthLocal.query req) as [q | e]; [ | reflexivity].
    cbn [lift bind try_catch].
    destruct (AuthLocal.lookup "code" q) as [c | ]; [ | reflexivity].
    destruct (OAuth2.truthy_query (Some c)); [ | reflexivity].
    destruct (OAuth2.getToken (AuthLocal.provider env) client c)
      as [tokens | e]; [ | reflexivity].
    cbn [lift bind emit]. rewrite Hw. reflexivity. }
  rewrite Hh. reflexivity.
Qed.

(** C10: a token file whose contents do not parse as JSON is treated like
    a missing one, in both variants of the module: the run is the same,
    event for event, as with the file absent, and its result is that of
    the new authorization flow, not a failure of the parse. *)
Theorem unparsable_token_is_absent_token :
  forall host disk disk' text e e',
    readFile_result disk (OAuth2.TOKEN_PATH host) = Normal text ->
    JSON.parse text = Throw e ->
    readFile_result disk' (OAuth2.TOKEN_PATH host) = Throw e' ->
    (forall file data,
        writeFile_result disk file data = writeFile_result disk' file data) ->
    (forall env,
        AuthManual.getAuthenticatedGmail host env disk
        = AuthManual.getAuthenticatedGmail host env disk'
        /\ exists client,
            outcome (AuthManual.getAuthenticatedGmail host env disk)
            = match outcome (AuthManual.getNewToken host env disk client) with
              | Normal _ => Normal (OAuth2.mkApi "v1" client)
              | Throw err => Throw err
              end)
    /\ (forall env,
           AuthLocal.getAuthenticatedGmail host env disk
           = AuthLocal.getAuthenticatedGmail host env disk'
           /\ exists client,
               outcome (AuthLocal.getAuthenticatedGmail host env disk)
               = match outcome (AuthLocal.getNewToken host env disk client) with
                 | Normal _ => Normal (OAuth2.mkApi "v1" client)
                 | Throw err => Throw err
                 end).
Proof.
  intros host disk disk' text e e' Hread Hparse Hread' Hw. split; intros env.
  - split.
    + unfold AuthManual.getAuthenticatedGmail, fs.readFile.
      rewrite Hread, Hread'. cbn [lift bind emit try_catch app].
      rewrite Hparse.
      rewrite (manual_getNewToken_disk host env disk disk' _ Hw). reflexivity.
    + exists (OAuth2.mkClient (AuthManual.CLIENT_ID env)
                (AuthManual.CLIENT_SECRET env) (AuthManual.REDIRECT_URI env)).
      unfold AuthManual.getAuthenticatedGmail, fs.readFile.
      rewrite Hread. cbn [lift bind emit try_catch app]. rewrite Hparse.
      autorewrite with eff.
      destruct (outcome (AuthManual.getNewToken host env disk _));
        autorewrite with eff; reflexivity.
  - split.
    + unfold AuthLocal.getAuthenticatedGmail, fs.readFile.
      rewrite Hread, Hread'. cbn [lift bind emit try_catch app].
      rewrite Hparse.
      rewrite (local_getNewToken_disk host env disk disk' _ Hw). reflexivity.
    + exists (OAuth2.mkClient (AuthLocal.CLIENT_ID env)
                (AuthLocal.CLIENT_SECRET env)
                (Some ("http://localhost:" ++ String_of_int AuthLocal.PORT
                         ++ "/oauth2callback"))).
      unfold AuthLocal.getAuthenticatedGmail, fs.readFile.
      rewrite Hread. cbn [lift bind emit try_catch app]. rewrite Hparse.
      autorewrite with eff.
      destruct (outcome (AuthLocal.getNewToken host env disk _));
        autorewrite with eff; reflexivity.
Qed.

Lemma unparsable_token_is_absent_token_witness :
  readFile_result Samples.disk_with_broken_token (OAuth2.TOKEN_PATH Samples.host)
  = Normal "{ access_token: "
  /\ JSON.parse "{ access_token: "
     = Throw (SyntaxError "Unexpected token in JSON")
  /\ AuthManual.getAuthenticatedGmail Samples.host Samples.manual_env
       Samples.disk_with_broken_token
     = AuthManual.getAuthenticatedGmail Samples.host Samples.manual_env
         Samples.disk_without_token
  /\ AuthLocal.getAuthenticatedGmail Samples.host
       (Samples.local_env Samples.request_with_code)
       Samples.disk_with_broken_token
     = AuthLocal.getAuthenticatedGmail Samples.host
         (Samples.local_env Samples.request_with_code)
         Samples.disk_without_token.
Proof.
  split; [reflexivity | ]. split; [reflexivity | ].
  destruct (unparsable_token_is_absent_token Samples.host
              Samples.disk_with_broken_token Samples.disk_without_token
              "{ access_token: " (SyntaxError "Unexpected token in JSON")
              (Error "ENOENT: no such file or directory, open '/home/app/token.json'")
              eq_refl eq_refl eq_refl (fun _ _ => eq_refl))
    as [Hmanual Hlocal].
  split.
  - exact (proj1 (Hmanual Samples.manual_env)).
  - exact (proj1 (Hlocal (Samples.local_env Samples.request_with_code))).
Defined.

(** With the broken token file the manual flow asks for the code, exchanges
    it and overwrites the file. *)
Example broken_token_starts_new_flow :
  AuthManual.getAuthenticatedGmail Samples.host Samples.manual_env
    Samples.disk_with_broken_token
  = ([ReadFile "/home/app/token.json";
      ConsoleLog
        "Authorize this app by visiting this URL: https://accounts.google.com/o/oauth2/v2/auth?access_type=offline";
      ConsoleLog
        "After authorization, copy the code from the redirect URL and enter it below:";
      Question "Enter the code: ";
      SetCredentials Samples.tokens;
      WriteFile "/home/app/token.json" (JSON.stringify Samples.tokens 0);
      ConsoleLog "Token stored to: /home/app/token.json"],
     Normal (OAuth2.mkApi "v1"
               (OAuth2.mkClient (Some "client-id") (Some "client-secret")
                  (Some "urn:ietf:wg:oauth:2.0:oob")))).
Proof. reflexivity. Qed.

(** Without a cached token, the rejection ends the run of
    [getAuthenticatedGmail]: the error is logged and thrown on, and no
    second attempt is made. *)
Example missing_code_fails_the_run :
  AuthLocal.getAuthenticatedGmail Samples.host
    (Samples.local_env Samples.request_without_code) Samples.disk_without_token
  = ([ReadFile "/home/app/token.json";
      ServerListen 3000;
      ConsoleLog "Listening for OAuth2 callback on port 3000";
      ConsoleLog
        "Opening browser for authentication: https://accounts.google.com/o/oauth2/v2/auth?access_type=offline";
      OpenBrowser "https://accounts.google.com/o/oauth2/v2/auth?access_type=offline";
      WriteHead 400; ResEnd AuthLocal.failure_page; ServerClose;
      Reject (Error "No authorization code received");
      ConsoleError "Error during authentication:"
        (Some (Error "No authorization code received"))],
     Throw (Error "No authorization code received")).
Proof. reflexivity. Qed.

(** ** [JSON.parse] on sample texts *)

Example parse_numbers :
  JSON.parse " [1, 2.50, -0, 1e2, 25E-1, true, false, null, [], {}] "
  = Normal (VArr [VNum (NumInt 1); VNum (NumDec 25 (-1)); VNum (NumInt 0);
                  VNum (NumInt 100); VNum (NumDec 25 (-1)); VBool true;
                  VBool false; VNull; VArr []; VObj []]).
Proof. vm_compute. reflexivity. Qed.

Example parse_rejects :
  forall text,
    In text ["01"; "[1,]"; "1."; ".5"; "+1"; "nul"; "null x"; ""; "{a: 1}";
             "[1 2]"; "- 1"] ->
    JSON.parse text = Throw (SyntaxError "Unexpected token in JSON").
Proof.
  intros text H. simpl in H.
  repeat (destruct H as [<- | H]; [vm_compute; reflexivity | ]).
  contradiction.
Qed.

(** A repeated key keeps its first place and its last value, and array
    indices come first, as in the object the engine builds. *)
Example define_property_orders_keys :
  JSON.define_property
    (JSON.define_property
       (JSON.define_property
          (JSON.define_property [] "b" (VNum (NumInt 1)))
          "10" (VNum (NumInt 2)))
       "b" (VNum (NumInt 3)))
    "9" (VNum (NumInt 4))
  = [("9", VNum (NumInt 4)); ("10", VNum (NumInt 2)); ("b", VNum (NumInt 3))].
Proof. vm_compute. reflexivity. Qed.

(* ===================================================================== *)
(** * Part III: whole runs and edge cases                                 *)
(* ===================================================================== *)

(** ** email-service.js: what an extraction reads, builds and sends *)

Ltac flatten_trace :=
  repeat first [rewrite <- app_assoc | progress cbn [app]].

Ltac in_trace :=
  repeat first [rewrite in_app_iff | progress cbn [In]];
  repeat first [left; reflexivity | right].

Lemma find_first {A} (p : A -> bool) before x after :
  p x = true -> (forall y, In y before -> p y = false) ->
  find p (before ++ x :: after) = Some x.
Proof.
  intros Hx Hb. induction before as [ | y before IH]; simpl.
  - rewrite Hx. reflexivity.
  - rewrite (Hb y) by (left; reflexivity). apply IH.
    intros z Hz. apply Hb. right. exact Hz.
Qed.

Lemma find_none {A} (p : A -> bool) l :
  (forall y, In y l -> p y = false) -> find p l = None.
Proof.
  induction l as [ | y l IH]; simpl; [reflexivity | ]. intros H.
  rewrite (H y) by (left; reflexivity). apply IH. intros z Hz. apply H.
  right. exact Hz.
Qed.

Lemma getHeaderValue_first headers name before header after :
  headers = (before ++ header :: after)%list ->
  Gmail.name header = name ->
  (forall h, In h before -> Gmail.name h <> name) ->
  getHeaderValue (Some headers) name = ret (Has (Gmail.value header)).
Proof.
  intros -> Hname Hbefore. unfold getHeaderValue.
  rewrite (find_first _ before header after); [reflexivity | | ].
  - rewrite Hname. apply String.eqb_refl.
  - intros h Hh. apply String.eqb_neq. apply Hbefore. exact Hh.
Qed.

Lemma getHeaderValue_none headers name :
  (forall h, In h headers -> Gmail.name h <> name) ->
  getHeaderValue (Some headers) name = ret Null.
Proof.
  intros Hnone. unfold getHeaderValue. rewrite find_none; [reflexivity | ].
  intros h Hh. apply String.eqb_neq. apply Hnone. exact Hh.
Qed.

(** The record of a message that comes back with its headers. *)
Lemma extractEmailData_with_headers gmail messageId msg headers :
  fetched gmail messageId = Normal msg ->
  Gmail.payload msg = Some (Gmail.mkPart (Some headers)) ->
  exists to_ date_ timestamp_,
    getHeaderValue (Some headers) "To" = ret to_
    /\ getHeaderValue (Some headers) "Date" = ret date_
    /\ extracted gmail messageId
       = mkEmail messageId Absent Absent Absent to_ date_ timestamp_.
Proof.
  unfold fetched, extracted, extractEmailData, Gmail.users_messages_get.
  intros -> Hpayload.
  cbn [bind emit lift try_catch app]. rewrite Hpayload.
  cbn [destructure_headers Gmail.headers bind ret getHeaderValue].
  destruct (find (fun h => (Gmail.name h =? "To")%string) headers);
    destruct (find (fun h => (Gmail.name h =? "Date")%string) headers);
    do 3 eexists; (split; [reflexivity | split; [reflexivity | ]]);
    reflexivity.
Qed.

(** X1: for a message that comes back with its headers, the record has no
    [error], and its [to] is the value of the first header named exactly
    [To], or null when no header has that name; later headers of the same
    name are not read.  The same holds of [date] and the [Date] header. *)
Theorem extractEmailData_reads_the_first_header :
  forall gmail messageId msg headers,
    fetched gmail messageId = Normal msg ->
    Gmail.payload msg = Some (Gmail.mkPart (Some headers)) ->
    let r := extracted gmail messageId in
    error r = Absent
    /\ (forall before header after,
           headers = (before ++ header :: after)%list ->
           Gmail.name header = "To" ->
           (forall h, In h before -> Gmail.name h <> "To") ->
           to r = Has (Gmail.value header))
    /\ ((forall h, In h headers -> Gmail.name h <> "To") -> to r = Null)
    /\ (forall before header after,
           headers = (before ++ header :: after)%list ->
           Gmail.name header = "Date" ->
           (forall h, In h before -> Gmail.name h <> "Date") ->
           date r = Has (Gmail.value header))
    /\ ((forall h, In h headers -> Gmail.name h <> "Date") -> date r = Null).
Proof.
  intros gmail messageId msg headers Hget Hpayload r.
  destruct (extractEmailData_with_headers gmail messageId msg headers Hget
              Hpayload) as [to_ [date_ [timestamp_ [Hto [Hdate Hr]]]]].
  subst r. rewrite Hr. cbn [error to date].
  split; [reflexivity | ]. repeat split.
  - intros before header after Hsplit Hname Hbefore.
    rewrite (getHeaderValue_first _ _ _ _ _ Hsplit Hname Hbefore) in Hto.
    injection Hto as <-. reflexivity.
  - intros Hnone. rewrite (getHeaderValue_none _ _ Hnone) in Hto.
    injection Hto as <-. reflexivity.
  - intros before header after Hsplit Hname Hbefore.
    rewrite (getHeaderValue_first _ _ _ _ _ Hsplit Hname Hbefore) in Hdate.
    injection Hdate as <-. reflexivity.
  - intros Hnone. rewrite (getHeaderValue_none _ _ Hnone) in Hdate.
    injection Hdate as <-. reflexivity.
Qed.

Lemma extractEmailData_reads_the_first_header_witness :
  to (extracted Scenarios.gmail_two_recipients "m1") = Has "a@x.com"
  /\ date (extracted Samples.gmail "m3") = Null.
Proof.
  split.
  - apply (proj1 (proj2
             (extractEmailData_reads_the_first_header
                Scenarios.gmail_two_recipients "m1" _ _ eq_refl eq_refl))
             [Gmail.mkHeader "Date" "Sat, 9 Mar 2024 10:00:00 -0500"]
             (Gmail.mkHeader "To" "a@x.com") [Gmail.mkHeader "To" "b@x.com"]);
      [reflexivity | reflexivity | ].
    intros h [<- | []]. discriminate.
  - apply (proj2 (proj2 (proj2 (proj2
             (extractEmailData_reads_the_first_header Samples.gmail "m3" _ _
                eq_refl eq_refl))))).
    intros h [<- | []]. discriminate.
Defined.
(** The record and the trace of an extraction, case by case. *)
Lemma extractEmailData_cases gmail messageId :
  let request := MessagesGet "me" messageId "metadata" ["To"; "Date"] in
  (exists to_ date_ timestamp_,
      to_ <> Absent /\ date_ <> Absent /\ timestamp_ <> Absent
      /\ extractEmailData gmail messageId
         = ([request],
            Normal (mkEmail messageId Absent Absent Absent to_ date_ timestamp_)))
  \/ (exists e,
         extractEmailData gmail messageId
         = ([request;
             ConsoleError ("Error extracting data from email " ++ messageId ++ ":")
               (Some e)],
            Normal (failure_record messageId e))).
Proof.
  intros request. unfold extractEmailData, Gmail.users_messages_get.
  destruct (Gmail.messages_get gmail "me" messageId "metadata" ["To"; "Date"])
    as [[mid th [[[hs | ]] | ] idate] | e];
    cbn [bind emit lift try_catch app destructure_headers getHeaderValue
           Gmail.payload Gmail.headers Gmail.internalDate ret throw];
    try (right; eexists; reflexivity).
  left.
  destruct (find (fun h => (Gmail.name h =? "To")%string) hs);
    destruct (find (fun h => (Gmail.name h =? "Date")%string) hs);
    cbn [bind ret app];
    (destruct idate as [s | ]; [destruct (truthy_string s) | ]);
    do 3 eexists; (split; [ | split; [ | split; [ | reflexivity]]]);
    discriminate.
Qed.

(** X2: every extraction resolves with a record of one of two shapes: with
    exactly the keys [id], [to], [date], [timestamp] and no [error], or
    the seven keys of the failure record, whose [error] is a message and
    whose [subject], [from], [to], [date] and [timestamp] are null. *)
Theorem extractEmailData_record_keys :
  forall gmail messageId,
    let r := extracted gmail messageId in
    outcome (extractEmailData gmail messageId) = Normal r
    /\ ((error r = Absent
         /\ Observe.keys (object_of r) = ["id"; "to"; "date"; "timestamp"])
        \/ (exists msg,
               error r = Has msg
               /\ object_of r
                  = VObj [("id", VStr messageId); ("error", VStr msg);
                          ("subject", VNull); ("from", VNull); ("to", VNull);
                          ("date", VNull); ("timestamp", VNull)])).
Proof.
  intros gmail messageId r. split; [apply extractEmailData_extracted | ].
  subst r. unfold extracted.
  destruct (extractEmailData_cases gmail messageId)
    as [[to_ [date_ [timestamp_ [Hto [Hdate [Hts ->]]]]]] | [e ->]].
  - left. cbn [outcome snd error]. split; [reflexivity | ].
    destruct to_, date_, timestamp_; try congruence; reflexivity.
  - right. exists (message e). split; reflexivity.
Qed.

(** X3: a metadata response without a [payload], or whose payload has no
    [headers], ends in the catch block: a TypeError is logged and the
    failure record is returned, whatever [internalDate] the response
    carried. *)
Theorem extractEmailData_malformed_response :
  forall gmail messageId msg,
    fetched gmail messageId = Normal msg ->
    Gmail.payload msg = None \/ Gmail.payload msg = Some (Gmail.mkPart None) ->
    exists e,
      ctor e = "TypeError"
      /\ extractEmailData gmail messageId
         = ([MessagesGet "me" messageId "metadata" ["To"; "Date"];
             ConsoleError
               ("Error extracting data from email " ++ messageId ++ ":")
               (Some e)],
            Normal (failure_record messageId e)).
Proof.
  intros gmail messageId msg Hget Hpayload.
  unfold fetched in Hget. unfold extractEmailData, Gmail.users_messages_get.
  rewrite Hget. destruct Hpayload as [Hp | Hp];
    cbn [bind emit lift try_catch app]; rewrite Hp;
    eexists; (split; [ | reflexivity]); reflexivity.
Qed.

(** X4: an extraction sends exactly one request, the metadata request for
    its message with the headers [To] and [Date], and nothing else happens
    but one [console.error], exactly when the record carries an [error]. *)
Theorem extractEmailData_one_request :
  forall gmail messageId,
    let request := MessagesGet "me" messageId "metadata" ["To"; "Date"] in
    (error (extracted gmail messageId) = Absent
     /\ trace (extractEmailData gmail messageId) = [request])
    \/ (exists e,
           error (extracted gmail messageId) = Has (message e)
           /\ trace (extractEmailData gmail messageId)
              = [request;
                 ConsoleError
                   ("Error extracting data from email " ++ messageId ++ ":")
                   (Some e)]).
Proof.
  intros gmail messageId request. unfold extracted.
  destruct (extractEmailData_cases gmail messageId)
    as [[to_ [date_ [timestamp_ [_ [_ [_ ->]]]]]] | [e ->]].
  - left. split; reflexivity.
  - right. exists e. split; reflexivity.
Qed.

Lemma Promise_all_traces {A} (ps : list (Eff A)) :
  trace (Promise_all ps) = List.concat (map trace ps).
Proof.
  induction ps as [ | [t r] ps IH]; [reflexivity | ].
  cbn [Promise_all map List.concat]. destruct (Promise_all ps) as [t' rs].
  cbn [trace fst] in *. rewrite IH. reflexivity.
Qed.

Lemma extractEmailData_requests gmail messageId :
  filter Observe.is_request (trace (extractEmailData gmail messageId))
  = [MessagesGet "me" messageId "metadata" ["To"; "Date"]].
Proof.
  destruct (extractEmailData_cases gmail messageId)
    as [[to_ [date_ [timestamp_ [_ [_ [_ ->]]]]]] | [e ->]]; reflexivity.
Qed.

Lemma extractions_requests gmail refs :
  filter Observe.is_request
    (List.concat (map trace
               (map (fun message => extractEmailData gmail (Gmail.id message))
                    refs)))
  = map (fun message => MessagesGet "me" (Gmail.id message) "metadata" ["To"; "Date"])
        refs.
Proof.
  induction refs as [ | m refs IH]; [reflexivity | ].
  cbn [map List.concat]. rewrite filter_app, extractEmailData_requests, IH.
  reflexivity.
Qed.

(** The whole trace of a run whose list call is answered. *)
Lemma fetchCVSEmails_trace host gmail data :
  listed host gmail = Normal data ->
  let query :=
    query_of (Calendar.YYYY_MM_DD
                (Calendar.days_before 6 (Calendar.local_date host))) in
  let count := String_of_int (Z.of_nat (List.length (refs_of data))) in
  trace (fetchCVSEmails host gmail)
  = (ConsoleLog ("Fetching emails with query: " ++ query)
       :: MessagesList "me" query 500
       :: ConsoleLog ("Found " ++ count ++ " emails matching the criteria")
       :: match refs_of data with
          | [] => []
          | _ :: _ =>
              ConsoleLog ("Processing all " ++ count ++ " emails simultaneously...")
                :: List.concat (map (fun message =>
                                  trace (extractEmailData gmail (Gmail.id message)))
                               (refs_of data))
                ++ [ConsoleLog ("Completed processing " ++ count ++ " emails")]
          end)%list.
Proof.
  intros Hlist query count. subst query count.
  rewrite <- formatted_lower_bound.
  unfold listed in Hlist. unfold fetchCVSEmails, Gmail.users_messages_list, refs_of.
  cbv zeta.
  generalize dependent
    (query_of (formatDate (Date.setDate (new_Date host)
                             (Date.getDate (new_Date host) - 6)))).
  intros query Hlist. rewrite Hlist. clear Hlist.
  destruct data as [[[ | m refs] | ]]; [reflexivity | | reflexivity].
  cbn [Gmail.messages]. set (refs' := m :: refs).
  destruct (extractions_fulfil gmail refs') as [records [Hall HF]].
  pose proof (Promise_all_traces
                (map (fun message => extractEmailData gmail (Gmail.id message))
                     refs')) as Htr.
  rewrite map_map in Htr.
  rewrite trace_try_catch, !outcome_bind, !trace_bind.
  autorewrite with eff. rewrite !trace_bind. autorewrite with eff.
  cbn [Gmail.messages].
  change (List.length refs' =? 0)%nat with false. cbv iota.
  rewrite !trace_bind. autorewrite with eff. rewrite Hall.
  rewrite !trace_bind. autorewrite with eff.
  rewrite Htr, length_map, (Forall2_length HF).
  generalize (String_of_int (Z.of_nat (Datatypes.length records))). intros n.
  reflexivity.
Qed.

(** X5: when the list call is answered, the requests of the run are one
    list request, with the query of the day and the cap of 500, followed
    by one metadata request per listed message, in list order; no second
    page is asked for. *)
Theorem fetchCVSEmails_requests :
  forall host gmail data,
    listed host gmail = Normal data ->
    filter Observe.is_request (trace (fetchCVSEmails host gmail))
    = MessagesList "me"
        (query_of (Calendar.YYYY_MM_DD
                     (Calendar.days_before 6 (Calendar.local_date host))))
        500
        :: map (fun message =>
                  MessagesGet "me" (Gmail.id message) "metadata" ["To"; "Date"])
               (refs_of data).
Proof.
  intros host gmail data Hlist.
  rewrite (fetchCVSEmails_trace host gmail data Hlist).
  generalize (query_of (Calendar.YYYY_MM_DD
                          (Calendar.days_before 6 (Calendar.local_date host)))).
  generalize (String_of_int (Z.of_nat (List.length (refs_of data)))).
  intros count query.
  cbn [filter Observe.is_request Observe.is_list Observe.is_get orb].
  f_equal. destruct (refs_of data) as [ | m refs] eqn:Hrefs; [reflexivity | ].
  cbn [filter Observe.is_request Observe.is_list Observe.is_get orb].
  rewrite filter_app. cbn [filter Observe.is_request Observe.is_list
                             Observe.is_get orb].
  rewrite app_nil_r, <- map_map. apply extractions_requests.
Qed.

Lemma fetchCVSEmails_list_rejected host gmail e :
  listed host gmail = Throw e ->
  fetchCVSEmails host gmail
  = (let query :=
       query_of (Calendar.YYYY_MM_DD
                   (Calendar.days_before 6 (Calendar.local_date host))) in
     [ConsoleLog ("Fetching emails with query: " ++ query);
      MessagesList "me" query 500;
      ConsoleError "Error fetching emails:" (Some e)],
     Throw e).
Proof.
  intros Hlist. cbv zeta. rewrite <- formatted_lower_bound.
  unfold listed in Hlist. unfold fetchCVSEmails, Gmail.users_messages_list.
  cbv zeta.
  generalize dependent
    (query_of (formatDate (Date.setDate (new_Date host)
                             (Date.getDate (new_Date host) - 6)))).
  intros query Hlist. rewrite Hlist. reflexivity.
Qed.

(** X6: [fetchCVSEmails] rejects exactly when the list call does, and then
    with the same error, after logging it; no metadata request is sent. *)
Theorem fetchCVSEmails_rejects_with_the_list_call :
  forall host gmail e,
    (outcome (fetchCVSEmails host gmail) = Throw e <-> listed host gmail = Throw e)
    /\ (listed host gmail = Throw e ->
        let query :=
          query_of (Calendar.YYYY_MM_DD
                      (Calendar.days_before 6 (Calendar.local_date host))) in
        trace (fetchCVSEmails host gmail)
        = [ConsoleLog ("Fetching emails with query: " ++ query);
           MessagesList "me" query 500;
           ConsoleError "Error fetching emails:" (Some e)]).
Proof.
  intros host gmail e. split; [split | ].
  - intros Hout. destruct (listed host gmail) as [data | e'] eqn:Hlist.
    + destruct (fetchCVSEmails_listed host gmail data Hlist) as [records [Hr _]].
      rewrite Hr in Hout. discriminate Hout.
    + rewrite (fetchCVSEmails_list_rejected host gmail e' Hlist) in Hout.
      cbn [outcome snd] in Hout. injection Hout as ->. reflexivity.
  - intros Hlist. rewrite (fetchCVSEmails_list_rejected host gmail e Hlist).
    reflexivity.
  - intros Hlist. rewrite (fetchCVSEmails_list_rejected host gmail e Hlist).
    reflexivity.
Qed.


Lemma extractEmailData_malformed_response_witness :
  fetched Scenarios.gmail_bare "m1"
  = Normal (Gmail.mkMessage "m1" "t1" None (Some "1709996400000"))
  /\ exists e,
      ctor e = "TypeError"
      /\ extractEmailData Scenarios.gmail_bare "m1"
         = ([MessagesGet "me" "m1" "metadata" ["To"; "Date"];
             ConsoleError "Error extracting data from email m1:" (Some e)],
            Normal (failure_record "m1" e)).
Proof.
  split; [reflexivity | ].
  apply (extractEmailData_malformed_response Scenarios.gmail_bare "m1"
           (Gmail.mkMessage "m1" "t1" None (Some "1709996400000")));
    [reflexivity | left; reflexivity].
Defined.

Lemma fetchCVSEmails_requests_witness :
  filter Observe.is_request (trace (fetchCVSEmails Samples.host Samples.gmail))
  = [MessagesList "me" "label:CVS subject:$4 Coupon! after:2024/03/04" 500;
     MessagesGet "me" "m1" "metadata" ["To"; "Date"];
     MessagesGet "me" "m2" "metadata" ["To"; "Date"];
     MessagesGet "me" "m3" "metadata" ["To"; "Date"]].
Proof.
  apply (fetchCVSEmails_requests Samples.host Samples.gmail
           (Gmail.mkList (Some Samples.refs))).
  reflexivity.
Defined.

Lemma fetchCVSEmails_rejects_with_the_list_call_witness :
  listed Samples.host Scenarios.gmail_offline
  = Throw (Error "getaddrinfo ENOTFOUND gmail.googleapis.com")
  /\ outcome (fetchCVSEmails Samples.host Scenarios.gmail_offline)
     = Throw (Error "getaddrinfo ENOTFOUND gmail.googleapis.com")
  /\ trace (fetchCVSEmails Samples.host Scenarios.gmail_offline)
     = [ConsoleLog
          "Fetching emails with query: label:CVS subject:$4 Coupon! after:2024/03/04";
        MessagesList "me" "label:CVS subject:$4 Coupon! after:2024/03/04" 500;
        ConsoleError "Error fetching emails:"
          (Some (Error "getaddrinfo ENOTFOUND gmail.googleapis.com"))].
Proof.
  split; [reflexivity | ].
  destruct (fetchCVSEmails_rejects_with_the_list_call Samples.host
              Scenarios.gmail_offline
              (Error "getaddrinfo ENOTFOUND gmail.googleapis.com"))
    as [Hiff Htrace].
  split.
  - apply Hiff. reflexivity.
  - apply Htrace. reflexivity.
Defined.

(** ** utils.js: the run of [saveEmailData] *)

Lemma collect_silent emailToPhoneMap emails : forall phoneNumbers,
  trace (collect_phone_numbers emailToPhoneMap emails phoneNumbers) = [].
Proof.
  induction emails as [ | email emails IH]; intros phoneNumbers;
    [reflexivity | ].
  cbn [collect_phone_numbers].
  destruct (to email) as [ | | address]; try apply IH.
  destruct (truthy_string address); [ | apply IH].
  rewrite trace_bind. cbn [lift outcome snd trace fst app].
  destruct (Get emailToPhoneMap address) as [[phone | ] | e];
    [ | apply IH | reflexivity].
  destruct (truthy_property (Some phone)); apply IH.
Qed.

Lemma mkdir_swallowed disk dir :
  try_catch (fs.mkdir disk dir) (fun _ => ret tt) = ([Mkdir dir], Normal tt).
Proof.
  unfold fs.mkdir, try_catch, bind, emit, lift, ret.
  destruct (mkdir_result disk dir) as [[] | e]; reflexivity.
Qed.

(** The run of [saveEmailData], stage by stage. *)
Lemma saveEmailData_cases host disk emails path :
  saveEmailData host disk emails path
  = let written := [Mkdir (Output.outputDir host);
                    WriteFile (Output.filePath host) (Output.text emails)] in
    let failed e := [ConsoleError "Error saving email data:" (Some e)] in
    match writeFile_result disk (Output.filePath host) (Output.text emails) with
    | Throw e => ((written ++ failed e)%list, Throw e)
    | Normal _ =>
        let saved :=
          [ConsoleLog ("Saved " ++ String_of_int (Z.of_nat (List.length emails))
                         ++ " emails to " ++ Output.filePath host)] in
        match load_mapping disk (mapping_path host path) with
        | (t1, Throw e) => ((written ++ saved ++ t1 ++ failed e)%list, Throw e)
        | (t1, Normal emailToPhoneMap) =>
            match outcome (collect_phone_numbers emailToPhoneMap emails []) with
            | Throw e =>
                ((written ++ saved ++ t1 ++ failed e)%list, Throw e)
            | Normal phoneNumbers =>
                ((written ++ saved ++ t1
                    ++ [ConsoleLog
                          ("Found "
                             ++ String_of_int
                                  (Z.of_nat (List.length phoneNumbers))
                             ++ " matching phone numbers")])%list,
                 Normal phoneNumbers)
            end
        end
    end.
Proof.
  unfold saveEmailData, Output.filePath, Output.outputDir, Output.text.
  cbv zeta. rewrite mkdir_swallowed. unfold fs.writeFile.
  generalize (path_join [path_join [cwd host; "output"];
                         "emails_" ++ formatTimestamp (new_Date host) ++ ".json"]).
  generalize (JSON.stringify (VArr (map object_of emails)) 2).
  generalize (path_join [cwd host; "output"]).
  generalize (String_of_int (Z.of_nat (List.length emails))).
  intros count dir data file.
  destruct (writeFile_result disk file data) as [[] | e];
    [ | reflexivity].
  destruct (load_mapping disk (mapping_path host path)) as [t1 [m | e]];
    [ | cbn [bind emit lift try_catch ret throw app]; flatten_trace;
        reflexivity].
  pose proof (collect_silent m emails []) as Hsilent.
  cbn [bind emit lift try_catch ret throw app].
  destruct (collect_phone_numbers m emails []) as [t2 [phones | e]];
    cbn [trace fst] in Hsilent; subst t2;
    cbn [bind emit lift try_catch ret throw app outcome snd]; flatten_trace;
    rewrite ?app_nil_r; reflexivity.
Qed.

Lemma load_mapping_cases disk p :
  load_mapping disk p
  = let warned e :=
      [ReadFile p;
       ConsoleWarn ("Warning: Could not load email-to-phone mapping from "
                      ++ p ++ ": " ++ message e);
       ConsoleWarn "Continuing without mapping functionality"] in
    match readFile_result disk p with
    | Throw e => (warned e, Normal (VObj []))
    | Normal text =>
        match JSON.parse text with
        | Throw e => (warned e, Normal (VObj []))
        | Normal parsed =>
            match Object_keys_length parsed with
            | Throw e => (warned e, Normal parsed)
            | Normal count =>
                ([ReadFile p;
                  ConsoleLog ("Loaded " ++ String_of_int (Z.of_nat count)
                                ++ " email-to-phone mappings")],
                 Normal parsed)
            end
        end
    end.
Proof.
  unfold load_mapping, fs.readFile, warn_not_loaded. cbv zeta.
  destruct (readFile_result disk p) as [text | e]; [ | reflexivity].
  cbn [bind emit lift try_catch ret app].
  destruct (JSON.parse text) as [parsed | e]; [ | reflexivity].
  cbn [bind emit lift try_catch ret app].
  destruct (Object_keys_length parsed) as [count | e]; reflexivity.
Qed.

Lemma load_mapping_reads disk disk' p :
  readFile_result disk' p = readFile_result disk p ->
  load_mapping disk' p = load_mapping disk p.
Proof. intros H. rewrite !load_mapping_cases, H. reflexivity. Qed.

(** X10: a failure of [fs.mkdir] is swallowed: two disks that answer alike
    to the writes and reads of a run give the same run, event for event
    and in its result, whatever [mkdir] does on either. *)
Theorem saveEmailData_ignores_mkdir_failure :
  forall host disk disk' emails path,
    (forall file data,
        writeFile_result disk' file data = writeFile_result disk file data) ->
    (forall file, readFile_result disk' file = readFile_result disk file) ->
    saveEmailData host disk' emails path = saveEmailData host disk emails path.
Proof.
  intros host disk disk' emails path Hwrite Hread.
  rewrite !saveEmailData_cases, Hwrite, (load_mapping_reads disk disk') by apply Hread.
  reflexivity.
Qed.

Lemma saveEmailData_ignores_mkdir_failure_witness :
  mkdir_result Scenarios.disk_mkdir_denied (Output.outputDir Samples.host)
  = Throw (Error "EACCES: permission denied, mkdir")
  /\ mkdir_result Samples.disk_without_mapping (Output.outputDir Samples.host)
     = Normal tt
  /\ saveEmailData Samples.host Scenarios.disk_mkdir_denied Samples.two_records None
     = saveEmailData Samples.host Samples.disk_without_mapping
         Samples.two_records None.
Proof.
  split; [reflexivity | ]. split; [reflexivity | ].
  apply (saveEmailData_ignores_mkdir_failure Samples.host
           Samples.disk_without_mapping Scenarios.disk_mkdir_denied
           Samples.two_records None); reflexivity.
Defined.

(** X11: when the output file cannot be written, [saveEmailData] logs the
    error and rejects with it; the mapping file is not read and no phone
    number is looked up. *)
Theorem saveEmailData_write_failure :
  forall host disk emails path e,
    writeFile_result disk (Output.filePath host) (Output.text emails) = Throw e ->
    saveEmailData host disk emails path
    = ([Mkdir (Output.outputDir host);
        WriteFile (Output.filePath host) (Output.text emails);
        ConsoleError "Error saving email data:" (Some e)],
       Throw e).
Proof.
  intros host disk emails path e Hwrite.
  rewrite saveEmailData_cases, Hwrite. reflexivity.
Qed.

Lemma saveEmailData_write_failure_witness :
  saveEmailData Samples.host Scenarios.disk_full Samples.two_records None
  = ([Mkdir "/home/app/output";
      WriteFile "/home/app/output/emails_2024-03-10_12-00-00.json"
        (Output.text Samples.two_records);
      ConsoleError "Error saving email data:"
        (Some (Error "ENOSPC: no space left on device, write"))],
     Throw (Error "ENOSPC: no space left on device, write")).
Proof.
  apply (saveEmailData_write_failure Samples.host Scenarios.disk_full
           Samples.two_records None
           (Error "ENOSPC: no space left on device, write")).
  reflexivity.
Defined.

(** The loop over the records with [null] in the place of the mapping. *)
Lemma collect_null emails : forall phoneNumbers,
  outcome (collect_phone_numbers VNull emails phoneNumbers)
  = match find Output.addressed emails with
    | None => Normal phoneNumbers
    | Some email =>
        match to email with
        | Has address =>
            Throw (TypeError ("Cannot read properties of null (reading '"
                                ++ address ++ "')"))
        | Null | Absent => Normal phoneNumbers
        end
    end.
Proof.
  induction emails as [ | email emails IH]; intros phoneNumbers;
    [reflexivity | ].
  cbn [collect_phone_numbers find]. unfold Output.addressed at 1.
  destruct (to email) as [ | | address] eqn:Hto; try apply IH.
  destruct (truthy_string address); [ | apply IH].
  rewrite Hto. reflexivity.
Qed.

(** X12: a mapping file that holds [null] is warned about ([Object.keys]
    throws) but stays in [emailToPhoneMap]: the first record with a
    non-empty recipient then makes the lookup throw a TypeError, and
    [saveEmailData] rejects with it after the output file has been written;
    with no such record the result is the empty sequence. *)
Theorem saveEmailData_null_mapping :
  forall host disk emails path text,
    (forall file data, writeFile_result disk file data = Normal tt) ->
    readFile_result disk (mapping_path host path) = Normal text ->
    JSON.parse text = Normal VNull ->
    (forall email address,
        find Output.addressed emails = Some email ->
        to email = Has address ->
        let e := TypeError ("Cannot read properties of null (reading '"
                              ++ address ++ "')") in
        outcome (saveEmailData host disk emails path) = Throw e
        /\ exists logged,
            trace (saveEmailData host disk emails path)
            = (Mkdir (Output.outputDir host)
                 :: WriteFile (Output.filePath host) (Output.text emails)
                 :: logged
                 ++ [ConsoleWarn "Continuing without mapping functionality";
                     ConsoleError "Error saving email data:" (Some e)])%list)
    /\ (find Output.addressed emails = None ->
        outcome (saveEmailData host disk emails path) = Normal []).
Proof.
  intros host disk emails path text Hwrite Hread Hparse.
  rewrite saveEmailData_cases, Hwrite, load_mapping_cases, Hread, Hparse.
  cbv zeta. cbn [Object_keys_length]. rewrite collect_null. split.
  - intros email address Hfind Hto. rewrite Hfind, Hto. split; [reflexivity | ].
    exists [ConsoleLog
              ("Saved " ++ String_of_int (Z.of_nat (List.length emails))
                 ++ " emails to " ++ Output.filePath host);
            ReadFile (mapping_path host path);
            ConsoleWarn
              ("Warning: Could not load email-to-phone mapping from "
                 ++ mapping_path host path ++ ": "
                 ++ "Cannot convert undefined or null to object")].
    reflexivity.
  - intros Hnone. rewrite Hnone. reflexivity.
Qed.

Lemma saveEmailData_null_mapping_witness :
  JSON.parse "null" = Normal VNull
  /\ outcome (saveEmailData Samples.host Scenarios.disk_null_mapping
                Samples.two_records None)
     = Throw (TypeError "Cannot read properties of null (reading 'a@x.com')")
  /\ outcome (saveEmailData Samples.host Scenarios.disk_null_mapping
                [failure_record "m2" (Error "Requested entity was not found.")]
                None)
     = Normal [].
Proof.
  split; [reflexivity | ]. split.
  - exact (proj1 (proj1 (saveEmailData_null_mapping Samples.host
                           Scenarios.disk_null_mapping Samples.two_records None
                           "null" (fun _ _ => eq_refl) eq_refl eq_refl)
                    (Samples.received "m1" "a@x.com") "a@x.com"
                    eq_refl eq_refl)).
  - exact (proj2 (saveEmailData_null_mapping Samples.host
                    Scenarios.disk_null_mapping
                    [failure_record "m2" (Error "Requested entity was not found.")]
                    None "null" (fun _ _ => eq_refl) eq_refl eq_refl)
             eq_refl).
Defined.

(** The loop adds at most one number for each record with a recipient. *)
Lemma collect_bound emailToPhoneMap emails : forall phoneNumbers found,
  outcome (collect_phone_numbers emailToPhoneMap emails phoneNumbers)
  = Normal found ->
  (List.length found
   <= List.length phoneNumbers
      + List.length (filter Output.addressed emails))%nat.
Proof.
  induction emails as [ | email emails IH]; intros phoneNumbers found.
  - cbn. intros [= <-]. lia.
  - cbn [collect_phone_numbers filter]. unfold Output.addressed at 1.
    destruct (to email) as [ | | address];
      try (intros H; apply IH in H; exact H).
    destruct (truthy_string address);
      [ | intros H; apply IH in H; exact H].
    rewrite outcome_bind. cbn [lift outcome snd].
    destruct (Get emailToPhoneMap address) as [[phone | ] | e];
      [ | intros H; apply IH in H; cbn [List.length]; lia | discriminate].
    destruct (truthy_property (Some phone)); intros H; apply IH in H;
      rewrite ?length_app in H; cbn [List.length] in *; lia.
Qed.

(** X13: whatever the mapping, [saveEmailData] returns at most one phone
    number for each record with a non-empty recipient, so never more than
    there are records. *)
Theorem saveEmailData_at_most_one_number_per_record :
  forall host disk emails path phoneNumbers,
    outcome (saveEmailData host disk emails path) = Normal phoneNumbers ->
    (List.length phoneNumbers <= List.length (filter Output.addressed emails)
     <= List.length emails)%nat.
Proof.
  intros host disk emails path phoneNumbers. rewrite saveEmailData_cases.
  cbv zeta. intros Hout. split; [ | apply filter_length_le].
  destruct (writeFile_result disk _ _); [ | discriminate Hout].
  destruct (load_mapping disk _) as [t1 [m | e]]; [ | discriminate Hout].
  destruct (outcome (collect_phone_numbers m emails [])) as [found | e] eqn:Hc;
    [ | discriminate Hout].
  cbn [outcome snd] in Hout. injection Hout as <-.
  exact (collect_bound m emails [] found Hc).
Qed.

Lemma saveEmailData_at_most_one_number_per_record_witness :
  outcome (saveEmailData Samples.host (Samples.disk_holding Samples.one_phone)
             Samples.two_records None)
  = Normal [Own (VStr "555-0100")]
  /\ (1 <= 2 <= 2)%nat.
Proof.
  split; [vm_compute; reflexivity | ].
  apply (saveEmailData_at_most_one_number_per_record Samples.host
           (Samples.disk_holding Samples.one_phone) Samples.two_records None
           [Own (VStr "555-0100")]).
  vm_compute. reflexivity.
Defined.

(** X14: called with no records, [saveEmailData] still writes the output
    file, holding [[]], and returns the empty sequence, whatever the mapping
    file holds. *)
Theorem saveEmailData_of_no_records :
  forall host disk path,
    writeFile_result disk (Output.filePath host) "[]" = Normal tt ->
    outcome (saveEmailData host disk [] path) = Normal []
    /\ exists rest,
        trace (saveEmailData host disk [] path)
        = Mkdir (Output.outputDir host)
            :: WriteFile (Output.filePath host) "[]" :: rest.
Proof.
  intros host disk path Hwrite. rewrite saveEmailData_cases.
  change (Output.text []) with "[]". rewrite Hwrite. cbv zeta.
  destruct (load_mapping disk (mapping_path host path)) as [t1 [m | e]] eqn:Hload.
  - cbn [collect_phone_numbers outcome snd ret]. split; [reflexivity | ].
    eexists. reflexivity.
  - pose proof (load_mapping_outcome disk (mapping_path host path)) as H.
    rewrite Hload in H. discriminate H.
Qed.

Lemma saveEmailData_of_no_records_witness :
  outcome (saveEmailData Samples.host Scenarios.disk_null_mapping [] None)
  = Normal []
  /\ exists rest,
      trace (saveEmailData Samples.host Scenarios.disk_null_mapping [] None)
      = Mkdir "/home/app/output"
          :: WriteFile "/home/app/output/emails_2024-03-10_12-00-00.json" "[]"
          :: rest.
Proof.
  apply (saveEmailData_of_no_records Samples.host Scenarios.disk_null_mapping
           None).
  reflexivity.
Defined.

(** X15: a mapping file that does not parse as JSON is treated like a
    missing one: the result is the same and the runs differ only in the
    warning, which carries the message of the parse error. *)
Theorem unparsable_mapping_is_absent_mapping :
  forall host disk disk' emails path text e e',
    readFile_result disk (mapping_path host path) = Normal text ->
    JSON.parse text = Throw e ->
    readFile_result disk' (mapping_path host path) = Throw e' ->
    (forall file data,
        writeFile_result disk' file data = writeFile_result disk file data) ->
    outcome (saveEmailData host disk emails path)
    = outcome (saveEmailData host disk' emails path)
    /\ filter (fun ev => negb (Output.is_warning ev))
         (trace (saveEmailData host disk emails path))
       = filter (fun ev => negb (Output.is_warning ev))
           (trace (saveEmailData host disk' emails path))
    /\ (writeFile_result disk (Output.filePath host) (Output.text emails)
        = Normal tt ->
        In (ConsoleWarn
              ("Warning: Could not load email-to-phone mapping from "
                 ++ mapping_path host path ++ ": " ++ message e))
           (trace (saveEmailData host disk emails path))).
Proof.
  intros host disk disk' emails path text e e' Hread Hparse Hread' Hwrite.
  rewrite !saveEmailData_cases, Hwrite, !load_mapping_cases, Hread, Hparse,
    Hread'.
  cbv zeta.
  generalize (String_of_int (Z.of_nat (List.length emails))).
  generalize (Output.filePath host) (Output.text emails) (Output.outputDir host)
    (mapping_path host path).
  intros file data dir p count.
  destruct (writeFile_result disk file data) as [[] | e0].
  - destruct (outcome (collect_phone_numbers (VObj []) emails []))
      as [found | e1].
    + split; [reflexivity | ]. split; [reflexivity | ].
      intros _. cbn [In app]. do 4 right. left. reflexivity.
    + split; [reflexivity | ]. split; [reflexivity | ].
      intros _. cbn [In app]. do 4 right. left. reflexivity.
  - split; [reflexivity | ]. split; [reflexivity | ]. discriminate.
Qed.

Lemma unparsable_mapping_is_absent_mapping_witness :
  JSON.parse "{ a@x.com: " = Throw (SyntaxError "Unexpected token in JSON")
  /\ outcome (saveEmailData Samples.host Scenarios.disk_broken_mapping
                Samples.two_records None)
     = outcome (saveEmailData Samples.host Samples.disk_without_mapping
                  Samples.two_records None)
  /\ In (ConsoleWarn
           "Warning: Could not load email-to-phone mapping from /home/app/data/email-phone-map.json: Unexpected token in JSON")
        (trace (saveEmailData Samples.host Scenarios.disk_broken_mapping
                  Samples.two_records None)).
Proof.
  split; [reflexivity | ].
  destruct (unparsable_mapping_is_absent_mapping Samples.host
              Scenarios.disk_broken_mapping Samples.disk_without_mapping
              Samples.two_records None "{ a@x.com: "
              (SyntaxError "Unexpected token in JSON")
              (Error "ENOENT: no such file or directory, open '/home/app/data/email-phone-map.json'")
              eq_refl eq_refl eq_refl (fun _ _ => eq_refl))
    as [Hout [_ Hwarn]].
  split; [exact Hout | exact (Hwarn eq_refl)].
Defined.

(** ** The time stamp of the output file *)

Lemma Day_by_second t : Date.Day t = t / 1000 / 86400.
Proof. unfold Date.Day, Date.msPerDay. zdiv. Qed.

Lemma HourFromTime_by_second t : Date.HourFromTime t = (t / 1000 / 3600) mod 24.
Proof. unfold Date.HourFromTime, Date.msPerHour. zdiv. Qed.

Lemma MinFromTime_by_second t : Date.MinFromTime t = (t / 1000 / 60) mod 60.
Proof. unfold Date.MinFromTime, Date.msPerMinute. zdiv. Qed.

(** The calendar fields are those of the day. *)
Lemma calendar_fields_of_day t t' :
  Date.Day t = Date.Day t' ->
  Date.YearFromTime t = Date.YearFromTime t'
  /\ Date.MonthFromTime t = Date.MonthFromTime t'
  /\ Date.DateFromTime t = Date.DateFromTime t'.
Proof.
  intros H.
  unfold Date.DateFromTime, Date.MonthFromTime, Date.DayWithinYear,
    Date.InLeapYear, Date.YearFromTime.
  rewrite H. repeat split.
Qed.

(** The day is fixed by the calendar fields. *)
Lemma Day_of_calendar_fields t :
  Date.Day t
  = Date.DayFromYear (Date.YearFromTime t)
    + Date.month_start (Date.InLeapYear t) (Date.MonthFromTime t)
    + Date.DateFromTime t - 1.
Proof. unfold Date.DateFromTime, Date.DayWithinYear. lia. Qed.

Lemma clock_fields_range t :
  0 <= Date.HourFromTime t < 24 /\ 0 <= Date.MinFromTime t < 60
  /\ 0 <= Date.SecFromTime t < 60.
Proof.
  unfold Date.HourFromTime, Date.MinFromTime, Date.SecFromTime.
  repeat split; zdiv.
Qed.

(** The second of the day is fixed by the clock fields. *)
Lemma second_of_clock_fields t :
  (t / 1000) mod 86400
  = 3600 * Date.HourFromTime t + 60 * Date.MinFromTime t + Date.SecFromTime t.
Proof.
  rewrite HourFromTime_by_second, MinFromTime_by_second.
  unfold Date.SecFromTime, Date.msPerSecond. zdiv.
Qed.

Lemma formatTimestamp_fields d :
  formatTimestamp d
  = String_of_int (Date.getFullYear d) ++ "-"
      ++ Calendar.two_digits (Date.getMonth d + 1) ++ "-"
      ++ Calendar.two_digits (Date.getDate d) ++ "_"
      ++ Calendar.two_digits (Date.getHours d) ++ "-"
      ++ Calendar.two_digits (Date.getMinutes d) ++ "-"
      ++ Calendar.two_digits (Date.getSeconds d).
Proof.
  unfold formatTimestamp, Date.getMonth, Date.getDate, Date.getHours,
    Date.getMinutes, Date.getSeconds.
  pose proof (MonthFromTime_range (Date.LocalTime d)).
  pose proof (DateFromTime_range (Date.LocalTime d)).
  pose proof (clock_fields_range (Date.LocalTime d)).
  rewrite !padStart_two_digits by lia. reflexivity.
Qed.

Lemma append_inj_length (a a' b b' : string) :
  String.length a = String.length a' -> a ++ b = a' ++ b' -> a = a' /\ b = b'.
Proof.
  revert a'. induction a as [ | c a IH]; intros [ | c' a'] Hlen H;
    try discriminate Hlen.
  - split; [reflexivity | exact H].
  - cbn [append] in H. injection H as -> H. injection Hlen as Hlen.
    destruct (IH a' Hlen H) as [-> ->]. split; reflexivity.
Qed.

Lemma digit_char_inj d d' :
  0 <= d <= 9 -> 0 <= d' <= 9 -> digit_char d = digit_char d' -> d = d'.
Proof.
  intros H H' E.
  destruct (digit_char_is_digit d H) as [_ Hv].
  destruct (digit_char_is_digit d' H') as [_ Hv'].
  rewrite <- Hv, <- Hv', E. reflexivity.
Qed.

Lemma String_of_int_inj y y' :
  1000 <= y <= 9999 -> 1000 <= y' <= 9999 ->
  String_of_int y = String_of_int y' -> y = y'.
Proof.
  intros H H'. unfold String_of_int, Number_toString.
  destruct (Z.eqb_spec y 0); [lia | ]. destruct (Z.eqb_spec y' 0); [lia | ].
  destruct (Z.ltb_spec y 0); [lia | ]. destruct (Z.ltb_spec y' 0); [lia | ].
  rewrite !Z.abs_eq by lia.
  destruct (Z.ltb_spec y (10 ^ 21)); [ | lia].
  destruct (Z.ltb_spec y' (10 ^ 21)); [ | lia].
  cbn [append]. intros E.
  destruct (decimal_spec y ltac:(lia)) as [_ [Hv _]].
  destruct (decimal_spec y' ltac:(lia)) as [_ [Hv' _]].
  rewrite <- Hv, <- Hv', E. reflexivity.
Qed.

(** Two time stamps are the same text exactly when the local times fall in
    the same second. *)
Lemma formatTimestamp_same_second d d' :
  Date.LocalTime d / 1000 = Date.LocalTime d' / 1000 ->
  formatTimestamp d = formatTimestamp d'.
Proof.
  intros H. unfold formatTimestamp, Date.getFullYear, Date.getMonth,
    Date.getDate, Date.getHours, Date.getMinutes, Date.getSeconds.
  destruct (calendar_fields_of_day (Date.LocalTime d) (Date.LocalTime d'))
    as [-> [-> ->]].
  { rewrite !Day_by_second, H. reflexivity. }
  rewrite !HourFromTime_by_second, !MinFromTime_by_second, H.
  unfold Date.SecFromTime, Date.msPerSecond. rewrite H. reflexivity.
Qed.

Lemma formatTimestamp_inj d d' :
  1000 <= Date.getFullYear d <= 9999 ->
  1000 <= Date.getFullYear d' <= 9999 ->
  formatTimestamp d = formatTimestamp d' ->
  Date.LocalTime d / 1000 = Date.LocalTime d' / 1000.
Proof.
  intros Hy Hy' E. rewrite !formatTimestamp_fields in E.
  apply append_inj_length in E;
    [ | rewrite !decimal_four_digits by assumption; reflexivity].
  destruct E as [EY E]. apply String_of_int_inj in EY; try assumption.
  unfold Date.getFullYear, Date.getMonth, Date.getDate, Date.getHours,
    Date.getMinutes, Date.getSeconds in *.
  set (t := Date.LocalTime d) in *. set (t' := Date.LocalTime d') in *.
  pose proof (MonthFromTime_range t). pose proof (MonthFromTime_range t').
  pose proof (DateFromTime_range t). pose proof (DateFromTime_range t').
  pose proof (clock_fields_range t). pose proof (clock_fields_range t').
  cbn [append] in E. injection E as M1 M0 D1 D0 h1 h0 m1 m0 s1 s0.
  apply digit_char_inj in M1, M0, D1, D0, h1, h0, m1, m0, s1, s0; try zdiv.
  assert (EM : Date.MonthFromTime t = Date.MonthFromTime t') by zdiv.
  assert (ED : Date.DateFromTime t = Date.DateFromTime t') by zdiv.
  assert (Eh : Date.HourFromTime t = Date.HourFromTime t') by zdiv.
  assert (Em : Date.MinFromTime t = Date.MinFromTime t') by zdiv.
  assert (Es : Date.SecFromTime t = Date.SecFromTime t') by zdiv.
  clear M1 M0 D1 D0 h1 h0 m1 m0 s1 s0.
  assert (Hday : Date.Day t = Date.Day t').
  { rewrite (Day_of_calendar_fields t), (Day_of_calendar_fields t').
    unfold Date.InLeapYear. rewrite EY, ED, EM. reflexivity. }
  pose proof (second_of_clock_fields t) as Hs.
  pose proof (second_of_clock_fields t') as Hs'.
  rewrite !Day_by_second in Hday.
  rewrite Eh, Em, Es in Hs.
  rewrite <- Hs' in Hs. clear - Hday Hs. zdiv.
Qed.

(** ** Time stamps and dates as names *)

(** Within the years written with four digits, two time stamps are the
    same text exactly when the local times fall in the same second. *)
Lemma formatTimestamp_names_the_second :
  forall d d',
    1000 <= Date.getFullYear d <= 9999 ->
    1000 <= Date.getFullYear d' <= 9999 ->
    (formatTimestamp d = formatTimestamp d'
     <-> Date.LocalTime d / 1000 = Date.LocalTime d' / 1000).
Proof.
  intros d d' Hy Hy'. split.
  - apply formatTimestamp_inj; assumption.
  - apply formatTimestamp_same_second.
Qed.

Lemma all_digits_two_digits n :
  0 <= n < 100 -> all_digits (Calendar.two_digits n) = true.
Proof.
  intros H. unfold Calendar.two_digits. cbn [all_digits].
  destruct (digit_char_is_digit (n / 10) ltac:(zdiv)) as [-> _].
  destruct (digit_char_is_digit (n mod 10) ltac:(zdiv)) as [-> _].
  reflexivity.
Qed.

Lemma String_of_int_digits y :
  0 < y < 10 ^ 21 -> all_digits (String_of_int y) = true.
Proof.
  intros H. unfold String_of_int, Number_toString.
  destruct (Z.eqb_spec y 0); [lia | ].
  destruct (Z.ltb_spec y 0); [lia | ].
  rewrite Z.abs_eq by lia.
  destruct (Z.ltb_spec y (10 ^ 21)); [ | lia].
  cbn [append]. apply decimal_spec. lia.
Qed.

(** X8: for a local year written with four digits, [formatTimestamp] gives
    nineteen characters of the form [yyyy-MM-dd_HH-mm-ss]: every field is
    a run of digits of its full width, zero-padded. *)
Theorem formatTimestamp_fixed_width :
  forall d,
    1000 <= Date.getFullYear d <= 9999 ->
    String.length (formatTimestamp d) = 19%nat
    /\ exists yyyy MM dd HH mm ss,
        formatTimestamp d
        = yyyy ++ "-" ++ MM ++ "-" ++ dd ++ "_" ++ HH ++ "-" ++ mm ++ "-" ++ ss
        /\ Output.digits_of_length 4 yyyy /\ Output.digits_of_length 2 MM
        /\ Output.digits_of_length 2 dd /\ Output.digits_of_length 2 HH
        /\ Output.digits_of_length 2 mm /\ Output.digits_of_length 2 ss.
Proof.
  intros d Hy. rewrite formatTimestamp_fields.
  pose proof (MonthFromTime_range (Date.LocalTime d)).
  pose proof (DateFromTime_range (Date.LocalTime d)).
  pose proof (clock_fields_range (Date.LocalTime d)).
  split.
  - rewrite !length_append, (decimal_four_digits _ Hy). reflexivity.
  - do 6 eexists. split; [reflexivity | ].
    unfold Output.digits_of_length, Date.getMonth, Date.getDate, Date.getHours,
      Date.getMinutes, Date.getSeconds.
    rewrite (decimal_four_digits _ Hy), String_of_int_digits by lia.
    rewrite !all_digits_two_digits by lia.
    repeat split.
Qed.

(** The output file of a run: one name for each second of local time. *)
Lemma append_cancel_l (a b b' : string) : a ++ b = a ++ b' -> b = b'.
Proof.
  induction a as [ | c a IH]; cbn [append]; [tauto | ].
  intros H. injection H as H. exact (IH H).
Qed.

Lemma append_cancel_r (a a' b : string) : a ++ b = a' ++ b -> a = a'.
Proof.
  intros H. apply append_inj_length in H; [tauto | ].
  apply (f_equal String.length) in H. rewrite !length_append in H. lia.
Qed.

(** X9: in a working directory that is an absolute path other than the
    root, with no trailing separator and no empty, [.] or [..] segment (so
    that [path.join] has nothing to normalise), [saveEmailData] writes to
    [<cwd>/output/emails_<time stamp>.json], and (for local years written
    with four digits) two runs in that directory write to the same path
    exactly when their local times fall in the same second: a second save
    within the second overwrites the first, and saves in different seconds
    never share a file. *)
Theorem output_file_names_the_second :
  forall host host' disk emails path,
    Output.plain_directory (cwd host) = true ->
    cwd host = cwd host' ->
    1000 <= Date.getFullYear (new_Date host) <= 9999 ->
    1000 <= Date.getFullYear (new_Date host') <= 9999 ->
    (exists rest,
        trace (saveEmailData host disk emails path)
        = Mkdir (Output.outputDir host)
            :: WriteFile (Output.filePath host) (Output.text emails) :: rest)
    /\ (Output.filePath host = Output.filePath host'
        <-> (now host + LocalTZA host) / 1000
            = (now host' + LocalTZA host') / 1000).
Proof.
  intros host host' disk emails path _ Hcwd Hy Hy'. split.
  - rewrite saveEmailData_cases. cbv zeta.
    destruct (writeFile_result disk _ _); [ | eexists; reflexivity].
    destruct (load_mapping disk _) as [t1 [m | e]];
      [destruct (outcome (collect_phone_numbers m emails [])) | ];
      eexists; reflexivity.
  - change ((now host + LocalTZA host) / 1000)
      with (Date.LocalTime (new_Date host) / 1000).
    change ((now host' + LocalTZA host') / 1000)
      with (Date.LocalTime (new_Date host') / 1000).
    rewrite <- (formatTimestamp_names_the_second _ _ Hy Hy').
    unfold Output.filePath, Output.outputDir, path_join. cbn [JSON.join].
    rewrite Hcwd.
    generalize (formatTimestamp (new_Date host))
      (formatTimestamp (new_Date host')).
    intros ts ts'. split.
    + intros H. do 3 apply append_cancel_l in H.
      apply append_cancel_r in H. exact H.
    + intros ->. reflexivity.
Qed.

(** X7: for local years written with four digits, [formatDate] gives the
    same text for two dates exactly when they fall on the same local
    calendar day. *)
Theorem formatDate_names_the_day :
  forall d d',
    1000 <= Date.getFullYear d <= 9999 ->
    1000 <= Date.getFullYear d' <= 9999 ->
    (formatDate d = formatDate d'
     <-> Date.Day (Date.LocalTime d) = Date.Day (Date.LocalTime d')).
Proof.
  intros d d' Hy Hy'. split.
  - rewrite !formatDate_YYYY_MM_DD.
    unfold Calendar.YYYY_MM_DD, Calendar.of_time, Date.getFullYear in *.
    cbn [Calendar.year Calendar.month Calendar.day].
    set (t := Date.LocalTime d) in *. set (t' := Date.LocalTime d') in *.
    pose proof (MonthFromTime_range t). pose proof (MonthFromTime_range t').
    pose proof (DateFromTime_range t). pose proof (DateFromTime_range t').
    intros E. apply append_inj_length in E;
      [ | rewrite !decimal_four_digits by assumption; reflexivity].
    destruct E as [EY E]. apply String_of_int_inj in EY; try assumption.
    cbn [append] in E. injection E as M1 M0 D1 D0.
    apply digit_char_inj in M1, M0, D1, D0; try zdiv.
    assert (EM : Date.MonthFromTime t = Date.MonthFromTime t') by zdiv.
    assert (ED : Date.DateFromTime t = Date.DateFromTime t') by zdiv.
    rewrite (Day_of_calendar_fields t), (Day_of_calendar_fields t').
    unfold Date.InLeapYear. rewrite EY, ED, EM. reflexivity.
  - intros H. unfold formatDate, Date.getFullYear, Date.getMonth, Date.getDate.
    destruct (calendar_fields_of_day _ _ H) as [-> [-> ->]]. reflexivity.
Qed.


Lemma formatTimestamp_fixed_width_witness :
  1000 <= Date.getFullYear (new_Date Samples.host) <= 9999
  /\ formatTimestamp (new_Date Samples.host) = "2024-03-10_12-00-00"
  /\ String.length (formatTimestamp (new_Date Samples.host)) = 19%nat.
Proof.
  assert (Hy : 1000 <= Date.getFullYear (new_Date Samples.host) <= 9999)
    by (vm_compute; split; discriminate).
  split; [exact Hy | ]. split; [reflexivity | ].
  exact (proj1 (formatTimestamp_fixed_width (new_Date Samples.host) Hy)).
Defined.

Lemma output_file_names_the_second_witness :
  Output.plain_directory (cwd Samples.host) = true
  /\ Output.plain_directory "/" = false
  /\ Output.filePath Samples.host
     = "/home/app/output/emails_2024-03-10_12-00-00.json"
  /\ Output.filePath Samples.host = Output.filePath Scenarios.host_same_second
  /\ Output.filePath Samples.host <> Output.filePath Scenarios.host_next_second.
Proof.
  split; [reflexivity | ]. split; [reflexivity | ]. split; [reflexivity | ].
  assert (Hy : 1000 <= Date.getFullYear (new_Date Samples.host) <= 9999)
    by (vm_compute; split; discriminate).
  assert (Hy1 : 1000 <= Date.getFullYear (new_Date Scenarios.host_same_second)
                <= 9999)
    by (vm_compute; split; discriminate).
  assert (Hy2 : 1000 <= Date.getFullYear (new_Date Scenarios.host_next_second)
                <= 9999)
    by (vm_compute; split; discriminate).
  split.
  - apply (proj2 (output_file_names_the_second Samples.host
                    Scenarios.host_same_second Samples.disk_without_mapping
                    [] None eq_refl eq_refl Hy Hy1)).
    reflexivity.
  - intros H.
    apply (proj2 (output_file_names_the_second Samples.host
                    Scenarios.host_next_second Samples.disk_without_mapping
                    [] None eq_refl eq_refl Hy Hy2)) in H.
    discriminate H.
Defined.

Lemma formatDate_names_the_day_witness :
  formatDate (new_Date Samples.host) = "2024/03/10"
  /\ formatDate (new_Date Samples.host)
     = formatDate (new_Date Scenarios.host_next_second).
Proof.
  split; [reflexivity | ].
  apply (formatDate_names_the_day (new_Date Samples.host)
           (new_Date Scenarios.host_next_second)).
  - vm_compute; split; discriminate.
  - vm_compute; split; discriminate.
  - reflexivity.
Defined.

(** ** utils.js, the earlier revision *)

Lemma V1_saveEmailData_cases host disk emails :
  UtilsV1.saveEmailData host disk emails
  = let written := [Mkdir (Output.outputDir host);
                    WriteFile (Output.filePath host) (Output.text emails)] in
    match writeFile_result disk (Output.filePath host) (Output.text emails) with
    | Throw e =>
        ((written ++ [ConsoleError "Error saving email data:" (Some e)])%list,
         Throw e)
    | Normal _ =>
        ((written
            ++ [ConsoleLog
                  ("Saved " ++ String_of_int (Z.of_nat (List.length emails))
                     ++ " emails to " ++ Output.filePath host)])%list,
         Normal (Output.filePath host))
    end.
Proof.
  unfold UtilsV1.saveEmailData, Output.filePath, Output.outputDir, Output.text.
  cbv zeta. rewrite mkdir_swallowed. unfold fs.writeFile.
  change (UtilsV1.formatTimestamp (new_Date host))
    with (formatTimestamp (new_Date host)).
  generalize (path_join [path_join [cwd host; "output"];
                         "emails_" ++ formatTimestamp (new_Date host) ++ ".json"]).
  generalize (JSON.stringify (VArr (map object_of emails)) 2).
  generalize (path_join [cwd host; "output"]).
  generalize (String_of_int (Z.of_nat (List.length emails))).
  intros count dir data file.
  destruct (writeFile_result disk file data) as [[] | e]; reflexivity.
Qed.

(** X16: the earlier [saveEmailData] and the current one write the same
    file: the run of the current one starts with the run of the earlier
    one; the path the earlier one returns is the path it wrote to and
    logged; and when the write fails both reject with the same error after
    the same events. *)
Theorem revisions_write_the_same_file :
  forall host disk emails path,
    (exists rest,
        trace (saveEmailData host disk emails path)
        = (trace (UtilsV1.saveEmailData host disk emails) ++ rest)%list)
    /\ (forall file,
           outcome (UtilsV1.saveEmailData host disk emails) = Normal file ->
           file = Output.filePath host
           /\ trace (UtilsV1.saveEmailData host disk emails)
              = [Mkdir (Output.outputDir host);
                 WriteFile file (Output.text emails);
                 ConsoleLog
                   ("Saved " ++ String_of_int (Z.of_nat (List.length emails))
                      ++ " emails to " ++ file)])
    /\ (forall e,
           outcome (UtilsV1.saveEmailData host disk emails) = Throw e ->
           saveEmailData host disk emails path
           = (trace (UtilsV1.saveEmailData host disk emails), Throw e)).
Proof.
  intros host disk emails path.
  rewrite V1_saveEmailData_cases, saveEmailData_cases. cbv zeta.
  generalize (String_of_int (Z.of_nat (List.length emails))).
  generalize (Output.filePath host) (Output.text emails) (Output.outputDir host).
  intros file data dir count.
  destruct (writeFile_result disk file data) as [[] | e0];
    cbn [trace outcome fst snd app].
  - split; [ | split; [ | discriminate]].
    + destruct (load_mapping disk (mapping_path host path)) as [t1 [m | e]];
        [destruct (outcome (collect_phone_numbers m emails [])) | ];
        cbn [trace fst app]; eexists; reflexivity.
    + intros file' [= <-]. split; reflexivity.
  - split; [exists []; reflexivity | ]. split; [discriminate | ].
    intros e [= <-]. reflexivity.
Qed.

Lemma forEach_trace callback emails : forall index,
  (forall email i, outcome (callback email i) = Normal tt) ->
  trace (UtilsV1.forEach callback emails index)
  = flat_map (fun '(i, email) => trace (callback email i))
      (combine (seq index (List.length emails)) emails)
  /\ outcome (UtilsV1.forEach callback emails index) = Normal tt.
Proof.
  induction emails as [ | email emails IH]; intros index Hcb;
    [split; reflexivity | ].
  cbn [UtilsV1.forEach List.length seq combine flat_map].
  rewrite trace_bind, outcome_bind, Hcb.
  destruct (IH (S index) Hcb) as [-> ->]. split; reflexivity.
Qed.

Lemma V1_printEmailSummary_trace emails :
  UtilsV1.printEmailSummary emails
  = (ConsoleLog (JSON.newline ++ "===== Email Summary =====")
       :: ConsoleLog ("Total emails: "
                        ++ String_of_int (Z.of_nat (List.length emails)))
       :: flat_map (fun '(i, email) => Output.summary_block i email)
            (combine (seq 0 (List.length emails)) emails),
     Normal tt).
Proof.
  unfold UtilsV1.printEmailSummary.
  generalize (String_of_int (Z.of_nat (List.length emails))). intros count.
  destruct emails as [ | r emails]; [reflexivity | ].
  change (List.length (r :: emails) =? 0)%nat with false. cbv iota.
  match goal with
  | |- context [UtilsV1.forEach ?cb ?l ?i] =>
      destruct (forEach_trace cb l i) as [Ht Ho]; [reflexivity | ];
      destruct (UtilsV1.forEach cb l i) as [t o]
  end.
  cbn [trace outcome fst snd] in Ht, Ho. subst t o.
  cbn [bind emit app]. reflexivity.
Qed.

(** X17: the earlier [printEmailSummary], given the records that
    [extractEmailData] builds, prints the two header lines and five lines
    per record, numbered from 1; the [Subject] and [From] lines always
    read [N/A], since no record carries a subject or a sender. *)
Theorem summary_of_extracted_records :
  forall gmail ids,
    let emails := map (extracted gmail) ids in
    trace (UtilsV1.printEmailSummary emails)
    = ConsoleLog (JSON.newline ++ "===== Email Summary =====")
        :: ConsoleLog ("Total emails: "
                         ++ String_of_int (Z.of_nat (List.length ids)))
        :: flat_map
             (fun '(i, email) =>
                [ConsoleLog (JSON.newline ++ "--- Email "
                               ++ String_of_int (Z.of_nat i + 1) ++ " ---");
                 ConsoleLog "Subject: N/A";
                 ConsoleLog "From: N/A";
                 ConsoleLog ("To: " ++ UtilsV1.or_NA (to email));
                 ConsoleLog ("Date: " ++ UtilsV1.or_NA (date email))])
             (combine (seq 0 (List.length ids)) emails).
Proof.
  intros gmail ids emails. rewrite V1_printEmailSummary_trace.
  cbn [trace fst]. unfold emails. rewrite length_map. f_equal. f_equal.
  generalize 0%nat. induction ids as [ | messageId ids IH]; intros index;
    [reflexivity | ].
  cbn [map List.length seq combine flat_map]. rewrite IH. f_equal.
  unfold Output.summary_block, extracted.
  destruct (extractEmailData_cases gmail messageId)
    as [[to_ [date_ [timestamp_ [_ [_ [_ ->]]]]]] | [e ->]]; reflexivity.
Qed.

Lemma revisions_write_the_same_file_witness :
  outcome (UtilsV1.saveEmailData Samples.host Samples.disk_without_mapping
             Samples.two_records)
  = Normal "/home/app/output/emails_2024-03-10_12-00-00.json"
  /\ trace (UtilsV1.saveEmailData Samples.host Samples.disk_without_mapping
              Samples.two_records)
     = [Mkdir "/home/app/output";
        WriteFile "/home/app/output/emails_2024-03-10_12-00-00.json"
          (Output.text Samples.two_records);
        ConsoleLog
          "Saved 2 emails to /home/app/output/emails_2024-03-10_12-00-00.json"]
  /\ saveEmailData Samples.host Scenarios.disk_full Samples.two_records None
     = (trace (UtilsV1.saveEmailData Samples.host Scenarios.disk_full
                 Samples.two_records),
        Throw (Error "ENOSPC: no space left on device, write")).
Proof.
  split; [reflexivity | ].
  destruct (revisions_write_the_same_file Samples.host
              Samples.disk_without_mapping Samples.two_records None)
    as [_ [Hreturned _]].
  destruct (revisions_write_the_same_file Samples.host Scenarios.disk_full
              Samples.two_records None) as [_ [_ Hfailed]].
  split.
  - exact (proj2 (Hreturned _ eq_refl)).
  - exact (Hfailed _ eq_refl).
Defined.

(** ** JSON: the compact form *)

(** [JSON.stringify(value)], without indentation: the members follow each
    other with a comma and nothing else between them. *)
Section Compact.

Local Abbreviation ser := (JSON.SerializeJSONProperty "").
Local Abbreviation reads_back := (JSON.reads_back "").
Local Abbreviation member := (JSON.member "").

Lemma value_end_closing c rest :
  code c = 44 \/ code c = 93 \/ code c = 125 -> JSON.value_end (String c rest).
Proof.
  intros H. unfold JSON.value_end, is_digit.
  destruct H as [H | [H | H]]; rewrite H; repeat split; discriminate.
Qed.

Lemma ser_head_compact indent v :
  JSON.stable v = true ->
  exists c r, ser indent v = String c r /\ JSON.value_head c.
Proof.
  unfold JSON.value_head.
  destruct v as [ | [ | ] | [ | z | m e] | s | elems | props];
    cbn [JSON.SerializeJSONProperty JSON.stable JSON.QuoteJSONString];
    intros Hst; try discriminate Hst;
    try (eexists; eexists; split; [reflexivity | ];
         repeat split; discriminate).
  - destruct (Number_toString_head z (safe_integerb_small z Hst))
      as [c [r [Heq Hc]]].
    exists c, r. split; [exact Heq | ].
    destruct Hc as [Hc | Hc].
    + unfold JSON.is_ws. rewrite Hc. repeat split; discriminate.
    + digit_cases Hc; repeat split; discriminate.
  - unfold JSON.wrap. destruct (map _ elems);
      cbn [append]; eexists; eexists; (split; [reflexivity | ]);
      repeat split; discriminate.
  - unfold JSON.wrap. destruct (map _ props);
      cbn [append]; eexists; eexists; (split; [reflexivity | ]);
      repeat split; discriminate.
Qed.

Lemma parse_elements_compact indent rest :
  JSON.all_ws indent = true ->
  forall elems,
    Forall reads_back elems ->
    forallb JSON.stable elems = true ->
    elems <> [] ->
    forall acc fuel,
      (2 * String.length (JSON.join "," (map (ser indent) elems)) + 1 <= fuel)%nat ->
      JSON.parse_elements fuel
        (JSON.join "," (map (ser indent) elems) ++ String "]" rest) acc
      = Some (VArr (rev acc ++ elems), rest).
Proof.
  intros Hindent.
  induction elems as [ | e es IH]; intros HP Hst Hne acc fuel Hfuel;
    [congruence | ].
  inversion HP as [ | ? ? He Hes]; subst.
  cbn [forallb] in Hst. apply andb_prop in Hst. destruct Hst as [Hste Hstes].
  destruct fuel as [ | f]; [lia | ].
  rewrite parse_elements_step.
  destruct es as [ | e2 es'].
  - cbn [map JSON.join] in *.
    rewrite (He Hste indent (String "]" rest) f Hindent).
    + rewrite skip_ws_head by reflexivity. reflexivity.
    + apply value_end_closing. right. left. reflexivity.
    + lia.
  - change (map (ser indent) (e :: e2 :: es'))
      with (ser indent e :: ser indent e2 :: map (ser indent) es') in *.
    rewrite join_cons in *.
    change (ser indent e2 :: map (ser indent) es')
      with (map (ser indent) (e2 :: es')) in *.
    rewrite !length_append in Hfuel.
    change (String.length ",") with 1%nat in Hfuel.
    rewrite !append_assoc. cbn [append].
    rewrite (He Hste indent _ f Hindent).
    + rewrite skip_ws_head by reflexivity.
      change (code "," =? 44) with true. cbv iota.
      rewrite (IH Hes Hstes ltac:(discriminate) (e :: acc) f) by lia.
      cbn [rev]. rewrite <- app_assoc. reflexivity.
    + apply value_end_closing. left. reflexivity.
    + lia.
Qed.

Lemma parse_members_compact indent rest :
  JSON.all_ws indent = true ->
  forall props,
    Forall (fun kv => reads_back (snd kv)) props ->
    forallb (fun kv => JSON.stable (snd kv)) props = true ->
    JSON.keys_fresh props = true ->
    props <> [] ->
    forall acc fuel,
      (forall k x, In (k, x) props -> JSON.has_key k acc = false) ->
      (2 * String.length (JSON.join "," (map (member indent) props)) + 1
       <= fuel)%nat ->
      JSON.parse_members fuel
        (JSON.join "," (map (member indent) props) ++ String "}" rest) acc
      = Some (VObj (acc ++ props), rest).
Proof.
  intros Hindent.
  induction props as [ | [k x] ps IH];
    intros HP Hst Hfresh Hne acc fuel Hacc Hfuel; [congruence | ].
  inversion HP as [ | ? ? Hx Hps]; subst. cbn [snd] in Hx.
  cbn [forallb snd] in Hst. apply andb_prop in Hst.
  destruct Hst as [Hstx Hstps].
  cbn [JSON.keys_fresh] in Hfresh.
  apply andb_prop in Hfresh. destruct Hfresh as [Hfresh Hfreshps].
  apply andb_prop in Hfresh. destruct Hfresh as [Hk Hidx].
  apply negb_true_iff in Hk, Hidx.
  assert (Hdef : JSON.define_property acc k x = (acc ++ [(k, x)])%list).
  { apply define_property_fresh; [ | exact Hidx].
    apply (Hacc k x). left. reflexivity. }
  destruct fuel as [ | f]; [lia | ].
  destruct ps as [ | [k2 x2] ps'].
  - cbn [map JSON.join member JSON.member JSON.colon] in *.
    unfold JSON.QuoteJSONString in *.
    rewrite !length_append in Hfuel. cbn [String.length] in Hfuel.
    rewrite !length_append in Hfuel.
    cbn [append]. rewrite !append_assoc. cbn [append].
    rewrite parse_members_step, parse_chars_quote_body.
    rewrite skip_ws_head by reflexivity.
    change (code ":" =? 58) with true. cbv iota.
    rewrite (Hx Hstx indent _ f Hindent);
      [ | apply value_end_closing; right; right; reflexivity
        | cbn [String.length] in Hfuel; lia].
    rewrite skip_ws_head by reflexivity.
    change (code "}" =? 44) with false. change (code "}" =? 125) with true.
    cbv iota. rewrite Hdef. reflexivity.
  - change (map (member indent) ((k, x) :: (k2, x2) :: ps'))
      with (member indent (k, x) :: map (member indent) ((k2, x2) :: ps')) in *.
    cbn [map] in Hfuel |- *. rewrite join_cons in *.
    change (member indent (k2, x2) :: map (member indent) ps')
      with (map (member indent) ((k2, x2) :: ps')) in *.
    cbn [member JSON.member JSON.colon] in Hfuel |- *.
    unfold JSON.QuoteJSONString in *.
    rewrite !length_append in Hfuel. cbn [String.length] in Hfuel.
    rewrite !length_append in Hfuel.
    cbn [append]. rewrite !append_assoc. cbn [append].
    rewrite parse_members_step, parse_chars_quote_body.
    rewrite skip_ws_head by reflexivity.
    change (code ":" =? 58) with true. cbv iota.
    rewrite (Hx Hstx indent _ f Hindent);
      [ | apply value_end_closing; left; reflexivity
        | cbn [String.length] in Hfuel; lia].
    rewrite skip_ws_head by reflexivity.
    change (code "," =? 44) with true. cbv iota. rewrite Hdef.
    rewrite (IH Hps Hstps Hfreshps ltac:(discriminate)
               (acc ++ [(k, x)])%list f).
    + rewrite <- app_assoc. reflexivity.
    + intros k' x' Hin. rewrite has_key_app, (Hacc k' x') by (right; exact Hin).
      cbn [JSON.has_key orb]. rewrite orb_false_r.
      exact (has_key_In _ _ _ _ Hk Hin).
    + cbn [String.length] in Hfuel. lia.
Qed.

Lemma reads_back_compact v : reads_back v.
Proof.
  induction v as [ | b | n | s | elems IH | props IH] using JsVal_nested_ind.
  - apply reads_back_null.
  - apply reads_back_bool.
  - apply reads_back_number.
  - apply reads_back_string.
  - intros Hst indent rest fuel Hindent Hend Hfuel.
    cbn [JSON.stable] in Hst.
    cbn [JSON.SerializeJSONProperty] in Hfuel |- *.
    destruct elems as [ | e es].
    + destruct fuel; [simpl in Hfuel; lia | reflexivity].
    + cbn [map JSON.wrap] in Hfuel |- *.
      change (ser (indent ++ "") e :: map (ser (indent ++ "")) es)
        with (map (ser (indent ++ "")) (e :: es)) in Hfuel |- *.
      rewrite !length_append in Hfuel.
      change (String.length "[") with 1%nat in Hfuel.
      destruct fuel as [ | f]; [lia | ].
      assert (Hst' := Hst). cbn [forallb] in Hst'.
      apply andb_prop in Hst'. destruct Hst' as [Hste _].
      destruct (ser_head_compact (indent ++ "") e Hste) as [c [r [Hc Hhead]]].
      destruct (join_head "," (ser (indent ++ "") e)
                  (map (ser (indent ++ "")) es) c r Hc) as [r' Hj].
      assert (Hindent' : JSON.all_ws (indent ++ "") = true)
        by (rewrite append_nil_r; exact Hindent).
      rewrite !append_assoc, (append_char "["), (append_char "]").
      rewrite parse_value_array.
      change (map (ser (indent ++ "")) (e :: es))
        with (ser (indent ++ "") e :: map (ser (indent ++ "")) es) at 1.
      rewrite Hj, (append_cons c r').
      change (ser (indent ++ "") e :: map (ser (indent ++ "")) es)
        with (map (ser (indent ++ "")) (e :: es)).
      destruct Hhead as [Hws [H93 _]].
      rewrite (skip_ws_head _ _ Hws).
      destruct (Z.eqb_spec (code c) 93); [contradiction | ].
      apply (parse_elements_compact (indent ++ "") rest Hindent' (e :: es) IH
               Hst ltac:(discriminate) [] f).
      lia.
  - intros Hst indent rest fuel Hindent Hend Hfuel.
    cbn [JSON.stable] in Hst. apply andb_prop in Hst.
    destruct Hst as [Hfresh Hst].
    cbn [JSON.SerializeJSONProperty] in Hfuel |- *.
    destruct props as [ | [k x] ps].
    + destruct fuel; [simpl in Hfuel; lia | reflexivity].
    + change (fun kv : string * JsVal =>
                let '(k0, x0) := kv in
                JSON.QuoteJSONString k0 ++ JSON.colon ""
                  ++ ser (indent ++ "") x0)
        with (member (indent ++ "")) in Hfuel |- *.
      cbn [map JSON.wrap] in Hfuel |- *.
      change (member (indent ++ "") (k, x) :: map (member (indent ++ "")) ps)
        with (map (member (indent ++ "")) ((k, x) :: ps)) in Hfuel |- *.
      rewrite !length_append in Hfuel.
      change (String.length "{") with 1%nat in Hfuel.
      destruct fuel as [ | f]; [lia | ].
      assert (Hindent' : JSON.all_ws (indent ++ "") = true)
        by (rewrite append_nil_r; exact Hindent).
      destruct (join_head "," (member (indent ++ "") (k, x))
                  (map (member (indent ++ "")) ps) JSON.dquote
                  (JSON.quote_body k ++ String JSON.dquote ""
                     ++ JSON.colon "" ++ ser (indent ++ "") x))
        as [r' Hj].
      { cbn [member JSON.member]. unfold JSON.QuoteJSONString. cbn [append].
        rewrite append_assoc. reflexivity. }
      rewrite !append_assoc, (append_char "{"), (append_char "}").
      rewrite parse_value_object.
      change (map (member (indent ++ "")) ((k, x) :: ps))
        with (member (indent ++ "") (k, x)
                :: map (member (indent ++ "")) ps) at 1.
      rewrite Hj, (append_cons JSON.dquote r').
      change (member (indent ++ "") (k, x) :: map (member (indent ++ "")) ps)
        with (map (member (indent ++ "")) ((k, x) :: ps)).
      rewrite skip_ws_head by reflexivity.
      change (code JSON.dquote =? 125) with false. cbv iota.
      apply (parse_members_compact (indent ++ "") rest Hindent' ((k, x) :: ps)
               IH Hst Hfresh ltac:(discriminate) [] f ltac:(reflexivity)).
      lia.
Qed.

End Compact.

(** [JSON.parse(JSON.stringify(value))] is the value, when it is stable. *)
Lemma parse_stringify_compact v :
  JSON.stable v = true -> JSON.parse (JSON.stringify v 0) = Normal v.
Proof.
  intros Hst. unfold JSON.parse, JSON.stringify.
  change (repeat_char " " (Nat.min 0 10)) with "".
  set (text := JSON.SerializeJSONProperty "" "" v).
  pose proof (reads_back_compact v Hst "" ""
                (2 * String.length text + 2)%nat eq_refl I) as H.
  fold text in H. rewrite append_nil_r in H. rewrite H by lia. reflexivity.
Qed.

(** ** auth.js: the runs of the two variants *)

Import OAuth2.
Import AuthRuns.

Lemma manual_cached host env disk text credentials :
  readFile_result disk (TOKEN_PATH host) = Normal text ->
  JSON.parse text = Normal credentials ->
  AuthManual.getAuthenticatedGmail host env disk
  = ([ReadFile (TOKEN_PATH host); SetCredentials credentials],
     Normal (mkApi "v1" (manual_client env))).
Proof.
  intros Hread Hparse. unfold AuthManual.getAuthenticatedGmail, fs.readFile.
  rewrite Hread. cbn [lift bind emit try_catch app]. rewrite Hparse.
  reflexivity.
Qed.

Lemma local_cached host env disk text credentials :
  readFile_result disk (TOKEN_PATH host) = Normal text ->
  JSON.parse text = Normal credentials ->
  AuthLocal.getAuthenticatedGmail host env disk
  = ([ReadFile (TOKEN_PATH host); SetCredentials credentials],
     Normal (mkApi "v1" (local_client env))).
Proof.
  intros Hread Hparse. unfold AuthLocal.getAuthenticatedGmail, fs.readFile.
  rewrite Hread. cbn [lift bind emit try_catch app]. rewrite Hparse.
  reflexivity.
Qed.

(** X22: when the token file can be read and parses as JSON, whatever
    value it holds, both variants of [getAuthenticatedGmail] set it as the
    credentials and return the handle: nothing is asked, no listener is
    started, nothing is exchanged and nothing is written. *)
Theorem cached_token_is_used_as_is :
  forall host disk text credentials,
    readFile_result disk (TOKEN_PATH host) = Normal text ->
    JSON.parse text = Normal credentials ->
    (forall env,
        AuthManual.getAuthenticatedGmail host env disk
        = ([ReadFile (TOKEN_PATH host); SetCredentials credentials],
           Normal (mkApi "v1" (manual_client env))))
    /\ (forall env,
           AuthLocal.getAuthenticatedGmail host env disk
           = ([ReadFile (TOKEN_PATH host); SetCredentials credentials],
              Normal (mkApi "v1" (local_client env)))).
Proof.
  intros host disk text credentials Hread Hparse. split; intros env.
  - exact (manual_cached host env disk text credentials Hread Hparse).
  - exact (local_cached host env disk text credentials Hread Hparse).
Qed.

(** The manual variant without a usable cached token. *)
Lemma manual_new_token host env disk :
  no_cached_token host disk = true ->
  AuthManual.getAuthenticatedGmail host env disk
  = let client := manual_client env in
    let asked :=
      [ReadFile (TOKEN_PATH host);
       ConsoleLog ("Authorize this app by visiting this URL: "
                     ++ generateAuthUrl (AuthManual.provider env) client
                          "offline" SCOPES);
       ConsoleLog
         "After authorization, copy the code from the redirect URL and enter it below:";
       Question "Enter the code: "] in
    let failed e := [ConsoleError "Error during authentication:" (Some e)] in
    match getToken (AuthManual.provider env) client
            (QString (AuthManual.answer env)) with
    | Throw e => ((asked ++ failed e)%list, Throw e)
    | Normal tokens =>
        let stored :=
          [SetCredentials tokens;
           WriteFile (TOKEN_PATH host) (JSON.stringify tokens 0)] in
        match writeFile_result disk (TOKEN_PATH host) (JSON.stringify tokens 0) with
        | Throw e => ((asked ++ stored ++ failed e)%list, Throw e)
        | Normal _ =>
            ((asked ++ stored
                ++ [ConsoleLog ("Token stored to: " ++ TOKEN_PATH host)])%list,
             Normal (mkApi "v1" client))
        end
    end.
Proof.
  unfold no_cached_token. intros Hno.
  unfold AuthManual.getAuthenticatedGmail, AuthManual.getNewToken,
    fs.readFile, fs.writeFile, manual_client.
  cbv zeta.
  generalize (generateAuthUrl (AuthManual.provider env)
                (mkClient (AuthManual.CLIENT_ID env)
                   (AuthManual.CLIENT_SECRET env) (AuthManual.REDIRECT_URI env))
                "offline" SCOPES).
  intros authUrl.
  generalize (TOKEN_PATH host) Hno. clear Hno. intros p Hno.
  destruct (readFile_result disk p) as [text | e0];
    [destruct (JSON.parse text) as [c | e1] eqn:Hp; [discriminate Hno | ] | ];
    cbn [lift bind emit try_catch app]; rewrite ?Hp;
    cbn [lift bind emit try_catch app];
    (destruct (getToken _ _ _) as [tokens | e]; [ | reflexivity]);
    cbn [lift bind emit try_catch app];
    generalize (JSON.stringify tokens 0); intros data;
    destruct (writeFile_result disk p data) as [[] | e]; reflexivity.
Qed.

(** The listener on a request that carries a code. *)
Lemma handler_with_code host env disk client req q code_ :
  AuthLocal.query req = Normal q ->
  AuthLocal.lookup "code" q = Some code_ ->
  truthy_query (Some code_) = true ->
  AuthLocal.handler host env disk client req
  = let served := [WriteHead 200; ResEnd AuthLocal.success_page; ServerClose] in
    let failed e :=
      [ConsoleError "Error retrieving access token:" (Some e); Reject e] in
    match getToken (AuthLocal.provider env) client code_ with
    | Throw e => ((served ++ failed e)%list, Normal (Throw e))
    | Normal tokens =>
        let write := WriteFile (TOKEN_PATH host) (JSON.stringify tokens 0) in
        match writeFile_result disk (TOKEN_PATH host) (JSON.stringify tokens 0) with
        | Throw e => ((served ++ write :: failed e)%list, Normal (Throw e))
        | Normal _ =>
            ((served ++ [write;
                         ConsoleLog ("Token stored to: " ++ TOKEN_PATH host);
                         Resolve tokens])%list,
             Normal (Normal tokens))
        end
    end.
Proof.
  intros Hq Hcode Htruthy. unfold AuthLocal.handler, fs.writeFile.
  rewrite Hq. cbn [lift bind try_catch]. rewrite Hcode, Htruthy. cbv zeta.
  generalize (TOKEN_PATH host). intros p.
  destruct (getToken (AuthLocal.provider env) client code_) as [tokens | e];
    [ | reflexivity].
  cbn [lift bind emit try_catch app].
  generalize (JSON.stringify tokens 0). intros data.
  destruct (writeFile_result disk p data) as [[] | e]; reflexivity.
Qed.

(** [getNewToken] of the local variant, up to the listener. *)
Lemma local_getNewToken_cases host env disk client :
  AuthLocal.getNewToken host env disk client
  = let authUrl :=
      generateAuthUrl (AuthLocal.provider env) client "offline" SCOPES in
    match AuthLocal.arrival env with
    | AuthLocal.BindError e =>
        ([ServerListen 3000;
          ConsoleError ("Server error: " ++ message e) None;
          Reject e],
         Throw e)
    | AuthLocal.Redirect req =>
        let opened :=
          [ServerListen 3000;
           ConsoleLog "Listening for OAuth2 callback on port 3000";
           ConsoleLog ("Opening browser for authentication: " ++ authUrl);
           OpenBrowser authUrl] in
        let manually :=
          match AuthLocal.open_browser env with
          | Normal _ => []
          | Throw _ =>
              [ConsoleLog
                 ("Unable to open browser automatically. Please open this URL manually:"
                    ++ JSON.newline ++ authUrl)]
          end in
        ((opened ++ manually
            ++ trace (AuthLocal.handler host env disk client req))%list,
         match outcome (AuthLocal.handler host env disk client req) with
         | Normal settlement => settlement
         | Throw e => Throw e
         end)
    end.
Proof.
  unfold AuthLocal.getNewToken. cbv zeta.
  generalize (generateAuthUrl (AuthLocal.provider env) client "offline" SCOPES).
  intros authUrl.
  change (String_of_int AuthLocal.PORT) with "3000".
  change AuthLocal.PORT with 3000.
  destruct (AuthLocal.arrival env) as [e | req]; [reflexivity | ].
  destruct (AuthLocal.handler host env disk client req) as [t [[tokens | e] | e]];
    destruct (AuthLocal.open_browser env) as [[] | err];
    cbn [bind emit lift try_catch app ret trace outcome fst snd];
    rewrite ?app_nil_r; reflexivity.
Qed.

(** The local variant without a usable cached token. *)
Lemma local_new_token host env disk :
  no_cached_token host disk = true ->
  AuthLocal.getAuthenticatedGmail host env disk
  = let client := local_client env in
    match AuthLocal.getNewToken host env disk client with
    | (t, Throw e) =>
        ((ReadFile (TOKEN_PATH host) :: t
            ++ [ConsoleError "Error during authentication:" (Some e)])%list,
         Throw e)
    | (t, Normal tokens) =>
        ((ReadFile (TOKEN_PATH host) :: t ++ [SetCredentials tokens])%list,
         Normal (mkApi "v1" client))
    end.
Proof.
  unfold no_cached_token. intros Hno.
  unfold AuthLocal.getAuthenticatedGmail, fs.readFile, local_client.
  cbv zeta.
  change (Some ("http://localhost:" ++ String_of_int AuthLocal.PORT
                  ++ "/oauth2callback"))
    with (Some "http://localhost:3000/oauth2callback").
  generalize (TOKEN_PATH host) Hno. clear Hno. intros p Hno.
  destruct (AuthLocal.getNewToken host env disk _) as [t [tokens | e]];
    (destruct (readFile_result disk p) as [text | e0];
     [destruct (JSON.parse text) as [c | e1] eqn:Hp; [discriminate Hno | ] | ]);
    cbn [lift bind emit try_catch app]; rewrite ?Hp;
    cbn [lift bind emit try_catch app ret]; flatten_trace;
    rewrite ?app_nil_r; reflexivity.
Qed.

Lemma cached_token_is_used_as_is_witness :
  readFile_result Scenarios.disk_with_token (TOKEN_PATH Samples.host)
  = Normal (JSON.stringify Samples.tokens 0)
  /\ JSON.parse (JSON.stringify Samples.tokens 0) = Normal Samples.tokens
  /\ AuthManual.getAuthenticatedGmail Samples.host Samples.manual_env
       Scenarios.disk_with_token
     = ([ReadFile "/home/app/token.json"; SetCredentials Samples.tokens],
        Normal (mkApi "v1" (manual_client Samples.manual_env)))
  /\ AuthLocal.getAuthenticatedGmail Samples.host
       (Samples.local_env Samples.request_without_code)
       Scenarios.disk_with_token
     = ([ReadFile "/home/app/token.json"; SetCredentials Samples.tokens],
        Normal (mkApi "v1" Samples.client)).
Proof.
  assert (Hparse : JSON.parse (JSON.stringify Samples.tokens 0)
                   = Normal Samples.tokens) by (vm_compute; reflexivity).
  split; [reflexivity | ]. split; [exact Hparse | ].
  destruct (cached_token_is_used_as_is Samples.host Scenarios.disk_with_token
              (JSON.stringify Samples.tokens 0) Samples.tokens eq_refl Hparse)
    as [Hmanual Hlocal].
  split.
  - exact (Hmanual Samples.manual_env).
  - exact (Hlocal (Samples.local_env Samples.request_without_code)).
Defined.

(** X23: the token file round-trips across runs (manual variant): when no
    cached token can be used and the pasted code is exchanged for tokens
    (a JSON value written without loss) that can be stored, the run sets
    them as credentials and writes a text from which a later run, of
    either variant, sets the same credentials without a new
    authorization. *)
Theorem manual_token_is_read_back :
  forall host env disk tokens,
    no_cached_token host disk = true ->
    getToken (AuthManual.provider env) (manual_client env)
      (QString (AuthManual.answer env)) = Normal tokens ->
    writeFile_result disk (TOKEN_PATH host) (JSON.stringify tokens 0)
    = Normal tt ->
    JSON.stable tokens = true ->
    exists text,
      In (WriteFile (TOKEN_PATH host) text)
         (trace (AuthManual.getAuthenticatedGmail host env disk))
      /\ In (SetCredentials tokens)
            (trace (AuthManual.getAuthenticatedGmail host env disk))
      /\ forall disk',
          readFile_result disk' (TOKEN_PATH host) = Normal text ->
          (forall env',
              trace (AuthManual.getAuthenticatedGmail host env' disk')
              = [ReadFile (TOKEN_PATH host); SetCredentials tokens])
          /\ (forall env',
                 trace (AuthLocal.getAuthenticatedGmail host env' disk')
                 = [ReadFile (TOKEN_PATH host); SetCredentials tokens]).
Proof.
  intros host env disk tokens Hno Hget Hwrite Hstable.
  exists (JSON.stringify tokens 0).
  rewrite (manual_new_token host env disk Hno). cbv zeta.
  rewrite Hget, Hwrite. cbn [trace fst app].
  split; [do 5 right; left; reflexivity | ].
  split; [do 4 right; left; reflexivity | ].
  intros disk' Hread.
  pose proof (parse_stringify_compact tokens Hstable) as Hparse.
  split; intros env'.
  - rewrite (manual_cached host env' disk' _ tokens Hread Hparse). reflexivity.
  - rewrite (local_cached host env' disk' _ tokens Hread Hparse). reflexivity.
Qed.

Lemma manual_token_is_read_back_witness :
  no_cached_token Samples.host Samples.disk_with_broken_token = true
  /\ JSON.stable Samples.tokens = true
  /\ exists text,
      In (WriteFile "/home/app/token.json" text)
         (trace (AuthManual.getAuthenticatedGmail Samples.host
                   Samples.manual_env Samples.disk_with_broken_token))
      /\ In (SetCredentials Samples.tokens)
            (trace (AuthManual.getAuthenticatedGmail Samples.host
                      Samples.manual_env Samples.disk_with_broken_token))
      /\ forall disk',
          readFile_result disk' "/home/app/token.json" = Normal text ->
          (forall env',
              trace (AuthManual.getAuthenticatedGmail Samples.host env' disk')
              = [ReadFile "/home/app/token.json"; SetCredentials Samples.tokens])
          /\ (forall env',
                 trace (AuthLocal.getAuthenticatedGmail Samples.host env' disk')
                 = [ReadFile "/home/app/token.json";
                    SetCredentials Samples.tokens]).
Proof.
  split; [reflexivity | ]. split; [reflexivity | ].
  apply (manual_token_is_read_back Samples.host Samples.manual_env
           Samples.disk_with_broken_token Samples.tokens);
    [reflexivity | reflexivity | reflexivity | reflexivity].
Defined.

(** X24: the token file round-trips across runs (local-callback variant):
    when no cached token can be used and the code of the redirect is
    exchanged for tokens (a JSON value written without loss: no NaN and
    no fraction, integers within the safe range, distinct keys that are
    not array indices) that can be stored, the run sets them as credentials
    and writes a text from which a later run, of either variant, sets the
    same credentials without a new authorization. *)
Theorem local_token_is_read_back :
  forall host env disk req q code_ tokens,
    no_cached_token host disk = true ->
    AuthLocal.arrival env = AuthLocal.Redirect req ->
    AuthLocal.query req = Normal q ->
    AuthLocal.lookup "code" q = Some code_ ->
    truthy_query (Some code_) = true ->
    getToken (AuthLocal.provider env) (local_client env) code_ = Normal tokens ->
    writeFile_result disk (TOKEN_PATH host) (JSON.stringify tokens 0)
    = Normal tt ->
    JSON.stable tokens = true ->
    exists text,
      In (WriteFile (TOKEN_PATH host) text)
         (trace (AuthLocal.getAuthenticatedGmail host env disk))
      /\ In (SetCredentials tokens)
            (trace (AuthLocal.getAuthenticatedGmail host env disk))
      /\ forall disk',
          readFile_result disk' (TOKEN_PATH host) = Normal text ->
          (forall env',
              trace (AuthManual.getAuthenticatedGmail host env' disk')
              = [ReadFile (TOKEN_PATH host); SetCredentials tokens])
          /\ (forall env',
                 trace (AuthLocal.getAuthenticatedGmail host env' disk')
                 = [ReadFile (TOKEN_PATH host); SetCredentials tokens]).
Proof.
  intros host env disk req q code_ tokens Hno Harr Hq Hcode Htruthy Hget Hwrite
    Hstable.
  exists (JSON.stringify tokens 0).
  rewrite (local_new_token host env disk Hno). cbv zeta.
  rewrite local_getNewToken_cases, Harr. cbv zeta.
  rewrite (handler_with_code host env disk _ req q code_ Hq Hcode Htruthy).
  cbv zeta. rewrite Hget, Hwrite.
  cbn [trace outcome fst snd]. split; [ | split].
  - apply in_cons, in_or_app. left.
    apply in_or_app. right. apply in_or_app. right.
    cbn [app In]. do 3 right. left. reflexivity.
  - apply in_cons, in_or_app. right. left. reflexivity.
  - intros disk' Hread.
    pose proof (parse_stringify_compact tokens Hstable) as Hparse.
    split; intros env'.
    + rewrite (manual_cached host env' disk' _ tokens Hread Hparse). reflexivity.
    + rewrite (local_cached host env' disk' _ tokens Hread Hparse). reflexivity.
Qed.

Lemma local_token_is_read_back_witness :
  exists text,
    In (WriteFile "/home/app/token.json" text)
       (trace (AuthLocal.getAuthenticatedGmail Samples.host
                 (Samples.local_env Samples.request_with_code)
                 Samples.disk_without_token))
    /\ In (SetCredentials Samples.tokens)
          (trace (AuthLocal.getAuthenticatedGmail Samples.host
                    (Samples.local_env Samples.request_with_code)
                    Samples.disk_without_token))
    /\ forall disk',
        readFile_result disk' "/home/app/token.json" = Normal text ->
        (forall env',
            trace (AuthManual.getAuthenticatedGmail Samples.host env' disk')
            = [ReadFile "/home/app/token.json"; SetCredentials Samples.tokens])
        /\ (forall env',
               trace (AuthLocal.getAuthenticatedGmail Samples.host env' disk')
               = [ReadFile "/home/app/token.json";
                  SetCredentials Samples.tokens]).
Proof.
  apply (local_token_is_read_back Samples.host
           (Samples.local_env Samples.request_with_code)
           Samples.disk_without_token Samples.request_with_code
           [("code", QString "ABC")] (QString "ABC") Samples.tokens);
    [reflexivity | reflexivity | reflexivity | reflexivity | reflexivity
     | reflexivity | reflexivity | reflexivity].
Defined.

(** X25: in the manual variant, when no cached token can be used and the
    exchange of the pasted code is rejected, the run logs the error and
    rejects with it: no credentials are set and no token file is
    written. *)
Theorem manual_failed_exchange_stores_nothing :
  forall host env disk e,
    no_cached_token host disk = true ->
    getToken (AuthManual.provider env) (manual_client env)
      (QString (AuthManual.answer env)) = Throw e ->
    AuthManual.getAuthenticatedGmail host env disk
    = ([ReadFile (TOKEN_PATH host);
        ConsoleLog ("Authorize this app by visiting this URL: "
                      ++ generateAuthUrl (AuthManual.provider env)
                           (manual_client env) "offline" SCOPES);
        ConsoleLog
          "After authorization, copy the code from the redirect URL and enter it below:";
        Question "Enter the code: ";
        ConsoleError "Error during authentication:" (Some e)],
       Throw e).
Proof.
  intros host env disk e Hno Hget.
  rewrite (manual_new_token host env disk Hno). cbv zeta. rewrite Hget.
  reflexivity.
Qed.

Lemma manual_failed_exchange_stores_nothing_witness :
  AuthManual.getAuthenticatedGmail Samples.host Scenarios.manual_env_wrong_code
    Samples.disk_without_token
  = ([ReadFile "/home/app/token.json";
      ConsoleLog
        "Authorize this app by visiting this URL: https://accounts.google.com/o/oauth2/v2/auth?access_type=offline";
      ConsoleLog
        "After authorization, copy the code from the redirect URL and enter it below:";
      Question "Enter the code: ";
      ConsoleError "Error during authentication:" (Some (Error "invalid_grant"))],
     Throw (Error "invalid_grant")).
Proof.
  apply (manual_failed_exchange_stores_nothing Samples.host
           Scenarios.manual_env_wrong_code Samples.disk_without_token
           (Error "invalid_grant")); [reflexivity | reflexivity].
Defined.

(** X26: the listener answers a request that carries a code with status
    200 and the success page, and stops the server, before it exchanges
    the code: when the exchange is then rejected, the browser has been told
    of success while the pending authorization is rejected with the
    error. *)
Theorem success_page_is_sent_before_the_exchange :
  forall host env disk client req q code_,
    AuthLocal.query req = Normal q ->
    AuthLocal.lookup "code" q = Some code_ ->
    truthy_query (Some code_) = true ->
    (exists rest,
        trace (AuthLocal.handler host env disk client req)
        = WriteHead 200 :: ResEnd AuthLocal.success_page :: ServerClose :: rest)
    /\ (forall e,
           getToken (AuthLocal.provider env) client code_ = Throw e ->
           AuthLocal.handler host env disk client req
           = ([WriteHead 200; ResEnd AuthLocal.success_page; ServerClose;
               ConsoleError "Error retrieving access token:" (Some e);
               Reject e],
              Normal (Throw e))).
Proof.
  intros host env disk client req q code_ Hq Hcode Htruthy.
  rewrite (handler_with_code host env disk client req q code_ Hq Hcode Htruthy).
  cbv zeta. split.
  - destruct (getToken (AuthLocal.provider env) client code_) as [tokens | e];
      [destruct (writeFile_result disk _ _) | ]; eexists; reflexivity.
  - intros e ->. reflexivity.
Qed.

Lemma success_page_is_sent_before_the_exchange_witness :
  AuthLocal.handler Samples.host
    (Samples.local_env Scenarios.request_with_wrong_code)
    Samples.disk_without_token Samples.client Scenarios.request_with_wrong_code
  = ([WriteHead 200; ResEnd AuthLocal.success_page; ServerClose;
      ConsoleError "Error retrieving access token:"
        (Some (Error "invalid_grant"));
      Reject (Error "invalid_grant")],
     Normal (Throw (Error "invalid_grant"))).
Proof.
  apply (proj2 (success_page_is_sent_before_the_exchange Samples.host
                  (Samples.local_env Scenarios.request_with_wrong_code)
                  Samples.disk_without_token Samples.client
                  Scenarios.request_with_wrong_code
                  [("code", QString "XYZ")] (QString "XYZ")
                  eq_refl eq_refl eq_refl)).
  reflexivity.
Defined.

(** X27: when the tokens have been obtained but the token file cannot be
    written, both variants reject with the write error and lose the
    tokens: the manual variant after it has set them as credentials, the
    local-callback variant, which logs it as an error retrieving the
    token, without having set them. *)
Theorem token_that_cannot_be_stored_fails_the_run :
  forall host disk tokens e,
    no_cached_token host disk = true ->
    writeFile_result disk (TOKEN_PATH host) (JSON.stringify tokens 0) = Throw e ->
    (forall env,
        getToken (AuthManual.provider env) (manual_client env)
          (QString (AuthManual.answer env)) = Normal tokens ->
        outcome (AuthManual.getAuthenticatedGmail host env disk) = Throw e
        /\ In (SetCredentials tokens)
              (trace (AuthManual.getAuthenticatedGmail host env disk)))
    /\ (forall env req q code_,
           AuthLocal.arrival env = AuthLocal.Redirect req ->
           AuthLocal.query req = Normal q ->
           AuthLocal.lookup "code" q = Some code_ ->
           truthy_query (Some code_) = true ->
           getToken (AuthLocal.provider env) (local_client env) code_
           = Normal tokens ->
           outcome (AuthLocal.getAuthenticatedGmail host env disk) = Throw e
           /\ In (ConsoleError "Error retrieving access token:" (Some e))
                 (trace (AuthLocal.getAuthenticatedGmail host env disk))
           /\ ~ In (SetCredentials tokens)
                  (trace (AuthLocal.getAuthenticatedGmail host env disk))).
Proof.
  intros host disk tokens e Hno Hwrite. split.
  - intros env Hget. rewrite (manual_new_token host env disk Hno). cbv zeta.
    rewrite Hget, Hwrite. split; [reflexivity | ].
    cbn [trace fst app In]. do 4 right. left. reflexivity.
  - intros env req q code_ Harr Hq Hcode Htruthy Hget.
    rewrite (local_new_token host env disk Hno). cbv zeta.
    rewrite local_getNewToken_cases, Harr. cbv zeta.
    rewrite (handler_with_code host env disk _ req q code_ Hq Hcode Htruthy).
    cbv zeta. rewrite Hget, Hwrite.
    cbn [trace outcome fst snd]. split; [reflexivity | ].
    destruct (AuthLocal.open_browser env); cbn [app In]; split;
      try (intros H; repeat (destruct H as [H | H]; [discriminate H | ]);
           exact H).
    + do 9 right. left. reflexivity.
    + do 10 right. left. reflexivity.
Qed.

Lemma token_that_cannot_be_stored_fails_the_run_witness :
  (outcome (AuthManual.getAuthenticatedGmail Samples.host Samples.manual_env
              Scenarios.disk_read_only)
   = Throw (Error "EROFS: read-only file system, open")
   /\ In (SetCredentials Samples.tokens)
         (trace (AuthManual.getAuthenticatedGmail Samples.host
                   Samples.manual_env Scenarios.disk_read_only)))
  /\ (outcome (AuthLocal.getAuthenticatedGmail Samples.host
                 (Samples.local_env Samples.request_with_code)
                 Scenarios.disk_read_only)
      = Throw (Error "EROFS: read-only file system, open")
      /\ In (ConsoleError "Error retrieving access token:"
               (Some (Error "EROFS: read-only file system, open")))
            (trace (AuthLocal.getAuthenticatedGmail Samples.host
                      (Samples.local_env Samples.request_with_code)
                      Scenarios.disk_read_only))
      /\ ~ In (SetCredentials Samples.tokens)
             (trace (AuthLocal.getAuthenticatedGmail Samples.host
                       (Samples.local_env Samples.request_with_code)
                       Scenarios.disk_read_only))).
Proof.
  destruct (token_that_cannot_be_stored_fails_the_run Samples.host
              Scenarios.disk_read_only Samples.tokens
              (Error "EROFS: read-only file system, open") eq_refl eq_refl)
    as [Hmanual Hlocal].
  split.
  - exact (Hmanual Samples.manual_env eq_refl).
  - exact (Hlocal (Samples.local_env Samples.request_with_code)
             Samples.request_with_code [("code", QString "ABC")] (QString "ABC")
             eq_refl eq_refl eq_refl eq_refl eq_refl).
Defined.

(** X28: when no cached token can be used and the server cannot listen on
    port 3000, the local-callback variant logs the server error, rejects,
    and [getAuthenticatedGmail] logs and rethrows it: the browser is not
    opened and the server is not closed. *)
Theorem port_in_use_fails_the_run :
  forall host env disk e,
    no_cached_token host disk = true ->
    AuthLocal.arrival env = AuthLocal.BindError e ->
    AuthLocal.getAuthenticatedGmail host env disk
    = ([ReadFile (TOKEN_PATH host);
        ServerListen 3000;
        ConsoleError ("Server error: " ++ message e) None;
        Reject e;
        ConsoleError "Error during authentication:" (Some e)],
       Throw e).
Proof.
  intros host env disk e Hno Harr.
  rewrite (local_new_token host env disk Hno). cbv zeta.
  rewrite local_getNewToken_cases, Harr. reflexivity.
Qed.

Lemma port_in_use_fails_the_run_witness :
  AuthLocal.getAuthenticatedGmail Samples.host Scenarios.local_env_port_taken
    Samples.disk_without_token
  = ([ReadFile "/home/app/token.json";
      ServerListen 3000;
      ConsoleError "Server error: listen EADDRINUSE: address already in use :::3000"
        None;
      Reject (Error "listen EADDRINUSE: address already in use :::3000");
      ConsoleError "Error during authentication:"
        (Some (Error "listen EADDRINUSE: address already in use :::3000"))],
     Throw (Error "listen EADDRINUSE: address already in use :::3000")).
Proof.
  apply (port_in_use_fails_the_run Samples.host Scenarios.local_env_port_taken
           Samples.disk_without_token
           (Error "listen EADDRINUSE: address already in use :::3000"));
    [reflexivity | reflexivity].
Defined.

Lemma handler_with_browser host env disk client req opened opened' :
  AuthLocal.handler host (with_browser env opened) disk client req
  = AuthLocal.handler host (with_browser env opened') disk client req.
Proof. reflexivity. Qed.

(** X29: a browser that cannot be opened does not change the outcome of
    [getNewToken]: the run differs from the run with the browser opened
    only in log lines, among them the request to open the URL by hand. *)
Theorem browser_failure_is_not_fatal :
  forall host env disk client err,
    outcome (AuthLocal.getNewToken host (with_browser env (Throw err)) disk client)
    = outcome (AuthLocal.getNewToken host (with_browser env (Normal tt)) disk
                 client)
    /\ filter (fun ev => negb (Observe.is_log ev))
         (trace (AuthLocal.getNewToken host (with_browser env (Throw err)) disk
                   client))
       = filter (fun ev => negb (Observe.is_log ev))
           (trace (AuthLocal.getNewToken host (with_browser env (Normal tt))
                     disk client))
    /\ (forall req,
           AuthLocal.arrival env = AuthLocal.Redirect req ->
           In (ConsoleLog
                 ("Unable to open browser automatically. Please open this URL manually:"
                    ++ JSON.newline
                    ++ generateAuthUrl (AuthLocal.provider env) client
                         "offline" SCOPES))
              (trace (AuthLocal.getNewToken host (with_browser env (Throw err))
                        disk client))).
Proof.
  intros host env disk client err.
  rewrite !local_getNewToken_cases. cbv zeta.
  cbn [with_browser AuthLocal.arrival AuthLocal.open_browser AuthLocal.provider].
  generalize (generateAuthUrl (AuthLocal.provider env) client "offline" SCOPES).
  intros authUrl.
  destruct (AuthLocal.arrival env) as [e | req].
  - split; [reflexivity | ]. split; [reflexivity | ]. discriminate.
  - rewrite (handler_with_browser host env disk client req (Throw err)
               (Normal tt)).
    split; [reflexivity | ]. split.
    + cbn [trace fst app filter Observe.is_log negb]. reflexivity.
    + intros req' _. cbn [trace fst app In]. do 4 right. left. reflexivity.
Qed.

(** X30: a redirect whose [code] parameter is the empty string is handled
    as one without the parameter: status 400, the failure page, the server
    stopped, the pending authorization rejected, and no exchange. *)
Theorem empty_code_is_missing_code :
  forall host env disk client req q,
    AuthLocal.query req = Normal q ->
    AuthLocal.lookup "code" q = Some (QString "") ->
    AuthLocal.handler host env disk client req
    = ([WriteHead 400; ResEnd AuthLocal.failure_page; ServerClose;
        Reject (Error "No authorization code received")],
       Normal (Throw (Error "No authorization code received"))).
Proof.
  intros host env disk client req q Hq Hcode.
  apply (handler_no_code host env disk client req q Hq).
  rewrite Hcode. reflexivity.
Qed.

Lemma empty_code_is_missing_code_witness :
  AuthLocal.handler Samples.host
    (Samples.local_env Scenarios.request_with_empty_code)
    Samples.disk_without_token Samples.client Scenarios.request_with_empty_code
  = ([WriteHead 400; ResEnd AuthLocal.failure_page; ServerClose;
      Reject (Error "No authorization code received")],
     Normal (Throw (Error "No authorization code received"))).
Proof.
  apply (empty_code_is_missing_code Samples.host
           (Samples.local_env Scenarios.request_with_empty_code)
           Samples.disk_without_token Samples.client
           Scenarios.request_with_empty_code [("code", QString "")]);
    reflexivity.
Defined.

Lemma browser_failure_is_not_fatal_witness :
  outcome (AuthLocal.getNewToken Samples.host
             (with_browser (Samples.local_env Samples.request_with_code)
                Scenarios.no_browser)
             Samples.disk_without_token Samples.client)
  = Normal Samples.tokens
  /\ In (ConsoleLog
           ("Unable to open browser automatically. Please open this URL manually:"
              ++ JSON.newline
              ++ "https://accounts.google.com/o/oauth2/v2/auth?access_type=offline"))
        (trace (AuthLocal.getNewToken Samples.host
                  (with_browser (Samples.local_env Samples.request_with_code)
                     Scenarios.no_browser)
                  Samples.disk_without_token Samples.client)).
Proof.
  destruct (browser_failure_is_not_fatal Samples.host
              (Samples.local_env Samples.request_with_code)
              Samples.disk_without_token Samples.client
              (Error "spawn xdg-open ENOENT")) as [Hout [_ Hlog]].
  unfold Scenarios.no_browser. split.
  - rewrite Hout. reflexivity.
  - exact (Hlog Samples.request_with_code eq_refl).
Defined.

(** ** index.js *)

Import Index.

Lemma main_cases host disk (auth : Eff OAuth2.GmailApi) service :
  main host disk auth service
  = let start := [ConsoleLog "Starting Gmail processing...";
                  ConsoleLog "Authenticating with Gmail API..."] in
    let failed e := [ConsoleError "Error in main process:" (Some e)] in
    let fetching :=
      [ConsoleLog "Fetching emails with CVS label from the last 6 days..."] in
    let done_ :=
      [ConsoleLog (JSON.newline ++ "Gmail processing completed successfully.")] in
    match auth with
    | (t1, Throw e) => ((start ++ t1 ++ failed e)%list, Normal (ProcessExit 1))
    | (t1, Normal gmail) =>
        match fetchCVSEmails host (service gmail) with
        | (t2, Throw e) =>
            ((start ++ t1 ++ fetching ++ t2 ++ failed e)%list,
             Normal (ProcessExit 1))
        | (t2, Normal []) =>
            ((start ++ t1 ++ fetching ++ t2
                ++ [ConsoleLog "No emails found matching the criteria."]
                ++ done_)%list,
             Normal Completed)
        | (t2, Normal emails) =>
            match saveEmailData host disk emails None with
            | (t3, Throw e) =>
                ((start ++ t1 ++ fetching ++ t2 ++ t3 ++ failed e)%list,
                 Normal (ProcessExit 1))
            | (t3, Normal _) =>
                ((start ++ t1 ++ fetching ++ t2 ++ t3
                    ++ trace (printEmailSummary emails) ++ done_)%list,
                 Normal Completed)
            end
        end
    end.
Proof.
  unfold main. cbv zeta.
  destruct auth as [t1 [gmail | e]];
    [ | cbn [bind emit try_catch ret app]; reflexivity].
  destruct (fetchCVSEmails host (service gmail)) as [t2 [emails | e]] eqn:Hfetch;
    [ | cbn [bind emit try_catch ret app]; rewrite Hfetch;
        cbn [bind emit try_catch ret app]; flatten_trace; reflexivity].
  destruct emails as [ | r emails].
  - cbn [bind emit try_catch ret app]. rewrite Hfetch.
    cbn [bind emit try_catch ret app List.length Nat.ltb Nat.leb].
    flatten_trace. reflexivity.
  - destruct (saveEmailData host disk (r :: emails) None) as [t3 [phones | e]]
      eqn:Hsave;
      cbn [bind emit try_catch ret app]; rewrite Hfetch;
      cbn [bind emit try_catch ret app List.length Nat.ltb Nat.leb];
      rewrite Hsave; unfold printEmailSummary;
      cbn [bind emit try_catch ret app trace fst];
      flatten_trace; reflexivity.
Qed.

Lemma fetchCVSEmails_writes_nothing host gmail :
  filter Observe.is_disk_write (trace (fetchCVSEmails host gmail)) = [].
Proof.
  destruct (listed host gmail) as [data | e] eqn:Hlist.
  - rewrite (fetchCVSEmails_trace host gmail data Hlist).
    cbn [filter Observe.is_disk_write].
    destruct (refs_of data) as [ | m refs]; [reflexivity | ].
    cbn [filter Observe.is_disk_write]. rewrite filter_app.
    cbn [filter Observe.is_disk_write]. rewrite app_nil_r.
    induction (m :: refs) as [ | m' refs' IH]; [reflexivity | ].
    cbn [map List.concat]. rewrite filter_app, IH, app_nil_r.
    destruct (extractEmailData_cases gmail (Gmail.id m'))
      as [[to_ [date_ [timestamp_ [_ [_ [_ ->]]]]]] | [e ->]]; reflexivity.
  - rewrite (fetchCVSEmails_list_rejected host gmail e Hlist). reflexivity.
Qed.

(** X18: [main] never rejects, whatever fails: it runs to its end, or it
    calls [process.exit(1)], and it does the latter exactly when the
    authentication, the fetch, or (with records to save) the save
    throws. *)
Theorem main_never_rejects :
  forall host disk auth service,
    exists exit,
      outcome (main host disk auth service) = Normal exit
      /\ (exit = Completed \/ exit = ProcessExit 1)
      /\ (exit = ProcessExit 1 <->
          (exists e, outcome auth = Throw e)
          \/ (exists gmail e,
                 outcome auth = Normal gmail
                 /\ outcome (fetchCVSEmails host (service gmail)) = Throw e)
          \/ (exists gmail emails e,
                 outcome auth = Normal gmail
                 /\ outcome (fetchCVSEmails host (service gmail)) = Normal emails
                 /\ emails <> []
                 /\ outcome (saveEmailData host disk emails None) = Throw e)).
Proof.
  intros host disk auth service. rewrite main_cases. cbv zeta.
  destruct auth as [t1 [gmail | e]]; cbn [outcome snd].
  2: { exists (ProcessExit 1). split; [reflexivity | ].
       split; [right; reflexivity | ]. split; [ | reflexivity].
       intros _. left. exists e. reflexivity. }
  destruct (fetchCVSEmails host (service gmail)) as [t2 [emails | e]]
    eqn:Hfetch; cbn [outcome snd].
  2: { exists (ProcessExit 1). split; [reflexivity | ].
       split; [right; reflexivity | ]. split; [ | reflexivity].
       intros _. right. left. exists gmail, e. rewrite Hfetch.
       split; reflexivity. }
  destruct emails as [ | r emails].
  { exists Completed. split; [reflexivity | ]. split; [left; reflexivity | ].
    split; [discriminate | ].
    intros [[e H] | [[g [e [Hg H]]] | [g [l [e [Hg [H [Hne _]]]]]]]];
      try discriminate H; injection Hg as <-; rewrite Hfetch in H;
      cbn [outcome snd] in H; [discriminate H | ].
    injection H as <-. congruence. }
  destruct (saveEmailData host disk (r :: emails) None) as [t3 [phones | e]]
    eqn:Hsave; cbn [outcome snd].
  - exists Completed. split; [reflexivity | ]. split; [left; reflexivity | ].
    split; [discriminate | ].
    intros [[e H] | [[g [e [Hg H]]] | [g [l [e [Hg [H [_ Hs]]]]]]]];
      try discriminate H; injection Hg as <-; rewrite Hfetch in H;
      cbn [outcome snd] in H; [discriminate H | ].
    injection H as <-. rewrite Hsave in Hs. discriminate Hs.
  - exists (ProcessExit 1). split; [reflexivity | ].
    split; [right; reflexivity | ]. split; [ | reflexivity].
    intros _. right. right. exists gmail, (r :: emails), e.
    rewrite Hfetch, Hsave. repeat split. discriminate.
Qed.

(** X19: when the authentication fails, [main] logs the error and exits
    with status 1; nothing is fetched and nothing is saved. *)
Theorem main_stops_at_failed_authentication :
  forall host disk auth service e,
    outcome auth = Throw e ->
    main host disk auth service
    = ((ConsoleLog "Starting Gmail processing..."
          :: ConsoleLog "Authenticating with Gmail API..."
          :: trace auth
          ++ [ConsoleError "Error in main process:" (Some e)])%list,
       Normal (ProcessExit 1)).
Proof.
  intros host disk [t1 r] service e Hauth. cbn [outcome snd] in Hauth. subst r.
  rewrite main_cases. reflexivity.
Qed.

(** X20: when the provider lists no message, [main] completes without
    calling [saveEmailData]: no directory is made and no file written
    beyond what the authentication wrote, and the run ends with the
    [No emails found] line and the line of completion. *)
Theorem main_saves_nothing_when_nothing_is_found :
  forall host disk auth service gmail data,
    outcome auth = Normal gmail ->
    listed host (service gmail) = Normal data ->
    refs_of data = [] ->
    outcome (main host disk auth service) = Normal Completed
    /\ filter Observe.is_disk_write (trace (main host disk auth service))
       = filter Observe.is_disk_write (trace auth)
    /\ exists before,
        trace (main host disk auth service)
        = (before
             ++ [ConsoleLog "No emails found matching the criteria.";
                 ConsoleLog (JSON.newline
                               ++ "Gmail processing completed successfully.")])%list.
Proof.
  intros host disk [t1 r] service gmail data Hauth Hlist Hrefs.
  cbn [outcome snd] in Hauth. subst r.
  pose proof (fetchCVSEmails_records host (service gmail) data Hlist) as Hout.
  pose proof (fetchCVSEmails_writes_nothing host (service gmail)) as Hquiet.
  rewrite Hrefs in Hout. cbn [map] in Hout.
  rewrite main_cases. cbv zeta.
  destruct (fetchCVSEmails host (service gmail)) as [t2 r2].
  cbn [outcome snd trace fst] in Hout, Hquiet. subst r2.
  cbn [outcome snd trace fst]. split; [reflexivity | ]. split.
  - cbn [app filter Observe.is_disk_write].
    rewrite filter_app. cbn [filter Observe.is_disk_write].
    rewrite filter_app, Hquiet. cbn [app filter Observe.is_disk_write].
    rewrite app_nil_r. reflexivity.
  - exists ([ConsoleLog "Starting Gmail processing...";
             ConsoleLog "Authenticating with Gmail API..."]
              ++ t1
              ++ [ConsoleLog
                    "Fetching emails with CVS label from the last 6 days..."]
              ++ t2)%list.
    rewrite <- !app_assoc. reflexivity.
Qed.

Lemma collect_total emailToPhoneMap emails : forall phoneNumbers,
  emailToPhoneMap <> VNull ->
  exists found,
    outcome (collect_phone_numbers emailToPhoneMap emails phoneNumbers)
    = Normal found.
Proof.
  induction emails as [ | email emails IH]; intros phoneNumbers Hm.
  - eexists. reflexivity.
  - cbn [collect_phone_numbers].
    destruct (to email) as [ | | address]; try (apply IH; exact Hm).
    destruct (truthy_string address); [ | apply IH; exact Hm].
    rewrite outcome_bind. cbn [lift outcome snd].
    destruct (Get emailToPhoneMap address) as [[phone | ] | e] eqn:Hget.
    + destruct (truthy_property (Some phone)); apply IH; exact Hm.
    + apply IH; exact Hm.
    + destruct emailToPhoneMap; try discriminate Hget. congruence.
Qed.

(** X21: when the provider lists messages, the output file can be written
    and the mapping file does not hold [null], [main] completes, whatever
    the provider answers to the metadata requests, even if every one of
    them fails: the output file holds the record of every listed message,
    in order, and the summary counts them all. *)
Theorem main_saves_one_record_per_listed_message :
  forall host disk auth service gmail data,
    outcome auth = Normal gmail ->
    listed host (service gmail) = Normal data ->
    refs_of data <> [] ->
    (forall file text, writeFile_result disk file text = Normal tt) ->
    (forall text,
        readFile_result disk (default_mapping_path host) = Normal text ->
        JSON.parse text <> Normal VNull) ->
    let records :=
      map (fun message => extracted (service gmail) (Gmail.id message))
          (refs_of data) in
    outcome (main host disk auth service) = Normal Completed
    /\ In (WriteFile (Output.filePath host) (Output.text records))
          (trace (main host disk auth service))
    /\ In (ConsoleLog ("Total emails: "
                         ++ String_of_int
                              (Z.of_nat (List.length (refs_of data)))))
          (trace (main host disk auth service)).
Proof.
  intros host disk [t1 r] service gmail data Hauth Hlist Hrefs Hwrite Hmap
    records.
  cbn [outcome snd] in Hauth. subst r.
  pose proof (fetchCVSEmails_records host (service gmail) data Hlist) as Hout.
  fold records in Hout.
  assert (Hlen : List.length records = List.length (refs_of data))
    by (unfold records; apply length_map).
  rewrite main_cases. cbv zeta.
  destruct (fetchCVSEmails host (service gmail)) as [t2 r2].
  cbn [outcome snd] in Hout. subst r2.
  destruct records as [ | r0 records'] eqn:Hrecords.
  { destruct (refs_of data); [congruence | discriminate Hlen]. }
  rewrite <- Hrecords in *. clear Hrecords r0 records'.
  assert (Hsave : exists found rest,
             saveEmailData host disk records None
             = (Mkdir (Output.outputDir host)
                  :: WriteFile (Output.filePath host) (Output.text records)
                  :: rest,
                Normal found)).
  { rewrite saveEmailData_cases, Hwrite. cbv zeta.
    pose proof (load_mapping_outcome disk (mapping_path host None)) as Hload.
    destruct (load_mapping disk (mapping_path host None)) as [tl rl].
    cbn [outcome snd] in Hload. subst rl.
    set (m := match readFile_result disk (mapping_path host None) with
              | Normal text => match JSON.parse text with
                               | Normal v => v
                               | Throw _ => VObj []
                               end
              | Throw _ => VObj []
              end).
    assert (Hm : m <> VNull).
    { unfold m. cbn [mapping_path].
      destruct (readFile_result disk (default_mapping_path host)) as [text | e]
        eqn:Hread; [ | discriminate].
      specialize (Hmap text eq_refl).
      destruct (JSON.parse text) as [v | e]; [ | discriminate].
      intros ->. apply Hmap. reflexivity. }
    destruct (collect_total m records [] Hm) as [found ->].
    eexists. eexists. cbn [app]. reflexivity. }
  destruct Hsave as [found [rest ->]].
  unfold printEmailSummary. cbn [bind emit app outcome snd trace fst].
  rewrite Hlen. split; [reflexivity | ].
  split; in_trace.
Qed.

Lemma main_stops_at_failed_authentication_witness :
  main Samples.host Samples.disk_without_token
    (AuthLocal.getAuthenticatedGmail Samples.host Scenarios.local_env_port_taken
       Samples.disk_without_token)
    (fun _ => Samples.gmail)
  = ([ConsoleLog "Starting Gmail processing...";
      ConsoleLog "Authenticating with Gmail API...";
      ReadFile "/home/app/token.json";
      ServerListen 3000;
      ConsoleError "Server error: listen EADDRINUSE: address already in use :::3000"
        None;
      Reject (Error "listen EADDRINUSE: address already in use :::3000");
      ConsoleError "Error during authentication:"
        (Some (Error "listen EADDRINUSE: address already in use :::3000"));
      ConsoleError "Error in main process:"
        (Some (Error "listen EADDRINUSE: address already in use :::3000"))],
     Normal (ProcessExit 1)).
Proof.
  apply (main_stops_at_failed_authentication Samples.host
           Samples.disk_without_token
           (AuthLocal.getAuthenticatedGmail Samples.host
              Scenarios.local_env_port_taken Samples.disk_without_token)
           (fun _ => Samples.gmail)
           (Error "listen EADDRINUSE: address already in use :::3000")).
  reflexivity.
Defined.

Lemma main_saves_nothing_when_nothing_is_found_witness :
  outcome (main Samples.host Scenarios.disk_with_token
             (AuthManual.getAuthenticatedGmail Samples.host Samples.manual_env
                Scenarios.disk_with_token)
             (fun _ => Samples.gmail_empty))
  = Normal Completed
  /\ filter Observe.is_disk_write
       (trace (main Samples.host Scenarios.disk_with_token
                 (AuthManual.getAuthenticatedGmail Samples.host
                    Samples.manual_env Scenarios.disk_with_token)
                 (fun _ => Samples.gmail_empty)))
     = [].
Proof.
  destruct (main_saves_nothing_when_nothing_is_found Samples.host
              Scenarios.disk_with_token
              (AuthManual.getAuthenticatedGmail Samples.host Samples.manual_env
                 Scenarios.disk_with_token)
              (fun _ => Samples.gmail_empty)
              (mkApi "v1" (manual_client Samples.manual_env))
              (Gmail.mkList None))
    as [Hout [Hwrites _]].
  - vm_compute. reflexivity.
  - reflexivity.
  - reflexivity.
  - split; [exact Hout | ]. rewrite Hwrites. vm_compute. reflexivity.
Defined.

Lemma main_saves_one_record_per_listed_message_witness :
  map (fun message => fetched Scenarios.gmail_offline (Gmail.id message))
      Samples.refs
  = [Throw (Error "getaddrinfo ENOTFOUND gmail.googleapis.com");
     Throw (Error "getaddrinfo ENOTFOUND gmail.googleapis.com");
     Throw (Error "getaddrinfo ENOTFOUND gmail.googleapis.com")]
  /\ let service :=
       fun _ : GmailApi =>
         Gmail.mkClient (Gmail.messages_list Samples.gmail)
           (Gmail.messages_get Scenarios.gmail_offline) in
     let run :=
       main Samples.host Scenarios.disk_with_token
         (AuthManual.getAuthenticatedGmail Samples.host Samples.manual_env
            Scenarios.disk_with_token)
         service in
     outcome run = Normal Completed
     /\ In (WriteFile "/home/app/output/emails_2024-03-10_12-00-00.json"
              (Output.text
                 (map (fun id_ =>
                         failure_record id_
                           (Error "getaddrinfo ENOTFOUND gmail.googleapis.com"))
                      ["m1"; "m2"; "m3"])))
           (trace run)
     /\ In (ConsoleLog "Total emails: 3") (trace run).
Proof.
  split; [reflexivity | ].
  intros service run.
  apply (main_saves_one_record_per_listed_message Samples.host
           Scenarios.disk_with_token
           (AuthManual.getAuthenticatedGmail Samples.host Samples.manual_env
              Scenarios.disk_with_token)
           service
           (mkApi "v1" (manual_client Samples.manual_env))
           (Gmail.mkList (Some Samples.refs))).
  - vm_compute. reflexivity.
  - reflexivity.
  - discriminate.
  - reflexivity.
  - intros text [= <-]. vm_compute. discriminate.
Defined.
